(** * ELB checkout-error analysis: a shallow embedding of
      [ecommerce_checkout_analysis.py] and the properties of its
      parse / classify / aggregate pipeline.

    Conventions of the embedding.

    - Text.  A Python [str] is a [string]; each character is read as the
      code point of the same number, so the model covers the strings over
      code points 0..255.  [is_space], [lower_char] follow Python's
      [str.isspace] / [str.lower] on that range.  Statements about the
      regular expressions of the source are statements about text of
      that range.
    - Numbers.  Python [int] is [Z].  A Python [float] is given twice.
      In the tables and reports of the exact model it is a [num]: an
      exact rational, or one of the special values [inf], [-inf], [nan].
      Rounding to binary64 and the finite range of binary64 are
      abstracted there; the counts, the zero denominators and the order
      of the rows do not depend on them, and the latencies in the
      examples of the exact model are dyadic rationals, which binary64
      holds and adds exactly.  In the module [Binary64] a float is an
      IEEE 754 binary64 number, and the rates, the trend labels and the
      latency samples are computed there bit for bit.  The [int] values
      that meet floats in the source ([-1], [0], [100]) are embedded as
      the equal numbers, as Python's numeric tower compares and adds
      them.
    - Exceptions.  Fallible Python code is in the [result] monad; a
      [try ... except] is a [match] on the raised class.
    - Dictionaries are [gmap]s; [defaultdict] reads go through [default]. *)

From Stdlib Require Import ZArith QArith Qround Lqa Ascii String List Bool Lia.
From Stdlib Require Floats.SpecFloat.
From stdpp Require Import gmap strings list fin_maps sorting.

Local Open Scope string_scope.
Local Open Scope list_scope.
Local Open Scope Z_scope.

(** ** Exceptions *)

Inductive exn : Type :=
| ValueError | IndexError | AttributeError | ZeroDivisionError | KeyError
| OverflowError.

Inductive result (A : Type) : Type :=
| Ok (a : A)
| Raise (e : exn).
Arguments Ok {A} a.
Arguments Raise {A} e.

#[global] Instance result_ret : MRet result := fun A a => Ok a.
#[global] Instance result_fmap : FMap result := fun A B f r =>
  match r with
  | Ok a => Ok (f a)
  | Raise e => Raise e
  end.
#[global] Instance result_bind : MBind result := fun A B k r =>
  match r with
  | Ok a => k a
  | Raise e => Raise e
  end.

(** ** Characters and strings *)

Module Text.

Definition code (c : ascii) : N := N_of_ascii c.

Definition in_range (lo hi : N) (c : ascii) : bool :=
  ((lo <=? code c) && (code c <=? hi))%N.

(** [str.isspace] on code points below 256: TAB..CR, FS..US, SPACE,
    NEL (0x85) and NBSP (0xA0).  The regex class [\s] on [str] patterns
    is the same predicate. *)
Definition is_space (c : ascii) : bool :=
  in_range 9 13 c || in_range 28 32 c
  || (code c =? 133)%N || (code c =? 160)%N.

Definition is_digit (c : ascii) : bool := in_range 48 57 c.

Definition digit_val (c : ascii) : Z := Z.of_N (code c) - 48.

(** [str.lower] on one character: A..Z and the Latin-1 capitals
    0xC0..0xDE other than the multiplication sign 0xD7. *)
Definition lower_char (c : ascii) : ascii :=
  if in_range 65 90 c || (in_range 192 222 c && negb (code c =? 215)%N)
  then ascii_of_N (code c + 32) else c.

Fixpoint lower (s : string) : string :=
  match s with
  | EmptyString => EmptyString
  | String c s' => String (lower_char c) (lower s')
  end.

(** [t in s] *)
Fixpoint contains (t s : string) : bool :=
  match s with
  | EmptyString => String.prefix t EmptyString
  | String _ s' => String.prefix t s || contains t s'
  end.

(** [any(term in s for term in terms)] *)
Definition any_in (terms : list string) (s : string) : bool :=
  existsb (fun t => contains t s) terms.

(** [s.split(sep)] for a one-character separator. *)
Fixpoint split_on (sep : ascii) (s : string) : list string :=
  match s with
  | EmptyString => [EmptyString]
  | String c s' =>
      if Ascii.eqb c sep then EmptyString :: split_on sep s'
      else match split_on sep s' with
           | h :: t => String c h :: t
           | [] => [String c EmptyString]
           end
  end.

Fixpoint lstrip (ch : ascii) (s : string) : string :=
  match s with
  | String c s' => if Ascii.eqb c ch then lstrip ch s' else s
  | EmptyString => EmptyString
  end.

Fixpoint rstrip (ch : ascii) (s : string) : string :=
  match s with
  | String c s' =>
      match rstrip ch s' with
      | EmptyString => if Ascii.eqb c ch then EmptyString
                       else String c EmptyString
      | r => String c r
      end
  | EmptyString => EmptyString
  end.

(** The double-quote character. *)
Definition dquote : ascii := "034"%char.

(** [s] between double quotes. *)
Definition quote (s : string) : string :=
  String dquote (s +:+ String dquote EmptyString).

(** [s.strip(ch)] *)
Definition strip (ch : ascii) (s : string) : string :=
  rstrip ch (lstrip ch s).

(** [s[a:b]] for [0 <= a <= b]; out-of-range bounds are clamped. *)
Definition slice (a b : nat) (s : string) : string :=
  String.substring a (b - a) s.

(** [l[i]] on a Python list or tuple. *)
Definition subscript {A} (l : list A) (i : nat) : result A :=
  match l !! i with
  | Some x => Ok x
  | None => Raise IndexError
  end.

End Text.

(** ** Python numbers *)

Module Num.

Inductive num : Type :=
| Fin (q : Q)
| PInf
| NInf
| NaN.

Definition of_Z (z : Z) : num := Fin (inject_Z z).

(** [a + b] *)
Definition add (a b : num) : num :=
  match a, b with
  | NaN, _ | _, NaN => NaN
  | PInf, NInf | NInf, PInf => NaN
  | PInf, _ | _, PInf => PInf
  | NInf, _ | _, NInf => NInf
  | Fin x, Fin y => Fin (Qred (x + y))
  end.

(** [a < b]; every comparison with [nan] is false. *)
Definition ltb (a b : num) : bool :=
  match a, b with
  | NaN, _ | _, NaN => false
  | _, NInf => false
  | NInf, _ => true
  | PInf, _ => false
  | Fin _, PInf => true
  | Fin x, Fin y => negb (Qle_bool y x)
  end.

(** [a > b] *)
Definition gtb (a b : num) : bool := ltb b a.

(** [a / n] for a float [a] and a positive count [n]. *)
Definition div_nat (a : num) (n : nat) : num :=
  match a with
  | Fin x => Fin (Qred (x / inject_Z (Z.of_nat n)))
  | other => other
  end.

Definition zero : num := of_Z 0.

End Num.
Export Num(num, Fin, PInf, NInf, NaN).

(** ** The builtins [int(str)] and [float(str)] *)

Module Builtins.
Import Text.

(** Underscores in a numeric literal are legal only between two
    digits; legal ones are dropped before the digits are read. *)
Fixpoint drop_underscores (prev_digit : bool) (s : string)
  : option string :=
  match s with
  | EmptyString => Some EmptyString
  | String c s' =>
      if Ascii.eqb c "_" then
        match s' with
        | String d _ =>
            if prev_digit && is_digit d then drop_underscores false s'
            else None
        | EmptyString => None
        end
      else
        match drop_underscores (is_digit c) s' with
        | Some r => Some (String c r)
        | None => None
        end
  end.

(** The longest run of digits at the head of [s], as (digits, rest). *)
Fixpoint span_digits (s : string) : string * string :=
  match s with
  | String c s' =>
      if is_digit c then
        let '(d, r) := span_digits s' in (String c d, r)
      else (EmptyString, s)
  | EmptyString => (EmptyString, EmptyString)
  end.

Fixpoint digits_value (acc : Z) (s : string) : Z :=
  match s with
  | String c s' => digits_value (10 * acc + digit_val c) s'
  | EmptyString => acc
  end.

(** An optional sign: (is_negative, rest). *)
Definition take_sign (s : string) : bool * string :=
  match s with
  | String "-" s' => (true, s')
  | String "+" s' => (false, s')
  | _ => (false, s)
  end.

(** [int(s)] in base 10 for a [str] without surrounding white space.
    The limit on the number of digits that Python 3.11 introduced (4300
    by default, above which [int] raises [ValueError]) is not modelled:
    the model is the builtin on strings of at most 4300 characters. *)
Definition py_int (s : string) : result Z :=
  match drop_underscores false s with
  | None => Raise ValueError
  | Some s1 =>
      let '(neg, s2) := take_sign s1 in
      let '(ds, rest) := span_digits s2 in
      match ds, rest with
      | String _ _, EmptyString =>
          let v := digits_value 0 ds in
          Ok (if neg then - v else v)
      | _, _ => Raise ValueError
      end
  end.

(** [m * 10**e] as an exact rational. *)
Definition scale10 (m e : Z) : Q :=
  if 0 <=? e then Qred (inject_Z (m * 10 ^ e))
  else Qred (Qmake m (Z.to_pos (10 ^ (- e)))).

(** The optional exponent part: [None] when malformed. *)
Definition exponent (s : string) : option Z :=
  match s with
  | EmptyString => Some 0
  | String c s' =>
      if Ascii.eqb (lower_char c) "e" then
        let '(neg, s2) := take_sign s' in
        let '(ds, rest) := span_digits s2 in
        match ds, rest with
        | String _ _, EmptyString =>
            let v := digits_value 0 ds in
            Some (if neg then - v else v)
        | _, _ => None
        end
      else None
  end.

(** [float(s)] for a [str] without surrounding white space: an optional
    sign and then [inf], [infinity], [nan] (any case) or a decimal
    literal with an optional fraction and exponent.  The result is the
    exact value of the literal; the float that the builtin returns is
    its rounding, [Binary64.py_float] below. *)
Definition py_float (s : string) : result num :=
  match drop_underscores false s with
  | None => Raise ValueError
  | Some s1 =>
      let '(neg, s2) := take_sign s1 in
      let low := lower s2 in
      if String.eqb low "inf" || String.eqb low "infinity" then
        Ok (if neg then NInf else PInf)
      else if String.eqb low "nan" then Ok NaN
      else
        let '(ip, r1) := span_digits s2 in
        let '(fp, r2) :=
          match r1 with
          | String "." r => span_digits r
          | _ => (EmptyString, r1)
          end in
        match (String.length ip + String.length fp)%nat, exponent r2 with
        | S _, Some e =>
            let m := digits_value 0 (ip +:+ fp) in
            let q := scale10 m (e - Z.of_nat (String.length fp)) in
            Ok (Fin (if neg then Qred (- q) else q))
        | _, _ => Raise ValueError
        end
  end.

End Builtins.

(** ** Regular expressions: greedy repetition with backtracking

    The fragment of [re] used by the log pattern: a sequence of literal
    characters and of greedy repetitions of a character class, some of
    them capturing.  [match_items] tries the longest repetition first and
    backs off one character at a time, as [re.match] does; the match is
    anchored at the start of the text only. *)

Module Regex.
Import Text.

Inductive cclass : Type :=
| NonSpace   (* \S *)
| Space      (* \s *)
| NotQuote.  (* any character but the double quote *)

Definition in_class (k : cclass) (c : ascii) : bool :=
  match k with
  | NonSpace => negb (is_space c)
  | Space => is_space c
  | NotQuote => negb (Ascii.eqb c dquote)
  end.

Inductive item : Type :=
| Lit (c : ascii)
| Rep (capture : bool) (min : nat) (k : cclass).

Fixpoint run_length (k : cclass) (s : list ascii) : nat :=
  match s with
  | c :: s' => if in_class k c then S (run_length k s') else O
  | [] => O
  end.

(** Try the continuation at lengths [n], [n-1], ..., [min]. *)
Fixpoint try_lengths {A} (n min : nat) (cont : nat → option A)
  : option A :=
  if (n <? min)%nat then None
  else match cont n with
       | Some r => Some r
       | None => match n with
                 | O => None
                 | S n' => try_lengths n' min cont
                 end
       end.

Fixpoint match_items (items : list item) (s : list ascii)
  : option (list string) :=
  match items with
  | [] => Some []
  | Lit c :: rest =>
      match s with
      | c' :: s' => if Ascii.eqb c c' then match_items rest s' else None
      | [] => None
      end
  | Rep capture min k :: rest =>
      try_lengths (run_length k s) min (fun n =>
        match match_items rest (drop n s) with
        | Some gs =>
            Some (if capture
                  then string_of_list_ascii (take n s) :: gs else gs)
        | None => None
        end)
  end.

(** [re.match(pattern, text)], returning [match.groups()]. *)
Definition re_match (pattern : list item) (text : string)
  : option (list string) :=
  match_items pattern (list_ascii_of_string text).

End Regex.

(** ** The line parser *)

Import Text Builtins Regex.

(** The dictionary built by [parse_log_line]. *)
Record log_entry : Type := LogEntry {
  timestamp : string;
  client_ip : string;
  target_ip : option string;
  request_processing_time : num;
  backend_processing_time : num;
  response_processing_time : num;
  elb_status_code : option Z;
  backend_status_code : option Z;
  received_bytes : Z;
  sent_bytes : Z;
  request : string;
  user_agent : string;
  ssl_cipher : string;
  ssl_protocol : string
}.

Definition field : list item := [Rep true 1 NonSpace; Rep false 1 Space].
Definition quoted : list item :=
  [Lit dquote; Rep true 0 NotQuote; Lit dquote; Rep false 1 Space].

(** The pattern of [parse_log_line]: twelve space-terminated fields
    [(\S+)\s+], two quoted fields followed by white space, and the two
    last fields [(\S+)\s+(\S+)]. *)
Definition elb_pattern : list item :=
  field ++ field ++ field ++ field ++ field ++ field ++
  field ++ field ++ field ++ field ++ field ++ field ++
  quoted ++ quoted ++
  [Rep true 1 NonSpace; Rep false 1 Space; Rep true 1 NonSpace].

Definition neq_str (a b : string) : bool := negb (String.eqb a b).

(** [float(g) if g != '-1' else -1] *)
Definition parse_latency (g : string) : result num :=
  if neq_str g "-1" then py_float g else Ok (Num.of_Z (-1)).

(** [int(g) if g != '-' else None] *)
Definition parse_status (g : string) : result (option Z) :=
  if neq_str g "-" then n ← py_int g; Ok (Some n) else Ok None.

(** [int(g) if g != '-' else 0] *)
Definition parse_bytes (g : string) : result Z :=
  if neq_str g "-" then py_int g else Ok 0.

(** [g.split(':')[0]] *)
Definition host_of (g : string) : result string :=
  subscript (split_on ":" g) 0.

(** The body of the [try] block. *)
Definition parse_log_line_body (line : string) : result (option log_entry) :=
  match re_match elb_pattern line with
  | None => Ok None
  | Some groups =>
      if (length groups <? 16)%nat then Ok None
      else
        g1 ← subscript groups 1;
        g3 ← subscript groups 3;
        client ← host_of g3;
        g4 ← subscript groups 4;
        target ← (if neq_str g4 "-"
                  then h ← host_of g4; Ok (Some h) else Ok None);
        g5 ← subscript groups 5;
        t_request ← parse_latency g5;
        g6 ← subscript groups 6;
        t_backend ← parse_latency g6;
        g7 ← subscript groups 7;
        t_response ← parse_latency g7;
        g8 ← subscript groups 8;
        elb_status ← parse_status g8;
        g9 ← subscript groups 9;
        backend_status ← parse_status g9;
        g10 ← subscript groups 10;
        received ← parse_bytes g10;
        g11 ← subscript groups 11;
        sent ← parse_bytes g11;
        g12 ← subscript groups 12;
        g13 ← subscript groups 13;
        g14 ← subscript groups 14;
        g15 ← subscript groups 15;
        Ok (Some {|
          timestamp := g1;
          client_ip := client;
          target_ip := target;
          request_processing_time := t_request;
          backend_processing_time := t_backend;
          response_processing_time := t_response;
          elb_status_code := elb_status;
          backend_status_code := backend_status;
          received_bytes := received;
          sent_bytes := sent;
          request := g12;
          user_agent := g13;
          ssl_cipher := if neq_str g14 "-" then g14 else "";
          ssl_protocol := if neq_str g15 "-" then g15 else ""
        |})
  end.

(** [except (ValueError, IndexError, AttributeError): return None] *)
Definition parse_log_line (line : string) : result (option log_entry) :=
  match parse_log_line_body line with
  | Raise ValueError | Raise IndexError | Raise AttributeError => Ok None
  | r => r
  end.

(** ** The classifier *)

(** [self.checkout_patterns] *)
Definition checkout_patterns : list string :=
  [ "/cart/"; "/shopping-cart/"; "/basket/"; "/bag/"; "checkout/cart";
    "cart/add"; "cart/update"; "cart/remove";
    "/checkout/"; "checkout/"; "onepage"; "guest-checkout";
    "checkout/onepage"; "checkout/success"; "checkout/complete";
    "checkout/review"; "checkout/billing"; "checkout/shipping";
    "checkout/payment";
    "/payment/"; "/pay/"; "paypal"; "stripe"; "amazon-pay"; "amazonpay";
    "apple-pay"; "applepay"; "google-pay"; "googlepay"; "klarna";
    "afterpay"; "affirm"; "/billing/"; "credit-card"; "creditcard";
    "/order/"; "/orders/"; "order/success"; "order/complete";
    "order/confirmation"; "order-confirmation"; "checkout/success";
    "thank-you"; "thankyou"; "receipt"; "order-receipt" ].

(** [self.bot_patterns] *)
Definition bot_patterns : list string :=
  [ "bot"; "crawler"; "spider"; "scraper"; "curl"; "wget"; "python";
    "java"; "http_request"; "postman"; "insomnia"; "user-agent"; "test";
    "monitor"; "uptime"; "pingdom"; "datadog"; "newrelic"; "googlebot";
    "bingbot"; "facebookexternalhit"; "twitterbot"; "linkedinbot";
    "whatsapp"; "telegram" ].

(** [self.mobile_patterns] *)
Definition mobile_patterns : list string :=
  [ "mobile"; "android"; "iphone"; "ipad"; "tablet"; "phone" ].

(** [regex.search(text)] for a regex that is a case-insensitive
    alternation of literal words: every pattern above is made of
    lower-case letters, [/], [-] and [_] only, so a word matches at a
    position exactly when it is a prefix of the lower-cased text there.
    (Beyond code point 255 the regex matches more than that: under
    [re.IGNORECASE] the letters s, i and k are also matched by U+017F,
    U+0130, U+0131 and U+212A.) *)
Definition search_any (words : list string) (text : string) : bool :=
  any_in words (lower text).

Definition is_checkout_related (url : string) : bool :=
  search_any checkout_patterns url.

Definition is_bot_traffic (user_agent : string) : bool :=
  search_any bot_patterns user_agent.

Definition is_mobile_traffic (user_agent : string) : bool :=
  search_any mobile_patterns user_agent.

Definition get_pattern_category (url : string) : string :=
  let url_lower := lower url in
  if any_in ["/cart/"; "cart/add"; "cart/update"; "cart/remove";
             "/basket/"; "/bag/"] url_lower
  then "Shopping Cart"
  else if any_in ["paypal"; "stripe"; "amazon-pay"; "apple-pay";
                  "google-pay"; "klarna"; "afterpay"; "affirm";
                  "/payment/"; "/pay/"; "/billing/"; "credit-card"]
            url_lower
  then "Payment Processing"
  else if any_in ["/order/"; "/orders/"; "order/success"; "order/complete";
                  "checkout/success"; "thank-you"; "thankyou"; "receipt";
                  "confirmation"] url_lower
  then "Order Completion"
  else if any_in ["/checkout/"; "checkout/"; "onepage"; "guest-checkout"]
            url_lower
  then "Checkout Process"
  else "Other Checkout".

Definition categorize_checkout_stage (url : string) : string :=
  let url_lower := lower url in
  if any_in ["cart"; "basket"; "bag"; "shopping-cart"] url_lower
  then "Cart Operations"
  else if any_in ["checkout/start"; "checkout/begin"; "checkout/init"]
            url_lower
  then "Checkout Initiation"
  else if any_in ["shipping"; "delivery"; "address"] url_lower
  then "Shipping/Address"
  else if any_in ["payment"; "pay"; "billing"; "paypal"; "stripe"; "credit"]
            url_lower
  then "Payment Processing"
  else if any_in ["success"; "complete"; "confirmation"; "receipt"; "thank"]
            url_lower
  then "Order Completion"
  else if any_in ["login"; "register"; "account"; "signup"] url_lower
  then "Account/Authentication"
  else if contains "checkout" url_lower
  then "General Checkout"
  else "Other E-commerce".

(** ** The ingestion loop of [analyze_logs] *)

(** A checkout request: the parsed entry with the keys [analyze_logs]
    adds to it.  (The source adds the keys to the dictionary that is
    already in [all_requests]; the reports read only [timestamp] from
    that list, so the sharing is not observable in the tables below.) *)
Record checkout_entry : Type := CheckoutEntry {
  entry : log_entry;
  url : string;
  checkout_stage : string;
  pattern_category : string;
  is_bot : bool;
  is_mobile : bool
}.

(** The lists and counters of [analyze_logs]. *)
Record analysis : Type := Analysis {
  total_lines : nat;
  parsed_lines : nat;
  all_requests : list log_entry;
  checkout_requests : list checkout_entry;
  checkout_errors : list checkout_entry
}.

Definition empty_analysis : analysis :=
  {| total_lines := 0; parsed_lines := 0; all_requests := [];
     checkout_requests := []; checkout_errors := [] |}.

(** [log_entry and log_entry.get('backend_status_code')]: the status is
    present and not zero. *)
Definition analyzable (o : option log_entry) : option (log_entry * Z) :=
  match o with
  | Some e =>
      match backend_status_code e with
      | Some code => if code =? 0 then None else Some (e, code)
      | None => None
      end
  | None => None
  end.

(** [request_parts = request.split(' ')] and, when there are two parts
    or more, the second part with the double quotes stripped from both
    ends. *)
Definition request_url (req : string) : option string :=
  let request_parts := split_on " " req in
  if (2 <=? length request_parts)%nat
  then Some (strip dquote (nth 1 request_parts EmptyString))
  else None.

Definition classify (e : log_entry) (u : string) : checkout_entry :=
  {| entry := e;
     url := u;
     checkout_stage := categorize_checkout_stage u;
     pattern_category := get_pattern_category u;
     is_bot := is_bot_traffic (user_agent e);
     is_mobile := is_mobile_traffic (user_agent e) |}.

Definition count_line (st : analysis) : analysis :=
  {| total_lines := S (total_lines st);
     parsed_lines := parsed_lines st;
     all_requests := all_requests st;
     checkout_requests := checkout_requests st;
     checkout_errors := checkout_errors st |}.

(** [parsed_lines += 1; all_requests.append(log_entry)] *)
Definition add_request (e : log_entry) (st : analysis) : analysis :=
  {| total_lines := total_lines st;
     parsed_lines := S (parsed_lines st);
     all_requests := all_requests st ++ [e];
     checkout_requests := checkout_requests st;
     checkout_errors := checkout_errors st |}.

(** [checkout_requests.append(log_entry)] *)
Definition add_checkout (c : checkout_entry) (st : analysis) : analysis :=
  {| total_lines := total_lines st;
     parsed_lines := parsed_lines st;
     all_requests := all_requests st;
     checkout_requests := checkout_requests st ++ [c];
     checkout_errors := checkout_errors st |}.

(** [checkout_errors.append(log_entry)] *)
Definition add_error (c : checkout_entry) (st : analysis) : analysis :=
  {| total_lines := total_lines st;
     parsed_lines := parsed_lines st;
     all_requests := all_requests st;
     checkout_requests := checkout_requests st;
     checkout_errors := checkout_errors st ++ [c] |}.

(** The body of the loop over the lines, after [parse_log_line]. *)
Definition record_entry (st : analysis) (o : option log_entry) : analysis :=
  let st := count_line st in
  match analyzable o with
  | None => st
  | Some (e, status_code) =>
      let st := add_request e st in
      match request_url (request e) with
      | None => st
      | Some u =>
          if is_checkout_related u then
            let c := classify e u in
            let st := add_checkout c st in
            if 500 <=? status_code then add_error c st else st
          else st
      end
  end.

Definition ingest (st : analysis) (line : string) : result analysis :=
  log_entry ← parse_log_line line;
  Ok (record_entry st log_entry).

Fixpoint ingest_all (st : analysis) (lines : list string) : result analysis :=
  match lines with
  | [] => Ok st
  | line :: rest => st' ← ingest st line; ingest_all st' rest
  end.

(** The lines of all the log files, in file order then line order. *)
Definition analyze_logs (lines : list string) : result analysis :=
  ingest_all empty_analysis lines.

(** ** Counting tables

    [d[key(x)] = update(x, d[key(x)])] for every [x] of a list, on a
    [defaultdict] whose missing entries read as [zero]. *)

Section Tally.
Context {A V : Type} `{Countable K}.
Variable update : A → V → V.
Variable zero : V.
Variable key : A → K.

Definition tally_step (m : gmap K V) (x : A) : gmap K V :=
  <[key x := update x (default zero (m !! key x))]> m.

Definition tally (l : list A) (m : gmap K V) : gmap K V :=
  foldl tally_step m l.
End Tally.

(** [d[k] += 1] on a counter. *)
Definition incr {A} (_ : A) (n : nat) : nat := S n.

(** [a / b] on two [int]s. *)
Definition py_truediv (a b : nat) : result Q :=
  match b with
  | O => Raise ZeroDivisionError
  | S _ => Ok (Qred (Z.of_nat a # Pos.of_nat b))
  end.

(** [q * 100] *)
Definition times100 (q : Q) : Q := Qred (q * 100).

(** ** [analyze_overall_summary] *)

Record overall_summary : Type := OverallSummary {
  total_requests : nat;
  total_checkout_requests : nat;
  total_checkout_errors : nat;
  checkout_error_rate : Q;
  checkout_traffic_pct : Q
}.

Definition analyze_overall_summary (st : analysis) : result overall_summary :=
  let total_requests := length (all_requests st) in
  let total_checkout_requests := length (checkout_requests st) in
  let total_checkout_errors := length (checkout_errors st) in
  rates ←
    (if (0 <? total_checkout_requests)%nat then
       q ← py_truediv total_checkout_errors total_checkout_requests;
       pct ← (if (0 <? total_requests)%nat
              then p ← py_truediv total_checkout_requests total_requests;
                   Ok (times100 p)
              else Ok 0%Q);
       Ok (times100 q, pct)
     else Ok (0%Q, 0%Q));
  Ok {| total_requests := total_requests;
        total_checkout_requests := total_checkout_requests;
        total_checkout_errors := total_checkout_errors;
        checkout_error_rate := rates.1;
        checkout_traffic_pct := rates.2 |}.

(** ** [analyze_pattern_breakdown] and [analyze_checkout_funnel] *)

(** [{'requests': 0, 'errors': 0, 'urls': defaultdict(int)}] *)
Record funnel_entry : Type := FunnelEntry {
  requests : nat;
  funnel_errors : nat;
  urls : gmap string nat
}.

Definition funnel_zero : funnel_entry :=
  {| requests := 0; funnel_errors := 0; urls := ∅ |}.

(** [u.split('?')[0]] *)
Definition clean_url (u : string) : string :=
  match split_on "?" u with
  | h :: _ => h
  | [] => EmptyString
  end.

Definition count_request (_ : checkout_entry) (s : funnel_entry)
  : funnel_entry :=
  {| requests := S (requests s); funnel_errors := funnel_errors s;
     urls := urls s |}.

Definition count_error (c : checkout_entry) (s : funnel_entry)
  : funnel_entry :=
  {| requests := requests s; funnel_errors := S (funnel_errors s);
     urls := tally incr 0%nat clean_url [url c] (urls s) |}.

(** The dictionary [funnel_stats] of [analyze_pattern_breakdown]. *)
Definition pattern_stats (st : analysis) : gmap string funnel_entry :=
  tally count_error funnel_zero pattern_category (checkout_errors st)
    (tally count_request funnel_zero pattern_category
       (checkout_requests st) ∅).

Inductive severity : Type := CRITICAL | HIGH | MEDIUM | GOOD | LOW.

(** The thresholds 1.0, 0.6 and 0.3 of the pattern breakdown. *)
Definition pattern_status (error_rate : Q) : severity :=
  if Qlt_le_dec 1 error_rate then CRITICAL
  else if Qlt_le_dec (6 # 10) error_rate then HIGH
  else if Qlt_le_dec (3 # 10) error_rate then MEDIUM
  else GOOD.

(** One pass of the reporting loop of [analyze_pattern_breakdown]:
    [None] is the [continue] taken when the stage has no request. *)
Definition pattern_row (stats : funnel_entry)
  : option (result (Q * severity)) :=
  if (requests stats =? 0)%nat then None
  else Some (q ← py_truediv (funnel_errors stats) (requests stats);
             let error_rate := times100 q in
             Ok (error_rate, pattern_status error_rate)).

(** The rows of [analyze_pattern_breakdown], by category.  (The order
    of the rows, by decreasing error count, is not modelled.) *)
Definition analyze_pattern_breakdown (st : analysis)
  : gmap string (result (Q * severity)) :=
  omap pattern_row (pattern_stats st).

(** [{'requests': 0, 'errors': 0}] *)
Record stage_entry : Type := StageEntry {
  stage_requests : nat;
  stage_errors : nat
}.

Definition stage_zero : stage_entry :=
  {| stage_requests := 0; stage_errors := 0 |}.

(** The dictionary [funnel_stats] of [analyze_checkout_funnel]. *)
Definition stage_stats (st : analysis) : gmap string stage_entry :=
  tally (fun _ s => {| stage_requests := stage_requests s;
                       stage_errors := S (stage_errors s) |})
    stage_zero checkout_stage (checkout_errors st)
    (tally (fun _ s => {| stage_requests := S (stage_requests s);
                          stage_errors := stage_errors s |})
       stage_zero checkout_stage (checkout_requests st) ∅).

(** [errors / requests * 100 if requests > 0 else 0] *)
Definition guarded_rate (errors requests : nat) : result Q :=
  if (0 <? requests)%nat
  then q ← py_truediv errors requests; Ok (times100 q)
  else Ok 0%Q.

Definition stage_row (stats : stage_entry) : result Q :=
  guarded_rate (stage_errors stats) (stage_requests stats).

(** ** [analyze_daily_trends] and [analyze_hourly_patterns] *)

(** [{'total': 0, 'checkout': 0, 'errors': 0}] *)
Record bucket : Type := Bucket {
  total : nat;
  checkout : nat;
  errors : nat
}.

Definition bucket_zero : bucket := {| total := 0; checkout := 0; errors := 0 |}.

Definition incr_total {A} (_ : A) (b : bucket) : bucket :=
  {| total := S (total b); checkout := checkout b; errors := errors b |}.
Definition incr_checkout {A} (_ : A) (b : bucket) : bucket :=
  {| total := total b; checkout := S (checkout b); errors := errors b |}.
Definition incr_errors {A} (_ : A) (b : bucket) : bucket :=
  {| total := total b; checkout := checkout b; errors := S (errors b) |}.

(** [timestamp[:10]] and [timestamp[11:13]] *)
Definition date_of (e : log_entry) : string := slice 0 10 (timestamp e).
Definition hour_of (e : log_entry) : string := slice 11 13 (timestamp e).

(** The three counting loops shared by the daily and hourly reports. *)
Definition bucket_stats (key : log_entry → string) (st : analysis)
  : gmap string bucket :=
  tally incr_errors bucket_zero (key ∘ entry) (checkout_errors st)
    (tally incr_checkout bucket_zero (key ∘ entry) (checkout_requests st)
       (tally incr_total bucket_zero key (all_requests st) ∅)).

Definition daily_stats : analysis → gmap string bucket := bucket_stats date_of.
Definition hourly_stats : analysis → gmap string bucket := bucket_stats hour_of.

Definition str_le (a b : string) : Prop := String.leb a b = true.

#[global] Instance str_le_dec (a b : string) : Decision (str_le a b).
Proof. unfold str_le. apply _. Defined.

#[global] Instance str_le_total : Total str_le.
Proof. intros a b. apply String.leb_total. Qed.

(** [sorted(d.keys())] *)
Definition sorted_keys {V} (d : gmap string V) : list string :=
  merge_sort str_le (map_to_list d).*1.

(** The trend column: empty on the first day, then the comparison of
    the day's error rate with the previous one. *)
Inductive trend : Type := NoTrend | WORSE | BETTER | STABLE.

Definition trend_of (prev_error_rate : option Q) (error_rate : Q) : trend :=
  match prev_error_rate with
  | None => NoTrend
  | Some prev =>
      if Qlt_le_dec (prev + (1 # 2)) error_rate then WORSE
      else if Qlt_le_dec error_rate (prev - (1 # 2)) then BETTER
      else STABLE
  end.

Record daily_row : Type := DailyRow {
  row_date : string;
  row_stats : bucket;
  row_error_rate : Q;
  row_trend : trend
}.

(** The reporting loop of [analyze_daily_trends] over the sorted dates. *)
Fixpoint daily_rows (daily : gmap string bucket) (prev_error_rate : option Q)
    (dates : list string) : result (list daily_row) :=
  match dates with
  | [] => Ok []
  | date :: rest =>
      let stats := default bucket_zero (daily !! date) in
      error_rate ← guarded_rate (errors stats) (checkout stats);
      let row := {| row_date := date; row_stats := stats;
                    row_error_rate := error_rate;
                    row_trend := trend_of prev_error_rate error_rate |} in
      rows ← daily_rows daily (Some error_rate) rest;
      Ok (row :: rows)
  end.

Definition analyze_daily_trends (st : analysis) : result (list daily_row) :=
  let daily := daily_stats st in
  daily_rows daily None (sorted_keys daily).

Record hourly_row : Type := HourlyRow {
  row_hour : string;
  avg_total : Q;
  avg_checkout : Q;
  avg_errors : Q;
  hour_error_rate : Q;
  hour_status : severity
}.

(** [n / total_days if total_days > 0 else 0] *)
Definition guarded_avg (n total_days : nat) : result Q :=
  if (0 <? total_days)%nat then py_truediv n total_days else Ok 0%Q.

(** The thresholds 5 and 2 of the hourly report. *)
Definition hourly_status (error_rate : Q) : severity :=
  if Qlt_le_dec 5 error_rate then HIGH
  else if Qlt_le_dec 2 error_rate then MEDIUM
  else LOW.

Definition hourly_row_of (total_days : nat) (hour : string) (stats : bucket)
  : result hourly_row :=
  a_total ← guarded_avg (total stats) total_days;
  a_checkout ← guarded_avg (checkout stats) total_days;
  a_errors ← guarded_avg (errors stats) total_days;
  error_rate ← guarded_rate (errors stats) (checkout stats);
  Ok {| row_hour := hour; avg_total := a_total; avg_checkout := a_checkout;
        avg_errors := a_errors; hour_error_rate := error_rate;
        hour_status := hourly_status error_rate |}.

(** [len(set(r['timestamp'][:10] for r in self.all_requests))] *)
Definition total_days (st : analysis) : nat :=
  size (list_to_set (C := gset string) (date_of <$> all_requests st)).

Definition analyze_hourly_patterns (st : analysis) : result (list hourly_row) :=
  let hourly := hourly_stats st in
  mapM (fun hour =>
          hourly_row_of (total_days st) hour
            (default bucket_zero (hourly !! hour)))
       (sorted_keys hourly).

(** ** [analyze_error_types] *)

(** [error['backend_status_code']]; a checkout entry always carries one. *)
Definition status_of (c : checkout_entry) : Z :=
  default 0 (backend_status_code (entry c)).

(** The counter [status_code_errors]. *)
Definition status_code_errors (st : analysis) : gmap Z nat :=
  tally incr 0%nat status_of (checkout_errors st) ∅.

(** The nested dictionary [stage_errors]: stage, then status code. *)
Definition stage_errors_by_code (st : analysis) : gmap string (gmap Z nat) :=
  tally (fun c codes => tally incr 0%nat status_of [c] codes) ∅
    checkout_stage (checkout_errors st) ∅.

(** ** [analyze_performance_correlation] *)

Definition total_time (req : checkout_entry) : num :=
  Num.add (Num.add (request_processing_time (entry req))
                   (backend_processing_time (entry req)))
          (response_processing_time (entry req)).

(** The loop that fills [success_times] and [error_times]:
    [if total_time > 0: times.append(total_time)]. *)
Definition collect_times (reqs : list checkout_entry) : list num :=
  foldl (fun times req =>
           let t := total_time req in
           if Num.gtb t Num.zero then times ++ [t] else times)
        [] reqs.

(** [sum(l)] *)
Definition py_sum (l : list num) : num := foldl Num.add Num.zero l.

(** [max(l)] on a non-empty list: the first maximal element. *)
Definition py_max (first : num) (rest : list num) : num :=
  foldl (fun m x => if Num.gtb x m then x else m) first rest.

Record latency_summary : Type := LatencySummary {
  samples : list num;
  average : option num;
  maximum : option num
}.

Definition summarize (times : list num) : latency_summary :=
  match times with
  | [] => {| samples := times; average := None; maximum := None |}
  | t :: rest =>
      {| samples := times;
         average := Some (Num.div_nat (py_sum times) (length times));
         maximum := Some (py_max t rest) |}
  end.

(** [r['backend_status_code'] < 400] *)
Definition is_successful (c : checkout_entry) : bool := status_of c <? 400.

Definition successful_requests (st : analysis) : list checkout_entry :=
  filter (fun c => is_successful c = true) (checkout_requests st).

Definition success_times (st : analysis) : list num :=
  collect_times (successful_requests st).

Definition error_times (st : analysis) : list num :=
  collect_times (checkout_errors st).

Record performance : Type := Performance {
  success : option latency_summary;
  error : option latency_summary
}.

(** [None] is the early return on an empty [checkout_requests]; a
    summary is absent when its request list is empty. *)
Definition analyze_performance_correlation (st : analysis)
  : option performance :=
  match checkout_requests st with
  | [] => None
  | _ =>
      Some {| success := match successful_requests st with
                         | [] => None
                         | _ => Some (summarize (success_times st))
                         end;
              error := match checkout_errors st with
                       | [] => None
                       | _ => Some (summarize (error_times st))
                       end |}
  end.

(** ** The floats of the reports, bit for bit

    The definitions above compute with the exact values of the numbers.
    The module below carries out the same computations on IEEE 754
    binary64 numbers, as the interpreter does: every sum, difference,
    product and quotient is rounded to the nearest float, ties to even.
    It is built on the Standard Library's [spec_float] and serves the
    properties that depend on the rounding: which latencies are
    sampled, and which trend label a day gets. *)

Module Binary64.
Import SpecFloat.

(** A Python [float]: a binary64 number, with 53 bits of precision and
    exponents below 1024. *)
Definition float : Type := spec_float.
Definition prec : Z := 53.
Definition emax : Z := 1024.

(** [a + b], [a - b], [a * b], [a < b] and [a > b] on floats *)
Definition add (a b : float) : float := SFadd prec emax a b.
Definition sub (a b : float) : float := SFsub prec emax a b.
Definition mul (a b : float) : float := SFmul prec emax a b.
Definition ltb (a b : float) : bool := SFltb a b.
Definition gtb (a b : float) : bool := SFltb b a.


(** The float nearest to the fraction [n / d], an infinity when that is
    out of range.  Both [int / int] and [float(str)] round the exact
    value of their result in this way. *)
Definition of_ratio (n : Z) (d : positive) : float :=
  match n with
  | Z0 => S754_zero false
  | Zpos p => SFdiv prec emax (S754_finite false p 0) (S754_finite false d 0)
  | Zneg p => SFdiv prec emax (S754_finite true p 0) (S754_finite false d 0)
  end.

(** The float of an [int] that meets a float in a sum, a product or a
    comparison: [0], [-1] and [100] in the source. *)
Definition of_Z (z : Z) : float := binary_normalize prec emax z 0 false.

(** The float that the source holds where the exact model holds the
    number [x]: the field of a record read by [float(str)], or the
    sentinel [-1].  A zero is given the positive sign, where
    [float('-0.0')] has the negative one; the two zeros are equal in
    every comparison and add to any other number alike, so that no
    sample and no label depends on the sign. *)
Definition of_num (x : num) : float :=
  match x with
  | Fin q => of_ratio (Qnum q) (Qden q)
  | PInf => S754_infinity false
  | NInf => S754_infinity true
  | NaN => S754_nan
  end.

(** [float(s)] *)
Definition py_float (s : string) : result float :=
  x ← Builtins.py_float s; Ok (of_num x).

Definition zero : float := of_Z 0.

(** The literal [0.5] *)
Definition half : float := of_ratio 1 2.

(** [a / b] on two [int]s: the nearest float, [OverflowError] when it is
    out of range. *)
Definition py_truediv (a b : nat) : result float :=
  match b with
  | O => Raise ZeroDivisionError
  | S _ =>
      match of_ratio (Z.of_nat a) (Pos.of_nat b) with
      | S754_infinity _ => Raise OverflowError
      | q => Ok q
      end
  end.

(** [errors / requests * 100 if requests > 0 else 0] *)
Definition guarded_rate (errors requests : nat) : result float :=
  if (0 <? requests)%nat
  then q ← py_truediv errors requests; Ok (mul q (of_Z 100))
  else Ok (of_Z 0).

(** The trend column of [analyze_daily_trends]:
    [error_rate > prev_error_rate + 0.5], then
    [error_rate < prev_error_rate - 0.5]. *)
Definition trend_of (prev_error_rate : option float) (error_rate : float)
  : trend :=
  match prev_error_rate with
  | None => NoTrend
  | Some prev =>
      if gtb error_rate (add prev half) then WORSE
      else if ltb error_rate (sub prev half) then BETTER
      else STABLE
  end.

Record daily_row : Type := DailyRow {
  row_date : string;
  row_stats : bucket;
  row_error_rate : float;
  row_trend : trend
}.

(** The reporting loop of [analyze_daily_trends] over the sorted dates. *)
Fixpoint daily_rows (daily : gmap string bucket)
    (prev_error_rate : option float) (dates : list string)
  : result (list daily_row) :=
  match dates with
  | [] => Ok []
  | date :: rest =>
      let stats := default bucket_zero (daily !! date) in
      error_rate ← guarded_rate (errors stats) (checkout stats);
      let row := {| row_date := date; row_stats := stats;
                    row_error_rate := error_rate;
                    row_trend := trend_of prev_error_rate error_rate |} in
      rows ← daily_rows daily (Some error_rate) rest;
      Ok (row :: rows)
  end.

Definition analyze_daily_trends (st : analysis) : result (list daily_row) :=
  let daily := daily_stats st in
  daily_rows daily None (sorted_keys daily).

(** [req['request_processing_time'] + req['backend_processing_time']
     + req['response_processing_time']], added from left to right. *)
Definition total_time (req : checkout_entry) : float :=
  add (add (of_num (request_processing_time (entry req)))
           (of_num (backend_processing_time (entry req))))
      (of_num (response_processing_time (entry req))).

(** The loop that fills [success_times] and [error_times]:
    [if total_time > 0: times.append(total_time)]. *)
Definition collect_times (reqs : list checkout_entry) : list float :=
  foldl (fun times req =>
           let t := total_time req in
           if gtb t zero then times ++ [t] else times)
        [] reqs.

Definition success_times (st : analysis) : list float :=
  collect_times (successful_requests st).

Definition error_times (st : analysis) : list float :=
  collect_times (checkout_errors st).

End Binary64.

(** ** The aggregate tables as one state *)

Record AggregateState : Type := Aggregate {
  agg_total_requests : nat;
  agg_checkout_requests : nat;
  agg_checkout_errors : nat;
  byDate : gmap string bucket;
  byHour : gmap string bucket;
  byFunnelStage : gmap string stage_entry;
  byPatternCategory : gmap string funnel_entry;
  byStatusCode : gmap Z nat;
  byStageAndStatus : gmap string (gmap Z nat);
  successLatencies : list num;
  errorLatencies : list num
}.

Definition aggregate_of (st : analysis) : AggregateState :=
  {| agg_total_requests := length (all_requests st);
     agg_checkout_requests := length (checkout_requests st);
     agg_checkout_errors := length (checkout_errors st);
     byDate := daily_stats st;
     byHour := hourly_stats st;
     byFunnelStage := stage_stats st;
     byPatternCategory := pattern_stats st;
     byStatusCode := status_code_errors st;
     byStageAndStatus := stage_errors_by_code st;
     successLatencies := success_times st;
     errorLatencies := error_times st |}.

(** The engine: one pass over the lines, then the tables. *)
Definition run_engine (lines : list string) : result AggregateState :=
  st ← analyze_logs lines; Ok (aggregate_of st).

(** Key-wise sum of two counting tables. *)
Definition sum_maps {K} `{Countable K} {V} (add : V → V → V)
    (m1 m2 : gmap K V) : gmap K V :=
  union_with (fun a b => Some (add a b)) m1 m2.

Definition add_bucket (a b : bucket) : bucket :=
  {| total := total a + total b; checkout := checkout a + checkout b;
     errors := errors a + errors b |}%nat.

Definition add_stage (a b : stage_entry) : stage_entry :=
  {| stage_requests := stage_requests a + stage_requests b;
     stage_errors := stage_errors a + stage_errors b |}%nat.

Definition add_funnel (a b : funnel_entry) : funnel_entry :=
  {| requests := requests a + requests b;
     funnel_errors := funnel_errors a + funnel_errors b;
     urls := sum_maps Nat.add (urls a) (urls b) |}%nat.

(** Modelled from the spec: the merge of two aggregate states, which the
    source (a single pass over all the lines) does not have.  The spec
    words it as summing counters, here key by key in every table, and
    concatenating the latency sample sequences. *)
Definition merge_states (s1 s2 : AggregateState) : AggregateState :=
  {| agg_total_requests := agg_total_requests s1 + agg_total_requests s2;
     agg_checkout_requests :=
       agg_checkout_requests s1 + agg_checkout_requests s2;
     agg_checkout_errors := agg_checkout_errors s1 + agg_checkout_errors s2;
     byDate := sum_maps add_bucket (byDate s1) (byDate s2);
     byHour := sum_maps add_bucket (byHour s1) (byHour s2);
     byFunnelStage := sum_maps add_stage (byFunnelStage s1) (byFunnelStage s2);
     byPatternCategory :=
       sum_maps add_funnel (byPatternCategory s1) (byPatternCategory s2);
     byStatusCode := sum_maps Nat.add (byStatusCode s1) (byStatusCode s2);
     byStageAndStatus :=
       sum_maps (sum_maps Nat.add) (byStageAndStatus s1) (byStageAndStatus s2);
     successLatencies := successLatencies s1 ++ successLatencies s2;
     errorLatencies := errorLatencies s1 ++ errorLatencies s2 |}%nat.

(** ** Definitions that follow the specification's words

    They are compared below with the definitions read off the source. *)

(** An ordered chain of substring tests in which the first matching
    category wins, with a fallback label. *)
Definition first_match (chain : list (list string * string))
    (fallback : string) (text : string) : string :=
  match List.find (fun test => any_in test.1 text) chain with
  | Some test => test.2
  | None => fallback
  end.

(** Cart, then checkout initiation, shipping, payment, completion,
    account, and the generic checkout test. *)
Definition funnel_stage_chain : list (list string * string) :=
  [ (["cart"; "basket"; "bag"; "shopping-cart"], "Cart Operations");
    (["checkout/start"; "checkout/begin"; "checkout/init"],
     "Checkout Initiation");
    (["shipping"; "delivery"; "address"], "Shipping/Address");
    (["payment"; "pay"; "billing"; "paypal"; "stripe"; "credit"],
     "Payment Processing");
    (["success"; "complete"; "confirmation"; "receipt"; "thank"],
     "Order Completion");
    (["login"; "register"; "account"; "signup"], "Account/Authentication");
    (["checkout"], "General Checkout") ].

Definition pattern_category_chain : list (list string * string) :=
  [ (["/cart/"; "cart/add"; "cart/update"; "cart/remove"; "/basket/";
      "/bag/"], "Shopping Cart");
    (["paypal"; "stripe"; "amazon-pay"; "apple-pay"; "google-pay";
      "klarna"; "afterpay"; "affirm"; "/payment/"; "/pay/"; "/billing/";
      "credit-card"], "Payment Processing");
    (["/order/"; "/orders/"; "order/success"; "order/complete";
      "checkout/success"; "thank-you"; "thankyou"; "receipt";
      "confirmation"], "Order Completion");
    (["/checkout/"; "checkout/"; "onepage"; "guest-checkout"],
     "Checkout Process") ].

(** The number of white-space separated fields of a line, as counted
    by [len(line.split())]; a quoted field counts once for each of its
    words. *)
Fixpoint count_fields_from (in_field : bool) (s : list ascii) : nat :=
  match s with
  | [] => 0
  | c :: s' =>
      if is_space c then count_fields_from false s'
      else ((if in_field then 0 else 1) + count_fields_from true s')%nat
  end.

Definition count_fields (line : string) : nat :=
  count_fields_from false (list_ascii_of_string line).

(** The shape a pattern describes: the text starts with one segment
    per pattern item, a literal character or a run of the class of at
    least the minimal length. *)
Inductive matches : list item → list ascii → Prop :=
| matches_nil s : matches [] s
| matches_lit c rest s :
    matches rest s → matches (Lit c :: rest) (c :: s)
| matches_rep capture min k rest seg s :
    (min ≤ length seg)%nat →
    Forall (fun c => in_class k c = true) seg →
    matches rest s →
    matches (Rep capture min k :: rest) (seg ++ s).

(** The 16-field shape of a log line. *)
Definition has_log_shape (line : string) : Prop :=
  matches elb_pattern (list_ascii_of_string line).

(** A required numeric field holds a value that is neither its sentinel
    nor a number: groups 5 to 7 are the latencies (sentinel [-1], read
    by [float]), groups 8 to 11 the status codes and byte counts
    (sentinel [-], read by [int]). *)
Definition bad_numeric_field (groups : list string) : Prop :=
  ∃ (i : nat) (g : string), groups !! i = Some g ∧
    (((5 ≤ i ≤ 7)%nat ∧ g ≠ "-1" ∧ py_float g = Raise ValueError)
     ∨ ((8 ≤ i ≤ 11)%nat ∧ g ≠ "-" ∧ py_int g = Raise ValueError)).

(** The host of a [host:port] field when the field is split on its LAST
    colon, as the specification words it: [g.rsplit(':', 1)[0]]. *)
Definition host_before_last_colon (g : string) : string :=
  match split_on ":" g with
  | [] | [_] => g
  | parts => String.concat ":" (removelast parts)
  end.

(** ** Auxiliary definitions of the statements *)

(** What a successfully parsed record says about the groups of the
    match it was built from. *)
Definition parsed_from (groups : list string) (r : log_entry) : Prop :=
  groups !! 1%nat = Some (timestamp r)
  ∧ (∃ g, groups !! 3%nat = Some g ∧ host_of g = Ok (client_ip r))
  ∧ (∃ g, groups !! 4%nat = Some g
          ∧ (if neq_str g "-" then h ← host_of g; Ok (Some h) else Ok None)
            = Ok (target_ip r))
  ∧ (∃ g, groups !! 5%nat = Some g
          ∧ parse_latency g = Ok (request_processing_time r))
  ∧ (∃ g, groups !! 6%nat = Some g
          ∧ parse_latency g = Ok (backend_processing_time r))
  ∧ (∃ g, groups !! 7%nat = Some g
          ∧ parse_latency g = Ok (response_processing_time r))
  ∧ (∃ g, groups !! 8%nat = Some g
          ∧ parse_status g = Ok (elb_status_code r))
  ∧ (∃ g, groups !! 9%nat = Some g
          ∧ parse_status g = Ok (backend_status_code r))
  ∧ (∃ g, groups !! 10%nat = Some g ∧ parse_bytes g = Ok (received_bytes r))
  ∧ (∃ g, groups !! 11%nat = Some g ∧ parse_bytes g = Ok (sent_bytes r))
  ∧ groups !! 12%nat = Some (request r)
  ∧ groups !! 13%nat = Some (user_agent r).

(** The exception classes named by the [except] clause of the parser. *)
Definition caught (e : exn) : Prop :=
  e = ValueError ∨ e = IndexError ∨ e = AttributeError.

(** The value of the parser on a line (it never raises, see
    [parse_log_line_total]). *)
Definition parsed (line : string) : option log_entry :=
  match parse_log_line line with
  | Ok o => o
  | Raise _ => None
  end.

(** The analyzable entries of a list of lines, in order. *)
Definition entries (lines : list string) : list log_entry :=
  omap (fun line => fst <$> analyzable (parsed line)) lines.

(** The checkout request made from an analyzable entry, if its URL is
    checkout-related. *)
Definition checkout_of (e : log_entry) : option checkout_entry :=
  match request_url (request e) with
  | Some u => if is_checkout_related u then Some (classify e u) else None
  | None => None
  end.

(** [status_code >= 500] *)
Definition is_server_error (c : checkout_entry) : bool := 500 <=? status_of c.

(** The state of the loop after [lines] more lines. *)
Definition extend (st : analysis) (lines : list string) : analysis :=
  let cs := omap checkout_of (entries lines) in
  {| total_lines := (total_lines st + length lines)%nat;
     parsed_lines := (parsed_lines st + length (entries lines))%nat;
     all_requests := all_requests st ++ entries lines;
     checkout_requests := checkout_requests st ++ cs;
     checkout_errors :=
       checkout_errors st ++ filter (fun c => is_server_error c = true) cs |}.

(** The number of elements of [l] filed under the key [k]. *)
Definition count_by {A} `{EqDecision K} (key : A → K) (k : K) (l : list A)
  : nat :=
  length (filter (fun x => key x = k) l).

(** The entry of a bucket table with the given three counts: absent
    when nothing was counted under the key. *)
Definition bucket_of (t c e : nat) : option bucket :=
  if (t + c + e =? 0)%nat then None
  else Some {| total := t; checkout := c; errors := e |}.

(** The counter of the cleaned URLs of a list of error entries. *)
Definition url_counts (l : list checkout_entry) : gmap string nat :=
  tally incr 0%nat (clean_url ∘ url) l ∅.

(** The entry of the pattern table for the given requests and errors of
    one category: absent when there are none. *)
Definition funnel_of (reqs errs : list checkout_entry) : option funnel_entry :=
  if (length reqs + length errs =? 0)%nat then None
  else Some {| requests := length reqs; funnel_errors := length errs;
               urls := url_counts errs |}.

Definition stage_of (r e : nat) : option stage_entry :=
  if (r + e =? 0)%nat then None
  else Some {| stage_requests := r; stage_errors := e |}.

(** [d[k]['total']], reading a missing key as zero. *)
Definition total_at (d : gmap string bucket) (k : string) : nat :=
  total (default bucket_zero (d !! k)).

(** [t > 0] *)
Definition positive (t : num) : Prop := Num.gtb t Num.zero = true.

(** What a checkout request adds to the success samples: its combined
    latency when its status is below 400 and the latency is positive,
    nothing otherwise. *)
Definition success_sample (c : checkout_entry) : option Binary64.float :=
  let t := Binary64.total_time c in
  if (status_of c <? 400) && Binary64.gtb t Binary64.zero then Some t
  else None.

(** The tables of a run, for statements about concrete inputs. *)
Definition report {A} (table : analysis → A) (lines : list string)
  : option A :=
  match analyze_logs lines with
  | Ok st => Some (table st)
  | Raise _ => None
  end.

(** ** Sample inputs *)

(** A log line with the given client, backend, latencies, status codes
    and request. *)
Definition sample_line (client target t1 t2 t3 elb backend req : string)
  : string :=
  "https 2023-12-15T10:33:05.123456Z my-elb " +:+ client +:+ " " +:+ target
  +:+ " " +:+ t1 +:+ " " +:+ t2 +:+ " " +:+ t3 +:+ " " +:+ elb +:+ " "
  +:+ backend +:+ " 100 250 " +:+ quote req +:+ " "
  +:+ quote "Mozilla/5.0 (Macintosh)" +:+ " ECDHE-RSA-AES128 TLSv1.2".

(** A line cut short inside its request field. *)
Definition truncated_line : string :=
  "https 2023-12-15T10:33:05.123456Z my-elb 10.0.0.1:5000 10.0.1.7:80 0.25 0.5 0.125 200 200 100 250 "
  +:+ String dquote "GET /cart/".

(** A line whose backend latency is not a number. *)
Definition bad_latency_line : string :=
  sample_line "10.0.0.1:5000" "10.0.1.7:80" "0.25" "fast" "0.125" "200" "200"
    "GET /cart/ HTTP/1.1".

(** A line whose client is an IPv6 address followed by a port. *)
Definition ipv6_client_line : string :=
  sample_line "2001:db8::1:5000" "10.0.1.7:80" "0.25" "0.5" "0.125" "200"
    "200" "GET /cart/ HTTP/1.1".

(** A checkout request answered with 404. *)
Definition not_found_line : string :=
  sample_line "10.0.0.1:5000" "10.0.1.7:80" "0.25" "0.5" "0.125" "404" "404"
    "GET /checkout/cart HTTP/1.1".

(** A line with a negative request latency that is not the sentinel. *)
Definition negative_latency_line : string :=
  sample_line "10.0.0.1:5000" "10.0.1.7:80" "-2.5" "0.5" "0.125" "200" "200"
    "GET /checkout/cart HTTP/1.1".

(** A successful checkout request whose backend latency is unmeasured. *)
Definition unmeasured_line : string :=
  sample_line "10.0.0.1:5000" "10.0.1.7:80" "0.25" "-1" "4" "200" "200"
    "GET /checkout/cart HTTP/1.1".

(** A successful, measured request that is not checkout-related. *)
Definition home_line : string :=
  sample_line "10.0.0.1:5000" "10.0.1.7:80" "0.25" "0.5" "0.125" "200" "200"
    "GET /home HTTP/1.1".

(** A cart request answered with 502. *)
Definition server_error_line : string :=
  sample_line "10.0.0.1:5000" "10.0.1.7:80" "0.25" "0.5" "0.125" "502" "502"
    "GET /cart/add?sku=7 HTTP/1.1".

(** A line whose request never reached a backend. *)
Definition no_backend_line : string :=
  sample_line "10.0.0.1:5000" "-" "-1" "-1" "-1" "504" "-"
    "GET /checkout/payment HTTP/1.1".

(** The state of the loop after one line that is counted nowhere but in
    [total_lines]. *)
Definition one_line_no_request : analysis :=
  {| total_lines := 1; parsed_lines := 0; all_requests := [];
     checkout_requests := []; checkout_errors := [] |}.


(** Two days, with the numbers of errors and of checkout requests of
    each. *)
Definition two_days (e1 c1 e2 c2 : nat) : gmap string bucket :=
  list_to_map
    [ ("2024-03-01", {| total := c1; checkout := c1; errors := e1 |});
      ("2024-03-02", {| total := c2; checkout := c2; errors := e2 |}) ].

(** A checkout request answered with 503. *)
Definition payment_error_line : string :=
  sample_line "10.0.0.1:5000" "10.0.1.7:80" "0.25" "0.5" "0.125" "503" "503"
    "GET /checkout/payment HTTP/1.1".

(** Two successful checkout requests whose latencies do not add up
    exactly in binary64: the sum of the first is the float 2^-53, where
    the exact sum is 0, and the sum of the second is 0, where the exact
    sum is 1e-20. *)
Definition rounded_sum_line : string :=
  sample_line "10.0.0.1:5000" "10.0.1.7:80" "0.064" "-1" "0.936" "200" "200"
    "GET /checkout/cart HTTP/1.1".

Definition absorbed_sum_line : string :=
  sample_line "10.0.0.1:5000" "10.0.1.7:80" "1e-20" "-1" "1" "200" "200"
    "GET /checkout/cart HTTP/1.1".

(** ** Definitions of the further properties *)

(** [sum(measure(v) for v in d.values())] *)
Definition column_sum `{Countable K} {V} (measure : V → nat) (d : gmap K V)
  : nat :=
  map_fold (fun _ v acc => (measure v + acc)%nat) 0%nat d.

(** [a <= b] on numbers that are not [nan]. *)
Definition num_le (a b : num) : Prop := Num.gtb a b = false.

(** The three column sums of a table of buckets. *)
Definition bucket_totals (d : gmap string bucket) : nat * nat * nat :=
  (column_sum total d, column_sum checkout d, column_sum errors d).

(** The number of entries of [l] with the given stage and status code. *)
Definition count_stage_code (stage : string) (code : Z)
    (l : list checkout_entry) : nat :=
  count_by status_of code (filter (fun c => checkout_stage c = stage) l).

(** The timeout analysis of [analyze_performance_correlation]:
    [total_time > 10]. *)
Definition is_slow (r : checkout_entry) : bool :=
  Num.gtb (total_time r) (Num.of_Z 10).

Definition slow_requests (st : analysis) : list checkout_entry :=
  filter (fun r => is_slow r = true) (checkout_requests st).

(** [[r for r in slow_requests if r['backend_status_code'] >= 400]] *)
Definition slow_errors (st : analysis) : list checkout_entry :=
  filter (fun r => 400 ≤ status_of r) (slow_requests st).

(** What the timeout analysis prints: nothing without slow requests,
    else their number and, when some of them are errors, the number of
    these and their share. *)
Definition slow_report (st : analysis)
  : option (nat * option (nat * result Q)) :=
  match slow_requests st with
  | [] => None
  | _ =>
      Some (length (slow_requests st),
            match slow_errors st with
            | [] => None
            | _ =>
                Some (length (slow_errors st),
                      q ← py_truediv (length (slow_errors st))
                                     (length (slow_requests st));
                      Ok (times100 q))
            end)
  end.

(** The words of the four category tests of [get_pattern_category], and
    of the seven stage tests of [categorize_checkout_stage]. *)
Definition category_words : list string :=
  ["/cart/"; "cart/add"; "cart/update"; "cart/remove"; "/basket/"; "/bag/"]
  ++ ["paypal"; "stripe"; "amazon-pay"; "apple-pay"; "google-pay"; "klarna";
      "afterpay"; "affirm"; "/payment/"; "/pay/"; "/billing/"; "credit-card"]
  ++ ["/order/"; "/orders/"; "order/success"; "order/complete";
      "checkout/success"; "thank-you"; "thankyou"; "receipt"; "confirmation"]
  ++ ["/checkout/"; "checkout/"; "onepage"; "guest-checkout"].

Definition stage_words : list string :=
  ["cart"; "basket"; "bag"; "shopping-cart"]
  ++ ["checkout/start"; "checkout/begin"; "checkout/init"]
  ++ ["shipping"; "delivery"; "address"]
  ++ ["payment"; "pay"; "billing"; "paypal"; "stripe"; "credit"]
  ++ ["success"; "complete"; "confirmation"; "receipt"; "thank"]
  ++ ["login"; "register"; "account"; "signup"]
  ++ ["checkout"].

(** A word: a non-empty string without white space. *)
Definition is_word (w : string) : bool :=
  neq_str w "" && forallb (in_class NonSpace) (list_ascii_of_string w).

(** A gap between two fields: white space, at least one character. *)
Definition is_gap (g : string) : bool :=
  neq_str g "" && forallb (in_class Space) (list_ascii_of_string g).

(** The text of a quoted field: no double quote. *)
Definition quote_free (q : string) : bool :=
  forallb (in_class NotQuote) (list_ascii_of_string q).

(** What may follow the last field: nothing, or text that starts with
    white space (such as the end of the line). *)
Definition is_tail (t : string) : bool :=
  match t with
  | EmptyString => true
  | String c _ => is_space c
  end.

(** A log line written from its fields: the leading words, each followed
    by the gap, the two quoted fields and the two last words. *)
Definition render_line (gap : string) (words : list string)
    (req ua cipher protocol tail : string) : string :=
  fold_right (fun w rest => w +:+ gap +:+ rest)
    (quote req +:+ gap +:+ quote ua +:+ gap +:+ cipher +:+ gap +:+ protocol
     +:+ tail)
    words.

(** The next character, if any, is outside the class. *)
Definition stops (k : cclass) (s : list ascii) : Prop :=
  match s with
  | [] => True
  | c :: _ => in_class k c = false
  end.

(** The capture groups of a pattern, in order: the least length and the
    character class of each. *)
Fixpoint group_classes (items : list item) : list (nat * cclass) :=
  match items with
  | [] => []
  | Rep true min k :: rest => (min, k) :: group_classes rest
  | _ :: rest => group_classes rest
  end.

(** A string that a capture group of the given least length and class
    can hold. *)
Definition in_group (mk : nat * cclass) (g : string) : Prop :=
  (mk.1 ≤ String.length g)%nat
  ∧ forallb (in_class mk.2) (list_ascii_of_string g) = true.
(** The counter [url_errors] of [analyze_overall_summary]: the checkout
    errors by URL without its query string. *)
Definition url_errors (st : analysis) : gmap string nat :=
  tally incr 0%nat (clean_url ∘ url) (checkout_errors st) ∅.

(** [k] is [u] without its query string: [k] has no question mark and
    [u] is [k] alone or [k], a question mark and a remainder. *)
Definition without_query (k u : string) : Prop :=
  contains "?" k = false ∧ (u = k ∨ ∃ query, u = k +:+ String "?" query).

(** ** [analyze_user_agents] *)

(** [len([e for e in l if flag(e)])] *)
Definition count_if (flag : checkout_entry → bool) (l : list checkout_entry)
  : nat :=
  length (filter (fun c => flag c = true) l).

(** One line of the traffic comparison: the requests and errors of one
    kind of traffic, its error rate and, for the bot and human lines,
    its share of all errors. *)
Record traffic_row : Type := TrafficRow {
  traffic_requests : nat;
  traffic_errors : nat;
  traffic_error_rate : Q;
  traffic_error_pct : option Q
}.

(** [None] is the line that reports no request of this kind. *)
Definition traffic_row_of (with_pct : bool) (flag : checkout_entry → bool)
    (st : analysis) : option (result traffic_row) :=
  let errors := count_if flag (checkout_errors st) in
  let requests := count_if flag (checkout_requests st) in
  let total_errors := length (checkout_errors st) in
  if (0 <? requests)%nat
  then Some (q ← py_truediv errors requests;
             pct ← (if with_pct
                    then p ← guarded_rate errors total_errors; Ok (Some p)
                    else Ok None);
             Ok {| traffic_requests := requests; traffic_errors := errors;
                   traffic_error_rate := times100 q;
                   traffic_error_pct := pct |})
  else None.

Definition is_human (c : checkout_entry) : bool := negb (is_bot c).
Definition is_desktop (c : checkout_entry) : bool := negb (is_mobile c).

(** [ua[:n] + '...' if len(ua) > n else ua] *)
Definition shorten (n : nat) (ua : string) : string :=
  if (n <? String.length ua)%nat then slice 0 n ua +:+ "..." else ua.

(** The set [bot_user_agents]. *)
Definition bot_user_agents (st : analysis) : gset string :=
  list_to_set
    ((shorten 180 ∘ user_agent ∘ entry)
       <$> filter (fun c => is_bot c = true) (checkout_errors st)).

(** The counter [user_agent_errors], and the bot mark shown beside one
    of its keys. *)
Definition user_agent_errors (st : analysis) : gmap string nat :=
  tally incr 0%nat (shorten 80 ∘ user_agent ∘ entry) (checkout_errors st) ∅.

Definition bot_indicator (ua : string) : bool := search_any bot_patterns ua.

(** [a < b] on strings. *)
Definition str_lt (a b : string) : Prop := str_le a b ∧ a ≠ b.

(** ** Insertion order and rankings *)

(** A Python dictionary with its insertion order: the association list
    of its items.  An item that is updated keeps its place, a new key
    goes to the end. *)
Section Ordered.
Context {A K V : Type} `{EqDecision K}.
Variable update : A → V → V.
Variable zero : V.
Variable key : A → K.

Fixpoint od_step (d : list (K * V)) (x : A) : list (K * V) :=
  match d with
  | [] => [(key x, update x zero)]
  | (k, v) :: d' =>
      if decide (k = key x) then (k, update x v) :: d'
      else (k, v) :: od_step d' x
  end.

(** [for x in l: d[key(x)] = update(x, d[key(x)])] on a [defaultdict]
    or a [Counter]. *)
Definition od_tally (l : list A) (d : list (K * V)) : list (K * V) :=
  foldl od_step d l.
End Ordered.

(** The keys of a list in the order in which they are first seen. *)
Definition first_keys {K} `{EqDecision K} (l : list K) : list K :=
  foldl (fun seen k => if decide (k ∈ seen) then seen else seen ++ [k]) [] l.

Section Ranking.
Context {X : Type}.
Variable rank : X → nat.

Fixpoint insert_desc (x : X) (l : list X) : list X :=
  match l with
  | [] => [x]
  | y :: l' =>
      if (rank x <? rank y)%nat then y :: insert_desc x l' else x :: l
  end.

(** [sorted(l, key=rank, reverse=True)]; the sort is stable, so items
    of equal rank keep their order. *)
Definition sorted_desc (l : list X) : list X := foldr insert_desc [] l.

(** [sorted(l, key=rank, reverse=True)[:n]], which is also what
    [Counter.most_common(n)] returns for the items of a counter. *)
Definition top (n : nat) (l : list X) : list X := take n (sorted_desc l).
End Ranking.

(** The items of [url_errors] and of [user_agent_errors] in insertion
    order, and the ten most common of each. *)
Definition url_items (st : analysis) : list (string * nat) :=
  od_tally incr 0%nat (clean_url ∘ url) (checkout_errors st) [].

Definition url_ranking (st : analysis) : list (string * nat) :=
  top snd 10 (url_items st).

Definition user_agent_items (st : analysis) : list (string * nat) :=
  od_tally incr 0%nat (shorten 80 ∘ user_agent ∘ entry) (checkout_errors st)
    [].

(** Each of the ten most common user agents with its count and its bot
    mark. *)
Definition user_agent_ranking (st : analysis) : list (string * nat * bool) :=
  (fun item => (item, bot_indicator item.1))
    <$> top snd 10 (user_agent_items st).

(** The entries of [funnel_stats] in [analyze_pattern_breakdown] with
    their URL counters in insertion order. *)
Record ordered_funnel : Type := OrderedFunnel {
  od_requests : nat;
  od_errors : nat;
  od_urls : list (string * nat)
}.

Definition ordered_zero : ordered_funnel :=
  {| od_requests := 0; od_errors := 0; od_urls := [] |}.

Definition od_count_request (_ : checkout_entry) (s : ordered_funnel)
  : ordered_funnel :=
  {| od_requests := S (od_requests s); od_errors := od_errors s;
     od_urls := od_urls s |}.

Definition od_count_error (c : checkout_entry) (s : ordered_funnel)
  : ordered_funnel :=
  {| od_requests := od_requests s; od_errors := S (od_errors s);
     od_urls := od_tally incr 0%nat clean_url [url c] (od_urls s) |}.

Definition pattern_items (st : analysis) : list (string * ordered_funnel) :=
  od_tally od_count_error ordered_zero pattern_category (checkout_errors st)
    (od_tally od_count_request ordered_zero pattern_category
       (checkout_requests st) []).

(** An entry without the order of its URLs. *)
Definition forget_order (s : ordered_funnel) : funnel_entry :=
  {| requests := od_requests s; funnel_errors := od_errors s;
     urls := list_to_map (od_urls s) |}.

(** What the reporting loop of [analyze_pattern_breakdown] prints: a row
    for a stage, with its three most frequent URLs, or the closing
    message of the [else] branch of the loop. *)
Inductive pattern_line : Type :=
| StageRow (stage : string) (stats : ordered_funnel) (error_rate : Q)
    (status : severity) (top_urls : list (string * nat))
| NoCheckoutRequests.

(** One pass of the loop: [None] is the [continue]. *)
Definition pattern_line_of (item : string * ordered_funnel)
  : option (result pattern_line) :=
  row ← pattern_row (forget_order item.2);
  Some ('(error_rate, status) ← row;
        Ok (StageRow item.1 item.2 error_rate status
              (top snd 3 (od_urls item.2)))).

(** The loop has no [break], so its [else] branch always runs. *)
Definition pattern_report (st : analysis) : result (list pattern_line) :=
  rows ← mapM id (omap pattern_line_of
                    (sorted_desc (od_errors ∘ snd) (pattern_items st)));
  Ok (rows ++ [NoCheckoutRequests]).

(** ** [get_date_range] and [show_data_range] *)

(** [os.path.basename(path)] on a POSIX path: what follows the last
    slash. *)
Definition basename (path : string) : string :=
  default EmptyString (last (split_on "/" path)).

(** The pattern [_(\d{8})T\d{4}Z_] tried at the start of [s]; the
    result is the group of eight digits. *)
Definition stamp_here (s : list ascii) : option string :=
  match s with
  | "_"%char :: rest =>
      let day := take 8 rest in
      let time := take 4 (drop 9 rest) in
      if (length day =? 8)%nat && forallb is_digit day
         && (length time =? 4)%nat && forallb is_digit time
      then match drop 8 rest, drop 13 rest with
           | "T"%char :: _, "Z"%char :: "_"%char :: _ =>
               Some (string_of_list_ascii day)
           | _, _ => None
           end
      else None
  | _ => None
  end.

(** [re.search]: the leftmost position at which the pattern matches. *)
Fixpoint search_stamp (s : list ascii) : option string :=
  match stamp_here s with
  | Some day => Some day
  | None =>
      match s with
      | [] => None
      | _ :: s' => search_stamp s'
      end
  end.

(** A [datetime] at midnight: a calendar date. *)
Record date : Type := Date {
  year : Z;
  month : Z;
  day : Z
}.

Definition is_leap (y : Z) : bool :=
  (y mod 4 =? 0) && (negb (y mod 100 =? 0) || (y mod 400 =? 0)).

Definition days_in_month (y m : Z) : Z :=
  if m =? 2 then (if is_leap y then 29 else 28)
  else if (m =? 4) || (m =? 6) || (m =? 9) || (m =? 11) then 30
  else 31.

(** [datetime.strptime(s, '%Y%m%d')] on a string of eight digits: the
    month must be 01 to 12 and the day 01 to 31, or the format does not
    match or leaves data unconverted; the year must be at least 1 and
    the day must exist in the month, or the date is out of range. *)
Definition strptime_ymd (s : string) : result date :=
  let y := digits_value 0 (slice 0 4 s) in
  let m := digits_value 0 (slice 4 6 s) in
  let d := digits_value 0 (slice 6 8 s) in
  if (1 <=? m) && (m <=? 12) && (1 <=? d) && (d <=? 31)
     && (1 <=? y) && (d <=? days_in_month y m)
  then Ok {| year := y; month := m; day := d |}
  else Raise ValueError.

(** [a < b] on dates. *)
Definition date_ltb (a b : date) : bool :=
  (year a <? year b)
  || ((year a =? year b)
      && ((month a <? month b)
          || ((month a =? month b) && (day a <? day b)))).

(** [min(dates)] and [max(dates)] on a non-empty list: the first least
    and the first greatest element. *)
Definition date_min (first : date) (rest : list date) : date :=
  foldl (fun m x => if date_ltb x m then x else m) first rest.

Definition date_max (first : date) (rest : list date) : date :=
  foldl (fun m x => if date_ltb m x then x else m) first rest.

(** The number of days before the first of January of year [y], and
    before the first of month [m] of year [y]. *)
Definition days_before_year (y : Z) : Z :=
  (y - 1) * 365 + (y - 1) / 4 - (y - 1) / 100 + (y - 1) / 400.

Definition days_before_month (y m : Z) : Z :=
  match m with
  | 1 => 0 | 2 => 31 | 3 => 59 | 4 => 90 | 5 => 120 | 6 => 151
  | 7 => 181 | 8 => 212 | 9 => 243 | 10 => 273 | 11 => 304 | _ => 334
  end + (if (2 <? m) && is_leap y then 1 else 0).

(** The day number of a date, 1 for the first of January of year 1;
    [(b - a).days] is the difference of two day numbers. *)
Definition ordinal (a : date) : Z :=
  days_before_year (year a) + days_before_month (year a) (month a) + day a.

(** The loop of [get_date_range] over the file names. *)
Fixpoint stamps (files : list string) : result (list date) :=
  match files with
  | [] => Ok []
  | log_file :: rest =>
      match search_stamp (list_ascii_of_string (basename log_file)) with
      | Some date_str =>
          date_obj ← strptime_ymd date_str;
          dates ← stamps rest;
          Ok (date_obj :: dates)
      | None => stamps rest
      end
  end.

Definition get_date_range (files : list string)
  : result (option (date * date)) :=
  dates ← stamps files;
  match dates with
  | [] => Ok None
  | first :: rest => Ok (Some (date_min first rest, date_max first rest))
  end.

(** What [show_data_range] prints: the first day, the last day and the
    number of days from the one to the other, or [None] for the message
    that there is no date range. *)
Definition show_data_range (files : list string)
  : result (option (date * date * Z)) :=
  range ← get_date_range files;
  match range with
  | Some (first_date, last_date) =>
      Ok (Some (first_date, last_date,
                ordinal last_date - ordinal first_date + 1))
  | None => Ok None
  end.
(** A date that exists in the calendar. *)
Definition valid_date (a : date) : Prop :=
  1 ≤ year a ∧ 1 ≤ month a ∧ month a ≤ 12
  ∧ 1 ≤ day a ∧ day a ≤ days_in_month (year a) (month a).

(** * Properties *)

(** ** The result monad *)

Lemma bind_ok {A B} (c : result A) (k : A → result B) (b : B) :
  c ≫= k = Ok b → ∃ a, c = Ok a ∧ k a = Ok b.
Proof. destruct c as [a|e]; cbn; [eauto | discriminate]. Qed.

Lemma bind_raise {A B} (c : result A) (k : A → result B) (e : exn) :
  c ≫= k = Raise e → c = Raise e ∨ ∃ a, c = Ok a ∧ k a = Raise e.
Proof. destruct c as [a|e']; cbn; intros Hk; [right; eauto | left; congruence]. Qed.

(** ** Classification chains *)

Lemma any_in_singleton t s : any_in [t] s = contains t s.
Proof. unfold any_in; simpl. apply orb_false_r. Qed.

(** C8. The funnel stage and the pattern category are functions of the
    URL alone, computed as an ordered first-match-wins chain of substring
    tests on the lower-cased URL; [/cart/checkout/payment] passes both
    the cart test and the payment test and is classified as Cart
    Operations, because the cart test comes first. *)
Theorem classification_first_match_wins :
  (∀ u, categorize_checkout_stage u
        = first_match funnel_stage_chain "Other E-commerce" (lower u))
  ∧ (∀ u, get_pattern_category u
          = first_match pattern_category_chain "Other Checkout" (lower u))
  ∧ categorize_checkout_stage "/cart/checkout/payment" = "Cart Operations"
  ∧ any_in ["cart"; "basket"; "bag"; "shopping-cart"]
      (lower "/cart/checkout/payment") = true
  ∧ any_in ["payment"; "pay"; "billing"; "paypal"; "stripe"; "credit"]
      (lower "/cart/checkout/payment") = true.
Proof.
  split; [|split; [|by vm_compute]].
  - intros u. unfold categorize_checkout_stage, first_match,
      funnel_stage_chain. cbn [List.find fst snd].
    rewrite (any_in_singleton "checkout").
    repeat (destruct (any_in _ (lower u)); [reflexivity|]).
    by destruct (contains _ _).
  - intros u. unfold get_pattern_category, first_match,
      pattern_category_chain. cbn [List.find fst snd].
    repeat (destruct (any_in _ (lower u)); [reflexivity|]).
    reflexivity.
Qed.

(** ** Rates and trends *)

Lemma py_truediv_pos a b : (0 < b)%nat → ∃ q, py_truediv a b = Ok q.
Proof. destruct b; [lia | simpl; eauto]. Qed.

Lemma guarded_rate_total errors requests :
  ∃ q, guarded_rate errors requests = Ok q ∧ (requests = 0%nat → q = 0%Q).
Proof.
  unfold guarded_rate. destruct requests as [|n]; simpl.
  - eauto.
  - eexists; split; [reflexivity | discriminate].
Qed.

Lemma guarded_avg_total n days :
  ∃ q, guarded_avg n days = Ok q ∧ (days = 0%nat → q = 0%Q).
Proof.
  unfold guarded_avg. destruct days as [|d]; simpl.
  - eauto.
  - eexists; split; [reflexivity | discriminate].
Qed.

Lemma daily_rows_total daily prev dates :
  ∃ rows, daily_rows daily prev dates = Ok rows
    ∧ ∀ r, r ∈ rows → checkout (row_stats r) = 0%nat → row_error_rate r = 0%Q.
Proof.
  revert prev. induction dates as [|d dates IH]; intros prev; simpl.
  - exists []. split; [done|]. intros r Hr. by apply elem_of_nil in Hr.
  - destruct (guarded_rate_total (errors (default bucket_zero (daily !! d)))
                (checkout (default bucket_zero (daily !! d)))) as (q & -> & Hq).
    cbn. destruct (IH (Some q)) as (rows & -> & Hrows). cbn.
    eexists; split; [reflexivity|].
    intros r [->|Hr]%elem_of_cons; simpl; auto.
Qed.

Lemma hourly_row_total days hour stats :
  ∃ row, hourly_row_of days hour stats = Ok row
    ∧ (checkout stats = 0%nat → hour_error_rate row = 0%Q)
    ∧ (days = 0%nat →
       avg_total row = 0%Q ∧ avg_checkout row = 0%Q ∧ avg_errors row = 0%Q).
Proof.
  unfold hourly_row_of.
  destruct (guarded_avg_total (total stats) days) as (a & -> & Ha).
  destruct (guarded_avg_total (checkout stats) days) as (b & -> & Hb).
  destruct (guarded_avg_total (errors stats) days) as (c & -> & Hc).
  destruct (guarded_rate_total (errors stats) (checkout stats))
    as (q & -> & Hq).
  cbn. eexists; split; [reflexivity|]; simpl. auto.
Qed.

Lemma mapM_total {A B} (f : A → result B) (l : list A) :
  (∀ x, ∃ y, f x = Ok y) → ∃ ys, mapM f l = Ok ys.
Proof.
  intros Hf. induction l as [|x l [ys IH]]; simpl.
  - by eexists.
  - destruct (Hf x) as [y ->]. cbn. rewrite IH. cbn. by eexists.
Qed.

Lemma overall_summary_total st :
  ∃ s, analyze_overall_summary st = Ok s
    ∧ (length (checkout_requests st) = 0%nat →
       checkout_error_rate s = 0%Q ∧ checkout_traffic_pct s = 0%Q)
    ∧ (length (all_requests st) = 0%nat → checkout_traffic_pct s = 0%Q).
Proof.
  unfold analyze_overall_summary.
  destruct (length (checkout_requests st)) as [|c]; simpl.
  - eexists; split; [reflexivity|]. simpl. auto.
  - destruct (length (all_requests st)) as [|t]; cbn.
    + eexists; split; [reflexivity|]. simpl. split; [discriminate | auto].
    + eexists; split; [reflexivity|]. simpl. split; discriminate.
Qed.

(** C7. Every rate or percentage whose denominator is zero is computed as
    exactly 0, and no report raises a division error: the overall
    summary (no checkout request, or no request at all), the daily and
    hourly rows (no checkout request in the bucket, no day at all) and
    the funnel-stage rows. *)
Theorem zero_denominator_safety :
  (∀ st, ∃ s, analyze_overall_summary st = Ok s
      ∧ (length (checkout_requests st) = 0%nat →
         checkout_error_rate s = 0%Q ∧ checkout_traffic_pct s = 0%Q)
      ∧ (length (all_requests st) = 0%nat → checkout_traffic_pct s = 0%Q))
  ∧ (∀ st, ∃ rows, analyze_daily_trends st = Ok rows
      ∧ ∀ r, r ∈ rows → checkout (row_stats r) = 0%nat →
             row_error_rate r = 0%Q)
  ∧ (∀ days hour stats, ∃ row, hourly_row_of days hour stats = Ok row
      ∧ (checkout stats = 0%nat → hour_error_rate row = 0%Q)
      ∧ (days = 0%nat →
         avg_total row = 0%Q ∧ avg_checkout row = 0%Q
         ∧ avg_errors row = 0%Q))
  ∧ (∀ st, ∃ rows, analyze_hourly_patterns st = Ok rows)
  ∧ (∀ stats, ∃ q, stage_row stats = Ok q
      ∧ (stage_requests stats = 0%nat → q = 0%Q)).
Proof.
  split; [exact overall_summary_total|].
  split; [intros st; apply daily_rows_total|].
  split; [exact hourly_row_total|].
  split.
  - intros st. apply mapM_total. intros hour.
    destruct (hourly_row_total (total_days st) hour
                (default bucket_zero (hourly_stats st !! hour)))
      as (row & Hrow & _). eauto.
  - intros stats. apply guarded_rate_total.
Qed.

Lemma zero_denominator_safety_witness :
  ∃ s, analyze_overall_summary empty_analysis = Ok s
    ∧ checkout_error_rate s = 0%Q ∧ checkout_traffic_pct s = 0%Q.
Proof.
  destruct (proj1 zero_denominator_safety empty_analysis)
    as (s & Hs & Hrate & _).
  exists s. split; [exact Hs|]. apply Hrate. reflexivity.
Defined.

Lemma daily_rows_dates daily prev dates rows :
  daily_rows daily prev dates = Ok rows → row_date <$> rows = dates.
Proof.
  revert prev rows. induction dates as [|d dates IH]; intros prev rows; simpl.
  - by intros [= <-].
  - intros (q & Hq & H)%bind_ok. apply bind_ok in H as (rest & Hrest & [= <-]).
    rewrite fmap_cons. simpl. f_equal. eauto.
Qed.

(** ** The regular-expression matcher *)

Lemma try_lengths_some {A} n min (cont : nat → option A) r :
  try_lengths n min cont = Some r →
  ∃ j, (min ≤ j ≤ n)%nat ∧ cont j = Some r.
Proof.
  induction n as [|n IH]; simpl.
  - destruct min; simpl; [|discriminate].
    destruct (cont 0%nat) eqn:Hc; [|discriminate].
    intros [= <-]. exists 0%nat. split; [lia | done].
  - destruct (S n <? min)%nat eqn:Hlt; [discriminate|].
    apply Nat.ltb_ge in Hlt.
    destruct (cont (S n)) eqn:Hc.
    + intros [= <-]. exists (S n). split; [lia | done].
    + intros (j & Hj & Hcj)%IH. exists j. split; [lia | done].
Qed.

Lemma run_length_take k s j :
  (j ≤ run_length k s)%nat → Forall (fun c => in_class k c = true) (take j s).
Proof.
  revert j. induction s as [|c s IH]; intros [|j]; simpl;
    try (intros; by constructor).
  destruct (in_class k c) eqn:Hc; [|lia].
  intros Hj. constructor; [done | apply IH; lia].
Qed.

Lemma run_length_le k s : (run_length k s ≤ length s)%nat.
Proof.
  induction s as [|c s IH]; simpl; [lia|].
  destruct (in_class k c); lia.
Qed.

Lemma match_items_sound items s gs :
  match_items items s = Some gs → matches items s.
Proof.
  revert s gs. induction items as [|[c|capture min k] rest IH];
    intros s gs; simpl.
  - intros _. constructor.
  - destruct s as [|c' s]; [discriminate|].
    destruct (Ascii.eqb_spec c c') as [->|]; [|discriminate].
    intros H. constructor. eauto.
  - intros (j & Hj & Hcont)%try_lengths_some.
    destruct (match_items rest (drop j s)) as [gs'|] eqn:Hrest;
      [|discriminate].
    rewrite <- (take_drop j s). constructor.
    + pose proof (run_length_le k s). rewrite length_take. lia.
    + apply run_length_take. lia.
    + eauto.
Qed.

(** ** Counting the fields of a matched line *)

Lemma count_fields_space_run ws s b :
  ws ≠ [] → Forall (fun c => in_class Space c = true) ws →
  count_fields_from b (ws ++ s) = count_fields_from false s.
Proof.
  intros Hne Hws. revert b. induction Hws as [|c ws Hc Hws IH]; [done|].
  intros b. simpl in *. rewrite Hc.
  destruct ws as [|c' ws']; [reflexivity|]. by apply IH.
Qed.

Lemma count_fields_word seg s b :
  Forall (fun c => in_class NonSpace c = true) seg →
  count_fields_from true (seg ++ s) = count_fields_from true s
  ∧ (seg ≠ [] →
     count_fields_from b (seg ++ s)
     = ((if b then 0 else 1) + count_fields_from true s)%nat).
Proof.
  intros Hseg. induction Hseg as [|c seg Hc Hseg [IH1 IH2]]; [done|].
  simpl in *. apply negb_true_iff in Hc. rewrite Hc. rewrite IH1.
  split; [done|]. intros _. done.
Qed.

Lemma count_fields_mono s : 
  (count_fields_from true s ≤ count_fields_from false s)%nat.
Proof. destruct s as [|c s]; simpl; [lia|]. destruct (is_space c); lia. Qed.

Lemma count_fields_skip x s b :
  (count_fields_from true s ≤ count_fields_from b (x ++ s))%nat.
Proof.
  revert b. induction x as [|c x IH]; intros b; simpl.
  - destruct b; [lia | apply count_fields_mono].
  - destruct (is_space c); [apply IH|]. specialize (IH true). lia.
Qed.

(** A field and the white space after it count for one. *)
Lemma count_fields_field rest s :
  matches (field ++ rest) s →
  ∃ s', matches rest s'
        ∧ count_fields_from false s = S (count_fields_from false s').
Proof.
  unfold field; simpl. intros H.
  inversion H as [| |? ? ? ? seg s1 Hlen Hseg H1]; subst; clear H.
  inversion H1 as [| |? ? ? ? ws s' Hlen' Hws H2]; subst; clear H1.
  exists s'. split; [done|].
  destruct (count_fields_word seg (ws ++ s') false Hseg) as [_ ->].
  - rewrite count_fields_space_run; [done| |done].
    destruct ws; [simpl in Hlen'; lia | done].
  - destruct seg; [simpl in Hlen; lia | done].
Qed.

(** A quoted field and the white space after it count for one at least. *)
Lemma count_fields_quoted rest s :
  matches (quoted ++ rest) s →
  ∃ s', matches rest s'
        ∧ (S (count_fields_from false s') ≤ count_fields_from false s)%nat.
Proof.
  unfold quoted; simpl. intros H.
  inversion H as [|? ? s0 H0|]; subst; clear H.
  inversion H0 as [| |? ? ? ? q s1 _ _ H1]; subst; clear H0.
  inversion H1 as [|? ? s2 H2|]; subst; clear H1.
  inversion H2 as [| |? ? ? ? ws s' Hlen Hws H3]; subst; clear H2.
  exists s'. split; [done|].
  change (count_fields_from false (dquote :: q ++ dquote :: ws ++ s'))
    with (S (count_fields_from true (q ++ dquote :: ws ++ s'))).
  apply le_n_S.
  etrans; [|apply count_fields_skip].
  change (count_fields_from true (dquote :: ws ++ s'))
    with (count_fields_from true (ws ++ s')).
  rewrite count_fields_space_run; [done| |done].
  destruct ws; [simpl in Hlen; lia | done].
Qed.

Lemma count_fields_last s :
  matches [Rep true 1 NonSpace] s → (1 ≤ count_fields_from false s)%nat.
Proof.
  intros H. inversion H as [| |? ? ? ? seg s' Hlen Hseg _]; subst; clear H.
  destruct (count_fields_word seg s' false Hseg) as [_ ->]; [lia|].
  destruct seg; [simpl in Hlen; lia | done].
Qed.

Lemma matched_line_has_16_fields line groups :
  re_match elb_pattern line = Some groups → (16 ≤ count_fields line)%nat.
Proof.
  unfold re_match, count_fields. intros H%match_items_sound.
  unfold elb_pattern in H.
  repeat (apply count_fields_field in H as (? & H & ->)).
  repeat (apply count_fields_quoted in H as (? & H & ?)).
  apply (count_fields_field [Rep true 1 NonSpace]) in H as (? & H & ?).
  apply count_fields_last in H. lia.
Qed.

(** ** The parser *)

Lemma subscript_raises {A} (l : list A) i e :
  subscript l i = Raise e → e = IndexError.
Proof. unfold subscript. destruct (l !! i); congruence. Qed.

Lemma subscript_ok {A} (l : list A) i x :
  subscript l i = Ok x ↔ l !! i = Some x.
Proof. unfold subscript. destruct (l !! i); split; congruence. Qed.

Lemma py_int_raises s e : py_int s = Raise e → e = ValueError.
Proof. unfold py_int. repeat case_match; congruence. Qed.

Lemma py_float_raises s e : py_float s = Raise e → e = ValueError.
Proof. unfold py_float. repeat case_match; congruence. Qed.

Lemma parse_latency_raises g e : parse_latency g = Raise e → caught e.
Proof.
  unfold parse_latency. case_match; [|discriminate].
  intros ->%py_float_raises. by left.
Qed.

Lemma parse_status_raises g e : parse_status g = Raise e → caught e.
Proof.
  unfold parse_status. case_match; [|discriminate].
  intros [->%py_int_raises | (? & _ & [=])]%bind_raise. by left.
Qed.

Lemma parse_bytes_raises g e : parse_bytes g = Raise e → caught e.
Proof.
  unfold parse_bytes. case_match; [|discriminate].
  intros ->%py_int_raises. by left.
Qed.

Lemma host_of_raises g e : host_of g = Raise e → caught e.
Proof. intros ->%subscript_raises. right; by left. Qed.

Lemma group_raises (groups : list string) i e :
  subscript groups i = Raise e → caught e.
Proof. intros ->%subscript_raises. right; by left. Qed.

Lemma parse_log_line_body_raises line e :
  parse_log_line_body line = Raise e → caught e.
Proof.
  unfold parse_log_line_body.
  destruct (re_match elb_pattern line) as [groups|]; [|discriminate].
  destruct (length groups <? 16)%nat; [discriminate|].
  intros H.
  repeat (apply bind_raise in H as [H | (? & _ & H)];
          [ first [ by eapply group_raises | by eapply host_of_raises
                  | by eapply parse_latency_raises
                  | by eapply parse_status_raises
                  | by eapply parse_bytes_raises
                  | idtac ] | ]).
  all: try discriminate.
  case_match; [|discriminate].
  apply bind_raise in H as [H | (? & _ & H)]; [|discriminate].
  by eapply host_of_raises.
Qed.

(** The parser returns a record or the failure marker; no exception
    leaves it. *)
Lemma parse_log_line_total line :
  parse_log_line line = Ok None ∨ ∃ r, parse_log_line line = Ok (Some r).
Proof.
  unfold parse_log_line.
  destruct (parse_log_line_body line) as [[r|]|e] eqn:Hbody; eauto.
  apply parse_log_line_body_raises in Hbody as [->|[->| ->]]; by left.
Qed.

Ltac bind_ok_in H x Hx :=
  apply bind_ok in H as (x & Hx & H).

Lemma parse_log_line_body_inv line r :
  parse_log_line_body line = Ok (Some r) →
  ∃ groups, re_match elb_pattern line = Some groups ∧ parsed_from groups r.
Proof.
  unfold parse_log_line_body.
  destruct (re_match elb_pattern line) as [groups|]; [|discriminate].
  destruct (length groups <? 16)%nat; [discriminate|].
  intros H. exists groups. split; [done|].
  bind_ok_in H g1 H1. bind_ok_in H g3 H3. bind_ok_in H client Hclient.
  bind_ok_in H g4 H4. bind_ok_in H target Htarget.
  bind_ok_in H g5 H5. bind_ok_in H t5 Ht5.
  bind_ok_in H g6 H6. bind_ok_in H t6 Ht6.
  bind_ok_in H g7 H7. bind_ok_in H t7 Ht7.
  bind_ok_in H g8 H8. bind_ok_in H s8 Hs8.
  bind_ok_in H g9 H9. bind_ok_in H s9 Hs9.
  bind_ok_in H g10 H10. bind_ok_in H b10 Hb10.
  bind_ok_in H g11 H11. bind_ok_in H b11 Hb11.
  bind_ok_in H g12 H12. bind_ok_in H g13 H13.
  bind_ok_in H g14 H14. bind_ok_in H g15 H15.
  injection H as <-. simpl.
  apply subscript_ok in H1, H3, H4, H5, H6, H7, H8, H9, H10, H11, H12, H13.
  unfold parsed_from; simpl. repeat split; eauto.
Qed.

Lemma parse_log_line_inv line r :
  parse_log_line line = Ok (Some r) →
  ∃ groups, re_match elb_pattern line = Some groups ∧ parsed_from groups r.
Proof.
  unfold parse_log_line. intros H. apply parse_log_line_body_inv.
  destruct (parse_log_line_body line) as [o|[]]; congruence.
Qed.

Lemma parse_log_line_no_match line :
  re_match elb_pattern line = None → parse_log_line line = Ok None.
Proof.
  intros H. unfold parse_log_line, parse_log_line_body. by rewrite H.
Qed.

(** C3. For every string the parser returns a record or the failure
    marker, never an exception (and, being a function of the line alone,
    it has no effect besides its result); a line with fewer than 16
    white-space separated fields, a line that has not the 16-field shape
    of the pattern, and a line in which a required numeric field is
    neither its sentinel nor a number, give the failure marker. *)
Theorem parser_total_and_strict (line : string) :
  (parse_log_line line = Ok None ∨ ∃ r, parse_log_line line = Ok (Some r))
  ∧ ((count_fields line < 16)%nat → parse_log_line line = Ok None)
  ∧ (¬ has_log_shape line → parse_log_line line = Ok None)
  ∧ (∀ groups, re_match elb_pattern line = Some groups →
       bad_numeric_field groups → parse_log_line line = Ok None).
Proof.
  split; [apply parse_log_line_total|]. split; [|split].
  - intros Hfew. apply parse_log_line_no_match.
    destruct (re_match elb_pattern line) as [groups|] eqn:Hm; [|done].
    apply matched_line_has_16_fields in Hm. lia.
  - intros Hshape. apply parse_log_line_no_match.
    destruct (re_match elb_pattern line) as [groups|] eqn:Hm; [|done].
    apply match_items_sound in Hm. contradiction.
  - intros groups Hm (i & g & Hg & Hbad).
    destruct (parse_log_line_total line) as [|[r Hr]]; [done|]. exfalso.
    apply parse_log_line_inv in Hr as (groups' & Hm' & Hr).
    assert (groups' = groups) as -> by congruence.
    destruct Hr as (_ & _ & _ & (g5 & H5 & P5) & (g6 & H6 & P6)
      & (g7 & H7 & P7) & (g8 & H8 & P8) & (g9 & H9 & P9)
      & (g10 & H10 & P10) & (g11 & H11 & P11) & _).
    unfold parse_latency, parse_status, parse_bytes, neq_str in *.
    destruct Hbad as [(Hi & Hne & Hv) | (Hi & Hne & Hv)];
      apply String.eqb_neq in Hne.
    + assert (i = 5 ∨ i = 6 ∨ i = 7)%nat as [->|[->| ->]] by lia;
        simplify_eq; rewrite Hne in *; simpl in *; congruence.
    + assert (i = 8 ∨ i = 9 ∨ i = 10 ∨ i = 11)%nat
        as [->|[->|[->| ->]]] by lia;
        simplify_eq; rewrite Hne, Hv in *; simpl in *; discriminate.
Qed.

Lemma parser_total_and_strict_witness :
  parse_log_line truncated_line = Ok None
  ∧ parse_log_line bad_latency_line = Ok None.
Proof.
  split.
  - apply (proj1 (proj2 (parser_total_and_strict truncated_line))).
    vm_compute. lia.
  - destruct (re_match elb_pattern bad_latency_line) as [groups|] eqn:Hm;
      [|by apply parse_log_line_no_match].
    apply (proj2 (proj2 (proj2 (parser_total_and_strict bad_latency_line)))
             groups Hm).
    exists 6%nat, "fast". vm_compute in Hm. injection Hm as <-.
    split; [reflexivity|]. left. split; [lia|]. split; [discriminate|].
    reflexivity.
Defined.

(** ** Hosts *)

Lemma split_on_first sep s :
  ∃ h t, split_on sep s = h :: t
    ∧ contains (String sep EmptyString) h = false
    ∧ ((t = [] ∧ s = h) ∨ ∃ rest, s = h +:+ String sep rest).
Proof.
  induction s as [|c s (h & t & Hs & Hh & Hrest)]; simpl.
  - exists EmptyString, []. split; [done|]. split; [done|]. by left.
  - destruct (Ascii.eqb_spec c sep) as [->|Hne].
    + exists EmptyString, (split_on sep s). split; [done|]. split; [done|].
      right. by exists s.
    + rewrite Hs. exists (String c h), t. split; [done|]. split.
      * simpl. destruct (ascii_dec sep c) as [->|_]; [done|]. exact Hh.
      * destruct Hrest as [[-> ->]|[rest ->]]; [by left|].
        right. by exists rest.
Qed.

Lemma split_on_without sep s :
  contains (String sep EmptyString) s = false → split_on sep s = [s].
Proof.
  induction s as [|c s IH]; [done|].
  intros Hs. simpl in Hs. simpl.
  destruct (ascii_dec sep c) as [->|Hne].
  - by destruct s.
  - destruct (Ascii.eqb_spec c sep) as [->|_]; [done|]. by rewrite IH.
Qed.

Lemma split_on_single sep h p :
  contains (String sep EmptyString) h = false →
  contains (String sep EmptyString) p = false →
  split_on sep (h +:+ String sep p) = [h; p].
Proof.
  intros Hh Hp. induction h as [|c h IH]; simpl.
  - rewrite Ascii.eqb_refl. by rewrite split_on_without.
  - simpl in Hh. destruct (ascii_dec sep c) as [->|Hne];
      [by destruct h|].
    destruct (Ascii.eqb_spec c sep) as [->|_]; [done|].
    change (String c h +:+ String sep p) with (String c (h +:+ String sep p)).
    by rewrite IH.
Qed.

Lemma host_of_single_colon h p :
  contains ":" h = false → contains ":" p = false →
  host_of (h +:+ String ":" p) = Ok h
  ∧ host_before_last_colon (h +:+ String ":" p) = h.
Proof.
  intros Hh Hp. unfold host_of, host_before_last_colon.
  rewrite (split_on_single ":" h p Hh Hp). split; [done|].
  simpl. by destruct h.
Qed.

Lemma parsed_hosts line r :
  parse_log_line line = Ok (Some r) →
  ∃ groups g3 g4,
    re_match elb_pattern line = Some groups
    ∧ groups !! 3%nat = Some g3 ∧ groups !! 4%nat = Some g4
    ∧ host_of g3 = Ok (client_ip r)
    ∧ (g4 = "-" → target_ip r = None)
    ∧ (g4 ≠ "-" → ∃ h, target_ip r = Some h ∧ host_of g4 = Ok h).
Proof.
  intros (groups & Hm & Hr)%parse_log_line_inv.
  destruct Hr as (_ & (g3 & H3 & Hc) & (g4 & H4 & Ht) & _).
  exists groups, g3, g4. repeat (split; [done|]).
  unfold neq_str in Ht. destruct (String.eqb_spec g4 "-") as [->|Hne];
    simpl in Ht.
  - split; [intros _; congruence | done].
  - split; [done|]. intros _.
    apply bind_ok in Ht as (h & Hh & [= <-]). by exists h.
Qed.

(** C5.  The parser does not keep the host of a field whose host holds a
    colon.  For the client field [2001:db8::1:5000] it stores [2001]
    under [client_ip], the part before the first colon, where the host,
    the part before the last colon, is [2001:db8::1].  On a field with
    one colon only, as the format comment of the source has it
    ([client:port], [target:port]), the parser keeps the host; what it
    stores is always [g.split(':')[0]] of the field, and a [-] in the
    backend field gives an absent backend host. *)
Theorem client_host_of_ipv6_line :
  parse_log_line ipv6_client_line
  = Ok (Some {| timestamp := "2023-12-15T10:33:05.123456Z";
                client_ip := "2001";
                target_ip := Some "10.0.1.7";
                request_processing_time := Fin (1 # 4);
                backend_processing_time := Fin (1 # 2);
                response_processing_time := Fin (1 # 8);
                elb_status_code := Some 200;
                backend_status_code := Some 200;
                received_bytes := 100;
                sent_bytes := 250;
                request := "GET /cart/ HTTP/1.1";
                user_agent := "Mozilla/5.0 (Macintosh)";
                ssl_cipher := "ECDHE-RSA-AES128";
                ssl_protocol := "TLSv1.2" |})
  ∧ host_of "2001:db8::1:5000" = Ok "2001"
  ∧ host_before_last_colon "2001:db8::1:5000" = "2001:db8::1"
  ∧ (∀ h p, contains ":" h = false → contains ":" p = false →
       host_of (h +:+ String ":" p) = Ok h
       ∧ host_before_last_colon (h +:+ String ":" p) = h)
  ∧ (∀ line r, parse_log_line line = Ok (Some r) →
       ∃ groups g3 g4,
         re_match elb_pattern line = Some groups
         ∧ groups !! 3%nat = Some g3 ∧ groups !! 4%nat = Some g4
         ∧ host_of g3 = Ok (client_ip r)
         ∧ (g4 = "-" → target_ip r = None)
         ∧ (g4 ≠ "-" → ∃ h, target_ip r = Some h ∧ host_of g4 = Ok h)).
Proof.
  split; [by vm_compute|]. split; [by vm_compute|]. split; [by vm_compute|].
  split; [exact host_of_single_colon | exact parsed_hosts].
Qed.

(** ** The ingestion loop *)

Lemma parse_log_line_parsed line : parse_log_line line = Ok (parsed line).
Proof.
  unfold parsed. by destruct (parse_log_line_total line) as [->|[r ->]].
Qed.


Lemma record_entry_extend st line :
  record_entry st (parsed line) = extend st [line].
Proof.
  unfold record_entry, extend, entries. simpl.
  destruct (analyzable (parsed line)) as [[e code]|] eqn:Ha; simpl.
  - assert (backend_status_code e = Some code) as Hcode.
    { unfold analyzable in Ha. repeat case_match; simplify_eq. done. }
    unfold checkout_of.
    destruct (request_url (request e)) as [u|]; simpl.
    + destruct (is_checkout_related u); simpl.
      * rewrite filter_cons, filter_nil.
        unfold is_server_error, status_of; simpl. rewrite Hcode; simpl.
        unfold add_error, add_checkout, add_request, count_line.
        destruct (500 <=? code); simpl; rewrite ?app_nil_r; f_equal; lia.
      * unfold add_request, count_line; simpl.
        rewrite !app_nil_r. f_equal; lia.
    + unfold add_request, count_line; simpl.
      rewrite !app_nil_r. f_equal; lia.
  - unfold count_line. rewrite !app_nil_r. f_equal; lia.
Qed.

Lemma entries_app l1 l2 : entries (l1 ++ l2) = entries l1 ++ entries l2.
Proof. unfold entries. apply omap_app. Qed.

Lemma extend_extend st l1 l2 :
  extend (extend st l1) l2 = extend st (l1 ++ l2).
Proof.
  unfold extend; simpl.
  rewrite entries_app, omap_app, filter_app, !length_app, !app_assoc.
  f_equal; lia.
Qed.

Lemma ingest_all_extend st lines : ingest_all st lines = Ok (extend st lines).
Proof.
  revert st. induction lines as [|line lines IH]; intros st; simpl.
  - unfold extend; simpl. rewrite !app_nil_r. destruct st; simpl.
    f_equal. f_equal; lia.
  - unfold ingest. rewrite parse_log_line_parsed. cbn.
    rewrite record_entry_extend, IH, extend_extend. done.
Qed.

(** The loop never fails, and its three lists are the analyzable
    entries, the checkout requests among them, and the server errors
    among these. *)
Lemma analyze_logs_extend lines :
  analyze_logs lines = Ok (extend empty_analysis lines).
Proof. apply ingest_all_extend. Qed.

(** ** Counting tables *)

Section TallyFacts.
Context {A V : Type} `{Countable K}.
Variable update : A → V → V.
Variable zero : V.
Variable key : A → K.

Lemma tally_app l1 l2 m :
  tally update zero key (l1 ++ l2) m
  = tally update zero key l2 (tally update zero key l1 m).
Proof. apply foldl_app. Qed.

Lemma tally_lookup l m k :
  tally update zero key l m !! k
  = match filter (fun x => key x = k) l with
    | [] => m !! k
    | lk => Some (foldl (fun v x => update x v) (default zero (m !! k)) lk)
    end.
Proof.
  revert m. induction l as [|x l IH]; intros m; [done|].
  change (tally update zero key (x :: l) m)
    with (tally update zero key l (tally_step update zero key m x)).
  rewrite IH, filter_cons. unfold tally_step.
  destruct (decide (key x = k)) as [<-|Hne].
  - rewrite lookup_insert_eq. simpl.
    by destruct (filter _ l).
  - by rewrite lookup_insert_ne.
Qed.
End TallyFacts.

Lemma count_by_app {A} `{EqDecision K} (key : A → K) k l1 l2 :
  count_by key k (l1 ++ l2) = (count_by key k l1 + count_by key k l2)%nat.
Proof. unfold count_by. by rewrite filter_app, length_app. Qed.

Lemma foldl_incr_total {A} (l : list A) b :
  foldl (fun v x => incr_total x v) b l
  = {| total := total b + length l; checkout := checkout b;
       errors := errors b |}%nat.
Proof.
  revert b. induction l as [|x l IH]; intros b; simpl.
  - destruct b; simpl. f_equal; lia.
  - rewrite IH. simpl. f_equal; lia.
Qed.

Lemma foldl_incr_checkout {A} (l : list A) b :
  foldl (fun v x => incr_checkout x v) b l
  = {| total := total b; checkout := checkout b + length l;
       errors := errors b |}%nat.
Proof.
  revert b. induction l as [|x l IH]; intros b; simpl.
  - destruct b; simpl. f_equal; lia.
  - rewrite IH. simpl. f_equal; lia.
Qed.

Lemma foldl_incr_errors {A} (l : list A) b :
  foldl (fun v x => incr_errors x v) b l
  = {| total := total b; checkout := checkout b;
       errors := errors b + length l |}%nat.
Proof.
  revert b. induction l as [|x l IH]; intros b; simpl.
  - destruct b; simpl. f_equal; lia.
  - rewrite IH. simpl. f_equal; lia.
Qed.

(** A bucket holds the number of requests, checkout requests and
    checkout errors filed under its key. *)
Lemma bucket_stats_lookup key st k :
  bucket_stats key st !! k
  = bucket_of (count_by key k (all_requests st))
      (count_by (key ∘ entry) k (checkout_requests st))
      (count_by (key ∘ entry) k (checkout_errors st)).
Proof.
  unfold bucket_stats, count_by. rewrite !tally_lookup, lookup_empty.
  destruct (filter _ (all_requests st)) as [|a la];
    destruct (filter _ (checkout_requests st)) as [|c lc];
    destruct (filter _ (checkout_errors st)) as [|e le];
    rewrite ?foldl_incr_total, ?foldl_incr_checkout, ?foldl_incr_errors;
    try reflexivity; unfold bucket_of; cbn -[Nat.add];
    rewrite ?foldl_incr_total, ?foldl_incr_checkout, ?foldl_incr_errors;
    cbn -[Nat.add]; repeat f_equal; lia.
Qed.

Lemma total_at_bucket_stats key st k :
  total_at (bucket_stats key st) k = count_by key k (all_requests st).
Proof.
  unfold total_at. rewrite bucket_stats_lookup. unfold bucket_of.
  destruct (_ =? 0)%nat eqn:Hz; simpl; [|done].
  apply Nat.eqb_eq in Hz. lia.
Qed.

(** ** Totals *)

Lemma overall_summary_counts st :
  ∃ s, analyze_overall_summary st = Ok s
       ∧ total_requests s = length (all_requests st)
       ∧ total_checkout_requests s = length (checkout_requests st)
       ∧ total_checkout_errors s = length (checkout_errors st).
Proof.
  unfold analyze_overall_summary.
  destruct (length (checkout_requests st)) as [|c] eqn:Hc; simpl.
  - eexists; split; [reflexivity|]. simpl. done.
  - destruct (length (all_requests st)) as [|t] eqn:Ht; cbn;
      rewrite ?Ht; cbn; eexists; (split; [reflexivity|]); simpl; done.
Qed.

Lemma entries_singleton_analyzable line r code :
  parse_log_line line = Ok (Some r) →
  backend_status_code r = Some code → code ≠ 0 →
  entries [line] = [r].
Proof.
  intros Hr Hcode Hne. unfold entries, parsed; simpl. rewrite Hr; simpl.
  rewrite Hcode. apply Z.eqb_neq in Hne. by rewrite Hne.
Qed.

Lemma entries_singleton_skipped line r :
  parse_log_line line = Ok (Some r) →
  backend_status_code r = None ∨ backend_status_code r = Some 0 →
  entries [line] = [].
Proof.
  intros Hr Hcode. unfold entries, parsed; simpl. rewrite Hr; simpl.
  by destruct Hcode as [-> | ->].
Qed.

Lemma extend_no_entries st l :
  entries l = [] →
  all_requests (extend st l) = all_requests st
  ∧ checkout_requests (extend st l) = checkout_requests st
  ∧ checkout_errors (extend st l) = checkout_errors st.
Proof. unfold extend. intros ->. simpl. by rewrite !app_nil_r. Qed.

Lemma count_by_self {A} `{EqDecision K} (key : A → K) x :
  count_by key (key x) [x] = 1%nat.
Proof. unfold count_by. rewrite filter_cons, decide_True by done. done. Qed.

(** C1 as the code has it.  A parsed record with a backend status other
    than zero -- checkout-related or not -- adds one to the total number
    of requests and to the totals of its date and of its hour; a record
    without a backend status (or with status 0) is counted in none of
    them, so the denominator of the checkout-traffic percentage is the
    number of analyzable requests. *)
Theorem totals_count_analyzable_only
    (lines : list string) (line : string) (r : log_entry) :
  parse_log_line line = Ok (Some r) →
  ∃ st st' s s',
    analyze_logs lines = Ok st ∧ analyze_logs (lines ++ [line]) = Ok st'
    ∧ analyze_overall_summary st = Ok s
    ∧ analyze_overall_summary st' = Ok s'
    ∧ (∀ code, backend_status_code r = Some code → code ≠ 0 →
         total_requests s' = S (total_requests s)
         ∧ total_at (daily_stats st') (date_of r)
           = S (total_at (daily_stats st) (date_of r))
         ∧ total_at (hourly_stats st') (hour_of r)
           = S (total_at (hourly_stats st) (hour_of r)))
    ∧ (backend_status_code r = None ∨ backend_status_code r = Some 0 →
         total_requests s' = total_requests s
         ∧ daily_stats st' = daily_stats st
         ∧ hourly_stats st' = hourly_stats st).
Proof.
  intros Hr.
  set (st := extend empty_analysis lines).
  set (st' := extend empty_analysis (lines ++ [line])).
  destruct (overall_summary_counts st) as (s & Hs & Htot & _).
  destruct (overall_summary_counts st') as (s' & Hs' & Htot' & _).
  exists st, st', s, s'.
  split; [apply analyze_logs_extend|]. split; [apply analyze_logs_extend|].
  split; [done|]. split; [done|].
  assert (st' = extend st [line]) as Hst' by (symmetry; apply extend_extend).
  split.
  - intros code Hcode Hne.
    pose proof (entries_singleton_analyzable _ _ _ Hr Hcode Hne) as He.
    assert (all_requests st' = all_requests st ++ [r]) as Hall.
    { rewrite Hst', <- He. reflexivity. }
    split; [|split].
    + rewrite Htot, Htot', Hall, length_app. simpl. lia.
    + unfold daily_stats. rewrite !total_at_bucket_stats, Hall, count_by_app.
      rewrite count_by_self. lia.
    + unfold hourly_stats. rewrite !total_at_bucket_stats, Hall, count_by_app.
      rewrite count_by_self. lia.
  - intros Hcode. pose proof (entries_singleton_skipped _ _ Hr Hcode) as He.
    assert (all_requests st' = all_requests st
            ∧ checkout_requests st' = checkout_requests st
            ∧ checkout_errors st' = checkout_errors st) as (Ha & Hc & He').
    { rewrite Hst'. by apply extend_no_entries. }
    split; [by rewrite Htot, Htot', Ha|].
    unfold daily_stats, hourly_stats, bucket_stats.
    by rewrite Ha, Hc, He'.
Qed.

Lemma totals_count_analyzable_only_witness :
  (∃ st st' s s',
     analyze_logs [home_line] = Ok st
     ∧ analyze_logs ([home_line] ++ [no_backend_line]) = Ok st'
     ∧ analyze_overall_summary st = Ok s
     ∧ analyze_overall_summary st' = Ok s'
     ∧ total_requests s' = total_requests s)
  ∧ (∃ st st' s s',
       analyze_logs [no_backend_line] = Ok st
       ∧ analyze_logs ([no_backend_line] ++ [home_line]) = Ok st'
       ∧ analyze_overall_summary st = Ok s
       ∧ analyze_overall_summary st' = Ok s'
       ∧ total_requests s' = S (total_requests s)).
Proof.
  split.
  - destruct (parse_log_line no_backend_line) as [[r|]|] eqn:Hr;
      try (vm_compute in Hr; discriminate).
    destruct (totals_count_analyzable_only [home_line] no_backend_line r Hr)
      as (st & st' & s & s' & Hst & Hst' & Hs & Hs' & _ & Hskip).
    exists st, st', s, s'. repeat (split; [assumption|]).
    apply Hskip. left. vm_compute in Hr. by injection Hr as <-.
  - destruct (parse_log_line home_line) as [[r|]|] eqn:Hr;
      try (vm_compute in Hr; discriminate).
    destruct (totals_count_analyzable_only [no_backend_line] home_line r Hr)
      as (st & st' & s & s' & Hst & Hst' & Hs & Hs' & Hcount & _).
    exists st, st', s, s'. repeat (split; [assumption|]).
    apply (Hcount 200); [|discriminate].
    vm_compute in Hr. by injection Hr as <-.
Defined.

(** C1 as the specification has it fails: a line that parses to a record
    without backend status leaves the total number of requests at 0 and
    creates no date or hour bucket. *)
Lemma totals_skip_unanalyzable_counterexample :
  parse_log_line no_backend_line
  = Ok (Some {| timestamp := "2023-12-15T10:33:05.123456Z";
                client_ip := "10.0.0.1";
                target_ip := None;
                request_processing_time := Fin (-1);
                backend_processing_time := Fin (-1);
                response_processing_time := Fin (-1);
                elb_status_code := Some 504;
                backend_status_code := None;
                received_bytes := 100;
                sent_bytes := 250;
                request := "GET /checkout/payment HTTP/1.1";
                user_agent := "Mozilla/5.0 (Macintosh)";
                ssl_cipher := "ECDHE-RSA-AES128";
                ssl_protocol := "TLSv1.2" |})
  ∧ analyze_logs [no_backend_line] = Ok one_line_no_request
  ∧ analyze_overall_summary one_line_no_request
    = Ok {| total_requests := 0; total_checkout_requests := 0;
            total_checkout_errors := 0; checkout_error_rate := 0;
            checkout_traffic_pct := 0 |}
  ∧ daily_stats one_line_no_request = ∅
  ∧ hourly_stats one_line_no_request = ∅.
Proof. by vm_compute. Qed.

(** ** Latency samples *)

Lemma collect_times_filter reqs :
  collect_times reqs
  = filter (fun t => Num.gtb t Num.zero = true) (total_time <$> reqs).
Proof.
  unfold collect_times.
  enough (∀ acc, foldl (fun times req =>
                          let t := total_time req in
                          if Num.gtb t Num.zero then times ++ [t] else times)
                   acc reqs
                 = acc ++ filter (fun t => Num.gtb t Num.zero = true)
                            (total_time <$> reqs)) as Hgen by apply Hgen.
  induction reqs as [|req reqs IH]; intros acc; cbn [foldl].
  - by rewrite app_nil_r.
  - rewrite IH, fmap_cons, filter_cons.
    destruct (Num.gtb (total_time req) Num.zero) eqn:Hpos.
    + rewrite decide_True by done. by rewrite <- app_assoc.
    + rewrite decide_False by (by intros ?). done.
Qed.

Lemma success_times_spec st t :
  t ∈ success_times st ↔
  ∃ c, c ∈ checkout_requests st ∧ status_of c < 400
       ∧ t = total_time c ∧ positive t.
Proof.
  unfold success_times, successful_requests, is_successful, positive.
  rewrite collect_times_filter, list_elem_of_filter, list_elem_of_fmap.
  split.
  - intros (Hpos & c & -> & [Hc Hin]%list_elem_of_filter).
    exists c. apply Z.ltb_lt in Hc. done.
  - intros (c & Hin & Hc & -> & Hpos). split; [done|].
    exists c. split; [done|]. apply list_elem_of_filter.
    split; [by apply Z.ltb_lt | done].
Qed.

Lemma checkout_requests_extend lines c :
  c ∈ checkout_requests (extend empty_analysis lines) ↔
  ∃ line r code u,
    line ∈ lines ∧ parse_log_line line = Ok (Some r)
    ∧ backend_status_code r = Some code ∧ code ≠ 0
    ∧ request_url (request r) = Some u ∧ is_checkout_related u = true
    ∧ c = classify r u.
Proof.
  unfold extend; simpl. rewrite list_elem_of_omap. unfold entries. split.
  - intros (r & (line & Hline & Hr)%list_elem_of_omap & Hc).
    unfold parsed in Hr. pose proof (parse_log_line_parsed line) as Hp.
    unfold parsed in Hp.
    destruct (parse_log_line line) as [[r'|]|] eqn:Hparse; try done.
    simpl in Hr. destruct (backend_status_code r') as [code|] eqn:Hcode;
      [|done].
    destruct (Z.eqb_spec code 0) as [|Hne]; [done|]. simpl in Hr.
    injection Hr as <-.
    unfold checkout_of in Hc.
    destruct (request_url (request r')) as [u|] eqn:Hu; [|done].
    destruct (is_checkout_related u) eqn:Hrel; [|done].
    injection Hc as <-. by exists line, r', code, u.
  - intros (line & r & code & u & Hline & Hr & Hcode & Hne & Hu & Hrel & ->).
    exists r. split.
    + apply list_elem_of_omap. exists line. split; [done|].
      unfold parsed. rewrite Hr. simpl. rewrite Hcode.
      apply Z.eqb_neq in Hne. by rewrite Hne.
    + unfold checkout_of. by rewrite Hu, Hrel.
Qed.

Lemma binary64_collect_times_omap reqs :
  Binary64.collect_times reqs
  = omap (fun c => let t := Binary64.total_time c in
                   if Binary64.gtb t Binary64.zero then Some t else None)
         reqs.
Proof.
  unfold Binary64.collect_times.
  enough (∀ acc,
            foldl (fun times req =>
                     let t := Binary64.total_time req in
                     if Binary64.gtb t Binary64.zero then times ++ [t]
                     else times) acc reqs
            = acc ++ omap (fun c => let t := Binary64.total_time c in
                                    if Binary64.gtb t Binary64.zero
                                    then Some t else None) reqs)
    as Hgen by apply Hgen.
  induction reqs as [|req reqs IH]; intros acc; cbn [foldl].
  - by rewrite app_nil_r.
  - rewrite IH. csimpl.
    destruct (Binary64.gtb (Binary64.total_time req) Binary64.zero).
    + by rewrite <- app_assoc.
    + done.
Qed.

Lemma binary64_success_times_samples st :
  Binary64.success_times st = omap success_sample (checkout_requests st).
Proof.
  unfold Binary64.success_times, successful_requests.
  rewrite binary64_collect_times_omap.
  induction (checkout_requests st) as [|c l IH]; [done|].
  rewrite filter_cons. unfold is_successful at 1.
  change (omap success_sample (c :: l))
    with (match success_sample c with
          | Some t => t :: omap success_sample l
          | None => omap success_sample l
          end).
  unfold success_sample at 1. cbv zeta.
  destruct (decide (_ = true)) as [Hc|Hc].
  - rewrite Hc. rewrite <- IH. csimpl.
    by destruct (Binary64.gtb (Binary64.total_time c) Binary64.zero).
  - apply not_true_is_false in Hc. rewrite Hc. exact IH.
Qed.

(** C2 as the code has it.  The checkout requests are the
    checkout-related analyzable records in the order of their lines, and
    the success-latency samples are made from them one by one, in that
    order: a request whose backend status is below 400 and whose
    combined latency, the binary64 sum of its three latencies, is
    positive adds that latency, each time it occurs; every other request
    adds nothing.  A request with a status from 400 to 499 adds no
    sample and is no error either: the errors are the requests with a
    status of 500 or more. *)
Theorem success_samples_are_below_400 (lines : list string) :
  ∃ st, analyze_logs lines = Ok st
  ∧ checkout_requests st = omap checkout_of (entries lines)
  ∧ Binary64.success_times st = omap success_sample (checkout_requests st)
  ∧ (∀ c, status_of c < 400 →
          Binary64.gtb (Binary64.total_time c) Binary64.zero = true →
          success_sample c = Some (Binary64.total_time c))
  ∧ (∀ c, 400 ≤ status_of c → success_sample c = None)
  ∧ (∀ c, Binary64.gtb (Binary64.total_time c) Binary64.zero = false →
          success_sample c = None)
  ∧ (∀ c, c ∈ checkout_errors st
          ↔ c ∈ checkout_requests st ∧ 500 ≤ status_of c).
Proof.
  exists (extend empty_analysis lines).
  split; [apply analyze_logs_extend|].
  split; [reflexivity|].
  split; [apply binary64_success_times_samples|].
  split; [|split; [|split]].
  - intros c Hc Hpos. unfold success_sample. cbv zeta.
    apply Z.ltb_lt in Hc. by rewrite Hc, Hpos.
  - intros c Hc. unfold success_sample. cbv zeta.
    apply Z.ltb_ge in Hc. by rewrite Hc.
  - intros c Hc. unfold success_sample. cbv zeta.
    rewrite Hc. by rewrite andb_false_r.
  - intros c. unfold extend; simpl. rewrite list_elem_of_filter.
    unfold is_server_error. rewrite Z.leb_le. tauto.
Qed.

Lemma success_samples_are_below_400_witness :
  ∃ st, analyze_logs [unmeasured_line; not_found_line; unmeasured_line]
        = Ok st
        ∧ Binary64.success_times st
          = [Binary64.of_ratio 13 4; Binary64.of_ratio 13 4].
Proof.
  destruct (success_samples_are_below_400
              [unmeasured_line; not_found_line; unmeasured_line])
    as (st & Hst & Hreqs & Htimes & _).
  exists st. split; [exact Hst|].
  rewrite Htimes, Hreqs. vm_compute. reflexivity.
Defined.

(** C2 as the specification has it fails: a checkout request answered
    with 404 is not an error (404 < 500) and has the positive combined
    latency 0.875, yet the success samples stay empty. *)
Lemma success_samples_counterexample :
  report (fun st => (status_of <$> checkout_requests st,
                     is_server_error <$> checkout_requests st,
                     Binary64.total_time <$> checkout_requests st,
                     (fun c => Binary64.gtb (Binary64.total_time c)
                                 Binary64.zero) <$> checkout_requests st,
                     Binary64.success_times st))
         [not_found_line]
  = Some ([404], [false], [Binary64.of_ratio 7 8], [true], []).
Proof. vm_compute. reflexivity. Qed.

(** The samples are the rounded sums: the latencies 0.064, -1 and 0.936
    add up to the float 2^-53, which is sampled, and the latencies
    1e-20, -1 and 1 add up to 0, which is not. *)
Lemma samples_are_rounded_sums :
  report (fun st => (Binary64.total_time <$> checkout_requests st,
                     Binary64.success_times st))
         [rounded_sum_line; absorbed_sum_line]
  = Some ([Binary64.of_ratio 1 9007199254740992; Binary64.zero],
          [Binary64.of_ratio 1 9007199254740992]).
Proof. vm_compute. reflexivity. Qed.

(** [float(str)] gives the float nearest to the literal: 0.1 is
    7205759403792794 * 2^-56, a literal beyond the range is an
    infinity, one below it is zero, and what is no literal raises. *)
Lemma float_literals :
  Binary64.py_float "0.1"
  = Ok (SpecFloat.S754_finite false 7205759403792794 (-56))
  ∧ Binary64.py_float "1e23"
    = Ok (SpecFloat.S754_finite false 5960464477539062 24)
  ∧ Binary64.py_float "-1e400" = Ok (SpecFloat.S754_infinity true)
  ∧ Binary64.py_float "1e-400" = Ok (SpecFloat.S754_zero false)
  ∧ Binary64.py_float "NaN" = Ok SpecFloat.S754_nan
  ∧ Binary64.py_float "fast" = Raise ValueError.
Proof. repeat split; vm_compute; reflexivity. Qed.

(** ** Positive samples, averages and maxima *)

Lemma positive_Fin q : positive (Fin q) ↔ (0 < q)%Q.
Proof.
  unfold positive, Num.gtb, Num.ltb, Num.zero, Num.of_Z.
  rewrite negb_true_iff, <- not_true_iff_false, Qle_bool_iff.
  change (inject_Z 0) with 0%Q.
  split; [apply Qnot_le_lt | apply Qlt_not_le].
Qed.

Lemma positive_inv t : positive t → t = PInf ∨ ∃ q, t = Fin q ∧ (0 < q)%Q.
Proof.
  destruct t as [q| | |]; try discriminate.
  - intros Hq%positive_Fin. right. by exists q.
  - by left.
Qed.

Lemma positive_add a b : positive a → positive b → positive (Num.add a b).
Proof.
  intros [->|(x & -> & Hx)]%positive_inv [->|(y & -> & Hy)]%positive_inv;
    try reflexivity.
  simpl. apply positive_Fin. rewrite Qred_correct. lra.
Qed.

Lemma positive_add_zero t : positive t → positive (Num.add Num.zero t).
Proof.
  intros [->|(x & -> & Hx)]%positive_inv; [reflexivity|].
  simpl. apply positive_Fin. rewrite Qred_correct.
  change (inject_Z 0) with 0%Q. lra.
Qed.

Lemma positive_foldl_add l acc :
  positive acc → Forall positive l → positive (foldl Num.add acc l).
Proof.
  intros Hacc Hl. revert acc Hacc.
  induction Hl as [|t l Ht Hl IH]; intros acc Hacc; simpl; [done|].
  apply IH. by apply positive_add.
Qed.

Lemma positive_py_sum t l : Forall positive (t :: l) → positive (py_sum (t :: l)).
Proof.
  intros [Ht Hl]%Forall_cons. unfold py_sum; simpl.
  apply positive_foldl_add; [by apply positive_add_zero | done].
Qed.

Lemma positive_div_nat t n : positive t → positive (Num.div_nat t (S n)).
Proof.
  intros [->|(x & -> & Hx)]%positive_inv; [reflexivity|].
  simpl. apply positive_Fin. rewrite Qred_correct.
  apply Qlt_shift_div_l; [|lra].
  unfold Qlt; simpl. lia.
Qed.

Lemma py_max_elem first rest : py_max first rest ∈ first :: rest.
Proof.
  unfold py_max. revert first. induction rest as [|x rest IH]; intros first.
  - apply list_elem_of_here.
  - simpl. destruct (Num.gtb x first).
    + apply list_elem_of_further, IH.
    + specialize (IH first). apply elem_of_cons in IH as [->|IH].
      * apply list_elem_of_here.
      * by do 2 apply list_elem_of_further.
Qed.

Lemma collect_times_positive reqs : Forall positive (collect_times reqs).
Proof.
  rewrite collect_times_filter. apply Forall_forall.
  by intros t [Ht _]%list_elem_of_filter.
Qed.

Lemma summarize_positive times s :
  Forall positive times → s = summarize times →
  samples s = times
  ∧ (∀ a, average s = Some a → positive a)
  ∧ (∀ m, maximum s = Some m → positive m).
Proof.
  intros Hpos ->. destruct times as [|t rest]; simpl.
  - repeat split; discriminate.
  - repeat split.
    + intros a [= <-]. apply (positive_div_nat _ (length rest)).
      by apply positive_py_sum.
    + intros m [= <-]. eapply Forall_forall; [exact Hpos|]. apply py_max_elem.
Qed.

Lemma parse_latency_cases g t :
  parse_latency g = Ok t →
  (g = "-1" ∧ t = Num.of_Z (-1)) ∨ (g ≠ "-1" ∧ py_float g = Ok t).
Proof.
  unfold parse_latency, neq_str.
  destruct (String.eqb_spec g "-1") as [->|Hne]; simpl.
  - intros [= <-]. by left.
  - intros Ht. by right.
Qed.

(** C4 as the code has it.  The sentinel [-1] in a latency field is read
    as the number -1, not as a parse failure; any other latency field is
    the number [float] reads, with no test of its sign.  Every value of
    the success and error latency samples is strictly positive, and so
    are the averages and maxima computed from them. *)
Theorem latency_sentinel_and_positive_samples :
  parse_latency "-1" = Ok (Num.of_Z (-1))
  ∧ (∀ line r, parse_log_line line = Ok (Some r) →
       ∃ groups g5 g6 g7,
         re_match elb_pattern line = Some groups
         ∧ groups !! 5%nat = Some g5 ∧ groups !! 6%nat = Some g6
         ∧ groups !! 7%nat = Some g7
         ∧ ((g5 = "-1" ∧ request_processing_time r = Num.of_Z (-1))
            ∨ (g5 ≠ "-1" ∧ py_float g5 = Ok (request_processing_time r)))
         ∧ ((g6 = "-1" ∧ backend_processing_time r = Num.of_Z (-1))
            ∨ (g6 ≠ "-1" ∧ py_float g6 = Ok (backend_processing_time r)))
         ∧ ((g7 = "-1" ∧ response_processing_time r = Num.of_Z (-1))
            ∨ (g7 ≠ "-1" ∧ py_float g7 = Ok (response_processing_time r))))
  ∧ (∀ st t, t ∈ success_times st ∨ t ∈ error_times st → positive t)
  ∧ (∀ st p s, analyze_performance_correlation st = Some p →
       success p = Some s ∨ error p = Some s →
       (∀ t, t ∈ samples s → positive t)
       ∧ (∀ a, average s = Some a → positive a)
       ∧ (∀ m, maximum s = Some m → positive m)).
Proof.
  split; [reflexivity|]. split; [|split].
  - intros line r (groups & Hm & Hr)%parse_log_line_inv.
    destruct Hr as (_ & _ & _ & (g5 & H5 & P5) & (g6 & H6 & P6)
      & (g7 & H7 & P7) & _).
    exists groups, g5, g6, g7. repeat (split; [done|]).
    split; [|split]; by apply parse_latency_cases.
  - intros st t [Ht|Ht]; eapply Forall_forall; try exact Ht;
      apply collect_times_positive.
  - intros st p s Hp Hs. unfold analyze_performance_correlation in Hp.
    destruct (checkout_requests st) as [|c cs] eqn:Hcs; [discriminate|].
    injection Hp as <-. simpl in Hs.
    assert (∃ reqs, s = summarize (collect_times reqs)) as [reqs Hsum].
    { destruct Hs as [Hs|Hs].
      - destruct (successful_requests st) eqn:Hsucc; [discriminate|].
        injection Hs as <-. unfold success_times. rewrite Hsucc. eauto.
      - destruct (checkout_errors st) eqn:Herr; [discriminate|].
        injection Hs as <-. unfold error_times. rewrite Herr. eauto. }
    destruct (summarize_positive _ _ (collect_times_positive reqs) Hsum)
      as (Hsamples & Havg & Hmax).
    split; [|done]. intros t Ht. rewrite Hsamples in Ht.
    eapply Forall_forall; [apply collect_times_positive | exact Ht].
Qed.

Lemma latency_sentinel_and_positive_samples_witness :
  ∃ st, analyze_logs [unmeasured_line] = Ok st
        ∧ success_times st = [Fin (13 # 4)] ∧ positive (Fin (13 # 4)).
Proof.
  destruct (analyze_logs [unmeasured_line]) as [st|] eqn:Hst;
    [|vm_compute in Hst; discriminate].
  exists st. split; [reflexivity|].
  assert (success_times st = [Fin (13 # 4)]) as Htimes
    by (vm_compute in Hst; injection Hst as <-; by vm_compute).
  split; [exact Htimes|].
  apply (proj1 (proj2 (proj2 latency_sentinel_and_positive_samples)) st).
  left. rewrite Htimes. apply list_elem_of_here.
Defined.

(** C4 as the specification has it fails: the latency field [-2.5] is
    read as the negative number -2.5, which is neither a non-negative
    duration nor the sentinel -1. *)
Lemma negative_latency_counterexample :
  parse_log_line negative_latency_line
  = Ok (Some {| timestamp := "2023-12-15T10:33:05.123456Z";
                client_ip := "10.0.0.1";
                target_ip := Some "10.0.1.7";
                request_processing_time := Fin (-5 # 2);
                backend_processing_time := Fin (1 # 2);
                response_processing_time := Fin (1 # 8);
                elb_status_code := Some 200;
                backend_status_code := Some 200;
                received_bytes := 100;
                sent_bytes := 250;
                request := "GET /checkout/cart HTTP/1.1";
                user_agent := "Mozilla/5.0 (Macintosh)";
                ssl_cipher := "ECDHE-RSA-AES128";
                ssl_protocol := "TLSv1.2" |})
  ∧ Num.ltb (Fin (-5 # 2)) Num.zero = true
  ∧ Fin (-5 # 2) ≠ Num.of_Z (-1).
Proof. by vm_compute. Qed.

(** ** Errors are counted among the requests *)

Lemma foldl_count_request l v :
  foldl (fun v x => count_request x v) v l
  = {| requests := requests v + length l; funnel_errors := funnel_errors v;
       urls := urls v |}%nat.
Proof.
  revert v. induction l as [|x l IH]; intros v; simpl.
  - destruct v; simpl. f_equal; lia.
  - rewrite IH. simpl. f_equal; lia.
Qed.

Lemma foldl_count_error l v :
  foldl (fun v x => count_error x v) v l
  = {| requests := requests v;
       funnel_errors := funnel_errors v + length l;
       urls := tally incr 0%nat (clean_url ∘ url) l (urls v) |}%nat.
Proof.
  revert v. induction l as [|x l IH]; intros v; simpl.
  - destruct v; simpl. f_equal; lia.
  - rewrite IH. simpl. f_equal; lia.
Qed.

Lemma pattern_stats_lookup st k :
  pattern_stats st !! k
  = funnel_of (filter (fun c => pattern_category c = k) (checkout_requests st))
      (filter (fun c => pattern_category c = k) (checkout_errors st)).
Proof.
  unfold pattern_stats, funnel_of, url_counts.
  rewrite !tally_lookup, lookup_empty.
  destruct (filter _ (checkout_requests st)) as [|r lr];
    destruct (filter _ (checkout_errors st)) as [|e le]; try reflexivity;
    cbn -[Nat.add tally]; rewrite ?foldl_count_request, ?foldl_count_error;
    cbn -[Nat.add tally]; rewrite ?foldl_count_request, ?foldl_count_error;
    cbn -[Nat.add tally]; repeat f_equal; lia.
Qed.

Lemma foldl_stage_request {A} (l : list A) v :
  foldl (fun s (_ : A) => {| stage_requests := S (stage_requests s);
                             stage_errors := stage_errors s |}) v l
  = {| stage_requests := stage_requests v + length l;
       stage_errors := stage_errors v |}%nat.
Proof.
  revert v. induction l as [|x l IH]; intros v; simpl.
  - destruct v; simpl. f_equal; lia.
  - rewrite IH. simpl. f_equal; lia.
Qed.

Lemma foldl_stage_error {A} (l : list A) v :
  foldl (fun s (_ : A) => {| stage_requests := stage_requests s;
                             stage_errors := S (stage_errors s) |}) v l
  = {| stage_requests := stage_requests v;
       stage_errors := stage_errors v + length l |}%nat.
Proof.
  revert v. induction l as [|x l IH]; intros v; simpl.
  - destruct v; simpl. f_equal; lia.
  - rewrite IH. simpl. f_equal; lia.
Qed.

Lemma stage_stats_lookup st k :
  stage_stats st !! k
  = stage_of (count_by checkout_stage k (checkout_requests st))
      (count_by checkout_stage k (checkout_errors st)).
Proof.
  unfold stage_stats, stage_of, count_by.
  rewrite !tally_lookup, lookup_empty.
  destruct (filter _ (checkout_requests st)) as [|r lr];
    destruct (filter _ (checkout_errors st)) as [|e le]; try reflexivity;
    cbn -[Nat.add]; rewrite ?foldl_stage_request, ?foldl_stage_error;
    cbn -[Nat.add]; rewrite ?foldl_stage_request, ?foldl_stage_error;
    cbn -[Nat.add]; repeat f_equal; lia.
Qed.

Lemma filter_filter_length {A} (P Q : A → Prop)
    `{∀ x, Decision (P x)} `{∀ x, Decision (Q x)} (l : list A) :
  (length (filter P (filter Q l)) ≤ length (filter P l))%nat.
Proof.
  induction l as [|x l IH]; [done|].
  rewrite (filter_cons Q). destruct (decide (Q x)).
  - rewrite !filter_cons. destruct (decide (P x)); simpl; lia.
  - rewrite filter_cons. destruct (decide (P x)); simpl; lia.
Qed.

Lemma pos_of_nat_succ n : Z.pos (Pos.of_nat (S n)) = Z.of_nat (S n).
Proof. rewrite <- positive_nat_Z, Nat2Pos.id by done. done. Qed.

Lemma rate_at_most_100 e r q :
  (e ≤ r)%nat → py_truediv e r = Ok q → (times100 q <= 100)%Q.
Proof.
  intros Hle. destruct r as [|n]; simpl; [discriminate|]. intros [= <-].
  unfold times100. rewrite !Qred_correct.
  unfold Qle, Qmult. cbn [Qnum Qden]. rewrite Pos2Z.inj_mul.
  rewrite pos_of_nat_succ. lia.
Qed.

Lemma checkout_errors_extend lines :
  checkout_errors (extend empty_analysis lines)
  = filter (fun c => is_server_error c = true)
      (checkout_requests (extend empty_analysis lines)).
Proof. reflexivity. Qed.

(** C10. The checkout errors are the checkout requests with a status of
    500 or more, each with the labels it has as a request.  So in every
    bucket of the pattern-category table and of the funnel-stage table
    the error count is the number of such requests of the bucket and is
    at most its request count, the error rate is at most 100, and no
    bucket has zero requests: the branch of the pattern report that
    skips a bucket without requests never drops errors, and every
    bucket has its row in the report. *)
Theorem bucket_errors_within_requests (lines : list string) :
  ∃ st, analyze_logs lines = Ok st
  ∧ checkout_errors st
    = filter (fun c => is_server_error c = true) (checkout_requests st)
  ∧ (∀ category s, pattern_stats st !! category = Some s →
       requests s = count_by pattern_category category (checkout_requests st)
       ∧ funnel_errors s
         = count_by pattern_category category
             (filter (fun c => is_server_error c = true)
                (checkout_requests st))
       ∧ (funnel_errors s ≤ requests s)%nat
       ∧ (pattern_row s = None → funnel_errors s = 0%nat)
       ∧ ∃ rate status,
           pattern_row s = Some (Ok (rate, status))
           ∧ analyze_pattern_breakdown st !! category
             = Some (Ok (rate, status))
           ∧ (rate <= 100)%Q)
  ∧ (∀ stage s, stage_stats st !! stage = Some s →
       stage_requests s = count_by checkout_stage stage (checkout_requests st)
       ∧ stage_errors s
         = count_by checkout_stage stage
             (filter (fun c => is_server_error c = true)
                (checkout_requests st))
       ∧ (stage_errors s ≤ stage_requests s)%nat
       ∧ ∃ rate, stage_row s = Ok rate ∧ (rate <= 100)%Q).
Proof.
  exists (extend empty_analysis lines).
  split; [apply analyze_logs_extend|].
  split; [apply checkout_errors_extend|].
  set (st := extend empty_analysis lines).
  pose proof (checkout_errors_extend lines) as Herr. fold st in Herr.
  split.
  - intros category s Hs.
    assert (analyze_pattern_breakdown st !! category = pattern_row s)
      as Hrow.
    { unfold analyze_pattern_breakdown. by rewrite lookup_omap, Hs. }
    rewrite Hrow. clear Hrow. revert Hs.
    rewrite pattern_stats_lookup, Herr. unfold funnel_of.
    set (reqs := filter _ (checkout_requests st)).
    set (errs := filter _ (filter _ (checkout_requests st))).
    assert (length errs ≤ length reqs)%nat as Hle
      by apply filter_filter_length.
    destruct (_ =? 0)%nat eqn:Hz; [discriminate|]. intros [= <-]. simpl.
    apply Nat.eqb_neq in Hz.
    split; [done|]. split; [done|]. split; [done|].
    unfold pattern_row; simpl.
    destruct (length reqs) as [|n] eqn:Hn; [lia|]. simpl.
    split; [discriminate|].
    eexists _, _. split; [reflexivity|]. split; [reflexivity|].
    apply (rate_at_most_100 (length errs) (S n)); [lia | reflexivity].
  - intros stage s. rewrite stage_stats_lookup, Herr. unfold stage_of.
    set (r := count_by _ _ (checkout_requests st)).
    set (e := count_by _ _ (filter _ (checkout_requests st))).
    assert (e ≤ r)%nat as Hle by apply filter_filter_length.
    destruct (_ =? 0)%nat eqn:Hz; [discriminate|]. intros [= <-]. simpl.
    apply Nat.eqb_neq in Hz.
    split; [done|]. split; [done|]. split; [done|].
    unfold stage_row, guarded_rate; simpl.
    destruct r as [|n] eqn:Hn; [lia|]. simpl.
    eexists. split; [reflexivity|].
    apply (rate_at_most_100 e (S n)); [lia | reflexivity].
Qed.

Lemma bucket_errors_within_requests_witness :
  ∃ st s, analyze_logs [server_error_line; unmeasured_line] = Ok st
          ∧ pattern_stats st !! "Shopping Cart" = Some s
          ∧ (funnel_errors s ≤ requests s)%nat.
Proof.
  pose proof (bucket_errors_within_requests
                [server_error_line; unmeasured_line])
    as (st & Hst & _ & Hpattern & _).
  destruct (pattern_stats st !! "Shopping Cart") as [s|] eqn:Hs.
  - exists st, s. split; [exact Hst|]. split; [exact Hs|].
    apply (Hpattern "Shopping Cart" s Hs).
  - exfalso. vm_compute in Hst. injection Hst as <-.
    vm_compute in Hs. discriminate.
Defined.

(** ** The trend labels of the daily report *)

Section Binary64Range.
Import SpecFloat.









End Binary64Range.









(** The labels follow the rates as the floats they are.  The rate of 11
    errors in 40 requests is the float 27.500000000000004, and the next
    day, with 27 errors in 100 requests and the rate 27.0, is labelled
    BETTER.  The rate of 7 errors in 200 requests is the float
    3.5000000000000004, which after a day with 3 errors in 100 requests
    is labelled WORSE.  The rate of 3 errors in 350 requests,
    0.8571428571428572, is the float sum of 0.5 and the rate of 1 error
    in 280 requests, 0.35714285714285715, and is labelled STABLE after
    it. *)
Lemma trend_labels_of_rounded_rates :
  (map (fun r => (Binary64.row_error_rate r, Binary64.row_trend r))
     <$> Binary64.daily_rows (two_days 11 40 27 100) None
           (sorted_keys (two_days 11 40 27 100)))
  = Ok [ (Binary64.of_ratio 27500000000000004 1000000000000000, NoTrend);
         (Binary64.of_ratio 27 1, BETTER) ]
  ∧ (map (fun r => (Binary64.row_error_rate r, Binary64.row_trend r))
       <$> Binary64.daily_rows (two_days 3 100 7 200) None
             (sorted_keys (two_days 3 100 7 200)))
    = Ok [ (Binary64.of_ratio 3 1, NoTrend);
           (Binary64.of_ratio 35000000000000004 10000000000000000, WORSE) ]
  ∧ (map (fun r => (Binary64.row_error_rate r, Binary64.row_trend r))
       <$> Binary64.daily_rows (two_days 1 280 3 350) None
             (sorted_keys (two_days 1 280 3 350)))
    = Ok [ (Binary64.of_ratio 35714285714285715 100000000000000000, NoTrend);
           (Binary64.of_ratio 8571428571428572 10000000000000000, STABLE) ].
Proof. split; [|split]; vm_compute; reflexivity. Qed.

(** ** Merging the tables of two runs *)

Section FoldMerge.
Context {A V : Type}.
Variable update : A → V → V.
Variable zero : V.
Variable add : V → V → V.
Hypothesis update_add : ∀ x v w, add w (update x v) = update x (add w v).
Hypothesis add_zero : ∀ v, add v zero = v.

Lemma foldl_update_add l v w :
  foldl (fun v x => update x v) (add w v) l
  = add w (foldl (fun v x => update x v) v l).
Proof.
  revert v. induction l as [|x l IH]; intros v; simpl; [done|].
  by rewrite <- update_add, IH.
Qed.

Lemma foldl_update_app l1 l2 :
  foldl (fun v x => update x v) zero (l1 ++ l2)
  = add (foldl (fun v x => update x v) zero l1)
        (foldl (fun v x => update x v) zero l2).
Proof.
  rewrite foldl_app, <- foldl_update_add. by rewrite add_zero.
Qed.

Lemma tally_merge `{Countable K} (key : A → K) l1 l2 :
  tally update zero key (l1 ++ l2) ∅
  = sum_maps add (tally update zero key l1 ∅) (tally update zero key l2 ∅).
Proof.
  apply map_eq. intros k. unfold sum_maps.
  rewrite lookup_union_with, !tally_lookup, filter_app, lookup_empty.
  destruct (filter _ l1) as [|x1 f1] eqn:H1;
    destruct (filter _ l2) as [|x2 f2] eqn:H2; simpl; try reflexivity.
  - by rewrite app_nil_r.
  - f_equal. exact (foldl_update_app (x1 :: f1) (x2 :: f2)).
Qed.
End FoldMerge.

Lemma counter_merge {A} `{Countable K} (key : A → K) l1 l2 :
  tally incr 0%nat key (l1 ++ l2) ∅
  = sum_maps Nat.add (tally incr 0%nat key l1 ∅) (tally incr 0%nat key l2 ∅).
Proof. apply tally_merge; intros; unfold incr; lia. Qed.

Lemma sum_maps_bump `{Countable K} (k : K) (v w : gmap K nat) :
  sum_maps Nat.add w (<[k := S (default 0%nat (v !! k))]> v)
  = <[k := S (default 0%nat (sum_maps Nat.add w v !! k))]>
      (sum_maps Nat.add w v).
Proof.
  apply map_eq. intros j. unfold sum_maps.
  destruct (decide (k = j)) as [<-|Hne].
  - rewrite lookup_union_with, !lookup_insert_eq, lookup_union_with.
    destruct (w !! k), (v !! k); simpl; f_equal; lia.
  - by rewrite lookup_union_with, !lookup_insert_ne, lookup_union_with.
Qed.

Lemma sum_maps_empty_r `{Countable K} {V} (add : V → V → V) (m : gmap K V) :
  sum_maps add m ∅ = m.
Proof.
  apply map_eq. intros k. unfold sum_maps.
  rewrite lookup_union_with, lookup_empty. by destruct (m !! k).
Qed.

Lemma stage_errors_by_code_merge l1 l2 :
  tally (fun c codes => tally incr 0%nat status_of [c] codes) ∅
    checkout_stage (l1 ++ l2) ∅
  = sum_maps (sum_maps Nat.add)
      (tally (fun c codes => tally incr 0%nat status_of [c] codes) ∅
         checkout_stage l1 ∅)
      (tally (fun c codes => tally incr 0%nat status_of [c] codes) ∅
         checkout_stage l2 ∅).
Proof.
  apply tally_merge.
  - intros c v w. exact (sum_maps_bump (status_of c) v w).
  - intros v. apply sum_maps_empty_r.
Qed.

Lemma bucket_of_add t1 c1 e1 t2 c2 e2 :
  bucket_of (t1 + t2) (c1 + c2) (e1 + e2)
  = union_with (fun a b => Some (add_bucket a b))
      (bucket_of t1 c1 e1) (bucket_of t2 c2 e2).
Proof.
  unfold bucket_of.
  destruct (Nat.eqb_spec (t1 + c1 + e1) 0) as [Hz1|Hn1];
    destruct (Nat.eqb_spec (t2 + c2 + e2) 0) as [Hz2|Hn2];
    destruct (Nat.eqb_spec (t1 + t2 + (c1 + c2) + (e1 + e2)) 0) as [Hz|Hn];
    simpl; try lia; try reflexivity; unfold add_bucket; simpl;
    do 2 f_equal; lia.
Qed.

Lemma stage_of_add r1 e1 r2 e2 :
  stage_of (r1 + r2) (e1 + e2)
  = union_with (fun a b => Some (add_stage a b))
      (stage_of r1 e1) (stage_of r2 e2).
Proof.
  unfold stage_of.
  destruct (Nat.eqb_spec (r1 + e1) 0) as [Hz1|Hn1];
    destruct (Nat.eqb_spec (r2 + e2) 0) as [Hz2|Hn2];
    destruct (Nat.eqb_spec (r1 + r2 + (e1 + e2)) 0) as [Hz|Hn];
    simpl; try lia; try reflexivity; unfold add_stage; simpl;
    do 2 f_equal; lia.
Qed.

Lemma funnel_of_none reqs errs :
  funnel_of reqs errs = None ↔ reqs = [] ∧ errs = [].
Proof.
  unfold funnel_of. destruct reqs, errs; simpl; split;
    try done; intros [? ?]; done.
Qed.

Lemma funnel_of_app r1 e1 r2 e2 :
  funnel_of (r1 ++ r2) (e1 ++ e2)
  = union_with (fun a b => Some (add_funnel a b))
      (funnel_of r1 e1) (funnel_of r2 e2).
Proof.
  destruct (funnel_of r1 e1) as [f1|] eqn:H1.
  - destruct (funnel_of r2 e2) as [f2|] eqn:H2.
    + unfold funnel_of in *.
      destruct (Nat.eqb_spec (length r1 + length e1) 0); [done|].
      destruct (Nat.eqb_spec (length r2 + length e2) 0); [done|].
      simplify_eq. rewrite !length_app.
      destruct (Nat.eqb_spec (length r1 + length r2
                              + (length e1 + length e2)) 0); [lia|].
      simpl. unfold add_funnel; simpl. do 2 f_equal.
      apply counter_merge.
    + apply funnel_of_none in H2 as [-> ->]. by rewrite !app_nil_r.
  - apply funnel_of_none in H1 as [-> ->]. simpl.
    by destruct (funnel_of r2 e2).
Qed.

Section Joined.
Variables st st1 st2 : analysis.
Hypothesis all_joined :
  all_requests st = all_requests st1 ++ all_requests st2.
Hypothesis checkout_joined :
  checkout_requests st = checkout_requests st1 ++ checkout_requests st2.
Hypothesis errors_joined :
  checkout_errors st = checkout_errors st1 ++ checkout_errors st2.

Lemma bucket_stats_joined key :
  bucket_stats key st
  = sum_maps add_bucket (bucket_stats key st1) (bucket_stats key st2).
Proof.
  apply map_eq. intros k. unfold sum_maps.
  rewrite lookup_union_with, !bucket_stats_lookup.
  rewrite all_joined, checkout_joined, errors_joined, !count_by_app.
  apply bucket_of_add.
Qed.

Lemma stage_stats_joined :
  stage_stats st = sum_maps add_stage (stage_stats st1) (stage_stats st2).
Proof.
  apply map_eq. intros k. unfold sum_maps.
  rewrite lookup_union_with, !stage_stats_lookup.
  rewrite checkout_joined, errors_joined, !count_by_app.
  apply stage_of_add.
Qed.

Lemma pattern_stats_joined :
  pattern_stats st
  = sum_maps add_funnel (pattern_stats st1) (pattern_stats st2).
Proof.
  apply map_eq. intros k. unfold sum_maps.
  rewrite lookup_union_with, !pattern_stats_lookup.
  rewrite checkout_joined, errors_joined, !filter_app.
  apply funnel_of_app.
Qed.

Lemma status_code_errors_joined :
  status_code_errors st
  = sum_maps Nat.add (status_code_errors st1) (status_code_errors st2).
Proof.
  unfold status_code_errors. rewrite errors_joined. apply counter_merge.
Qed.

Lemma stage_errors_by_code_joined :
  stage_errors_by_code st
  = sum_maps (sum_maps Nat.add)
      (stage_errors_by_code st1) (stage_errors_by_code st2).
Proof.
  unfold stage_errors_by_code. rewrite errors_joined.
  apply stage_errors_by_code_merge.
Qed.

Lemma collect_times_app l1 l2 :
  collect_times (l1 ++ l2) = collect_times l1 ++ collect_times l2.
Proof. by rewrite !collect_times_filter, fmap_app, filter_app. Qed.

Lemma success_times_joined :
  success_times st = success_times st1 ++ success_times st2.
Proof.
  unfold success_times, successful_requests.
  by rewrite checkout_joined, filter_app, collect_times_app.
Qed.

Lemma error_times_joined :
  error_times st = error_times st1 ++ error_times st2.
Proof. unfold error_times. by rewrite errors_joined, collect_times_app. Qed.

Lemma aggregate_of_joined :
  aggregate_of st = merge_states (aggregate_of st1) (aggregate_of st2).
Proof.
  unfold aggregate_of, merge_states; cbn [agg_total_requests
    agg_checkout_requests agg_checkout_errors byDate byHour byFunnelStage
    byPatternCategory byStatusCode byStageAndStatus successLatencies
    errorLatencies].
  unfold daily_stats, hourly_stats.
  rewrite (bucket_stats_joined date_of), (bucket_stats_joined hour_of),
    stage_stats_joined, pattern_stats_joined, status_code_errors_joined,
    stage_errors_by_code_joined, success_times_joined, error_times_joined.
  rewrite all_joined, checkout_joined, errors_joined, !length_app.
  reflexivity.
Qed.
End Joined.

Lemma run_engine_extend lines :
  run_engine lines = Ok (aggregate_of (extend empty_analysis lines)).
Proof. unfold run_engine. by rewrite analyze_logs_extend. Qed.

(** C9. Running the engine on two sequences of lines and merging the
    two states (counters summed key by key, latency samples
    concatenated) gives the state of one run over the concatenated
    sequence. *)
Theorem accumulation_merges (xs ys : list string) :
  ∃ s1 s2 s,
    run_engine xs = Ok s1 ∧ run_engine ys = Ok s2
    ∧ run_engine (xs ++ ys) = Ok s
    ∧ s = merge_states s1 s2.
Proof.
  exists (aggregate_of (extend empty_analysis xs)),
         (aggregate_of (extend empty_analysis ys)),
         (aggregate_of (extend empty_analysis (xs ++ ys))).
  repeat (split; [apply run_engine_extend|]).
  apply aggregate_of_joined; unfold extend; simpl.
  - apply entries_app.
  - by rewrite entries_app, omap_app.
  - by rewrite entries_app, omap_app, filter_app.
Qed.

(** * Further properties of the code *)

(** ** Invariants of the ingestion loop *)

Lemma length_omap_le {A B} (f : A → option B) (l : list A) :
  (length (omap f l) ≤ length l)%nat.
Proof.
  induction l as [|x l IH]; csimpl; [lia|]. destruct (f x); simpl; lia.
Qed.

Lemma length_filter_le {A} (P : A → Prop) `{∀ x, Decision (P x)} (l : list A) :
  (length (filter P l) ≤ length l)%nat.
Proof.
  induction l as [|x l IH]; [done|].
  rewrite filter_cons. destruct (decide (P x)); simpl; lia.
Qed.

Lemma entries_analyzable lines e :
  e ∈ entries lines → ∃ code, backend_status_code e = Some code ∧ code ≠ 0.
Proof.
  unfold entries. intros (line & _ & He)%list_elem_of_omap.
  destruct (parsed line) as [r|]; [|done]. simpl in He.
  destruct (backend_status_code r) as [code|] eqn:Hcode; [|done].
  destruct (Z.eqb_spec code 0); [done|]. simpl in He. injection He as <-.
  eauto.
Qed.

Lemma checkout_of_inv e c :
  checkout_of e = Some c →
  entry c = e ∧ request_url (request e) = Some (url c)
  ∧ is_checkout_related (url c) = true ∧ c = classify e (url c).
Proof.
  unfold checkout_of.
  destruct (request_url (request e)) as [u|]; [|done].
  destruct (is_checkout_related u) eqn:Hrel; [|done].
  intros [= <-]. done.
Qed.

(** X1.  The loop of [analyze_logs] never fails and counts every line.  Its
    three lists are nested: an entry of [all_requests] has a backend
    status other than zero, a checkout request is one of these entries
    classified by its own checkout-related URL, and the checkout errors
    are exactly the checkout requests with a status of 500 or more. *)
Theorem analyze_logs_invariants (lines : list string) :
  ∃ st, analyze_logs lines = Ok st
  ∧ total_lines st = length lines
  ∧ parsed_lines st = length (all_requests st)
  ∧ (length (checkout_errors st) ≤ length (checkout_requests st))%nat
  ∧ (length (checkout_requests st) ≤ length (all_requests st))%nat
  ∧ (length (all_requests st) ≤ length lines)%nat
  ∧ (∀ e, e ∈ all_requests st →
       ∃ code, backend_status_code e = Some code ∧ code ≠ 0)
  ∧ (∀ c, c ∈ checkout_requests st →
       entry c ∈ all_requests st
       ∧ request_url (request (entry c)) = Some (url c)
       ∧ is_checkout_related (url c) = true
       ∧ c = classify (entry c) (url c))
  ∧ (∀ c, c ∈ checkout_errors st ↔
          c ∈ checkout_requests st ∧ 500 ≤ status_of c).
Proof.
  exists (extend empty_analysis lines).
  split; [apply analyze_logs_extend|]. unfold extend; simpl.
  split; [done|]. split; [done|].
  split; [apply length_filter_le|]. split; [apply length_omap_le|].
  split; [apply length_omap_le|]. split; [apply entries_analyzable|]. split.
  - intros c (e & He & Hc)%list_elem_of_omap.
    apply checkout_of_inv in Hc as (-> & Hu & Hrel & Hc). done.
  - intros c. rewrite list_elem_of_filter. unfold is_server_error.
    rewrite Z.leb_le. tauto.
Qed.

(** ** Invariants of the date and hour buckets *)

Lemma count_by_checkout_le (key : log_entry → string) k es :
  (count_by (key ∘ entry) k (omap checkout_of es) ≤ count_by key k es)%nat.
Proof.
  unfold count_by, compose. induction es as [|e es IH]; [done|]. csimpl.
  destruct (checkout_of e) as [c|] eqn:Hc; simpl.
  - apply checkout_of_inv in Hc as (He & _). rewrite !filter_cons. simpl.
    rewrite He. destruct (decide (key e = k)); simpl; lia.
  - rewrite filter_cons. destruct (decide (key e = k)); simpl; lia.
Qed.

Lemma count_by_pos {A} `{EqDecision K} (key : A → K) k l :
  (0 < count_by key k l)%nat ↔ ∃ x, x ∈ l ∧ key x = k.
Proof.
  unfold count_by. split.
  - destruct (filter _ l) as [|x f] eqn:Hf; simpl; [lia|]. intros _.
    assert (x ∈ filter (fun x => key x = k) l) as Hx
      by (rewrite Hf; apply list_elem_of_here).
    apply list_elem_of_filter in Hx as [Hk Hx]. eauto.
  - intros (x & Hx & Hk).
    assert (x ∈ filter (fun x => key x = k) l) as Hin
      by (by apply list_elem_of_filter).
    destruct (filter _ l); [by apply elem_of_nil in Hin | simpl; lia].
Qed.

Lemma bucket_stats_run (key : log_entry → string) lines k b :
  bucket_stats key (extend empty_analysis lines) !! k = Some b →
  total b = count_by key k (entries lines)
  ∧ (errors b ≤ checkout b)%nat ∧ (checkout b ≤ total b)%nat
  ∧ (1 ≤ total b)%nat.
Proof.
  rewrite bucket_stats_lookup. unfold extend; simpl. unfold bucket_of.
  pose proof (count_by_checkout_le key k (entries lines)) as Hc.
  pose proof (filter_filter_length (fun c => (key ∘ entry) c = k)
                (fun c => is_server_error c = true)
                (omap checkout_of (entries lines))) as He.
  unfold count_by in *.
  destruct (_ =? 0)%nat eqn:Hz; [discriminate|]. intros [= <-]; simpl.
  apply Nat.eqb_neq in Hz. unfold compose in *. lia.
Qed.

Lemma guarded_rate_bounds e c :
  (e ≤ c)%nat → ∃ q, guarded_rate e c = Ok q ∧ (0 <= q <= 100)%Q.
Proof.
  intros Hle. unfold guarded_rate. destruct c as [|n]; simpl.
  - eexists; split; [reflexivity|]. split; [apply Qle_refl | by vm_compute].
  - eexists; split; [reflexivity|]. split.
    + unfold times100. rewrite !Qred_correct. unfold Qle, Qmult; simpl. lia.
    + apply (rate_at_most_100 e (S n)); [lia | reflexivity].
Qed.

Lemma sorted_keys_elem {V} (d : gmap string V) k :
  k ∈ sorted_keys d ↔ is_Some (d !! k).
Proof.
  unfold sorted_keys. rewrite merge_sort_Permutation.
  rewrite list_elem_of_fmap. split.
  - intros ([k' v] & -> & Hkv%elem_of_map_to_list). simpl. eauto.
  - intros [v Hv]. exists (k, v). split; [done|].
    by apply elem_of_map_to_list.
Qed.

Lemma daily_rows_stats daily prev dates rows r :
  daily_rows daily prev dates = Ok rows → r ∈ rows →
  row_date r ∈ dates
  ∧ row_stats r = default bucket_zero (daily !! row_date r)
  ∧ guarded_rate (errors (row_stats r)) (checkout (row_stats r))
    = Ok (row_error_rate r).
Proof.
  revert prev rows. induction dates as [|d dates IH]; intros prev rows; simpl.
  - intros [= <-] Hr. by apply elem_of_nil in Hr.
  - intros (q & Hq & H)%bind_ok. apply bind_ok in H as (rest & Hrest & [= <-]).
    intros [->|Hr]%elem_of_cons; simpl.
    + split; [apply list_elem_of_here | done].
    + destruct (IH _ _ Hrest Hr) as (Hd & Hs). split; [|done].
      by apply list_elem_of_further.
Qed.

(** X2.  In every run, each date bucket and each hour bucket has at least
    one request and at most as many checkout requests as requests and
    as many errors as checkout requests; every row of the daily report
    is the bucket of its date, with an error rate between 0 and 100. *)
Theorem bucket_counts_nested (lines : list string) :
  ∃ st rows, analyze_logs lines = Ok st ∧ analyze_daily_trends st = Ok rows
  ∧ (∀ k b, daily_stats st !! k = Some b ∨ hourly_stats st !! k = Some b →
       (errors b ≤ checkout b)%nat ∧ (checkout b ≤ total b)%nat
       ∧ (1 ≤ total b)%nat)
  ∧ (∀ r, r ∈ rows →
       daily_stats st !! row_date r = Some (row_stats r)
       ∧ (0 <= row_error_rate r <= 100)%Q).
Proof.
  set (st := extend empty_analysis lines).
  destruct (daily_rows_total (daily_stats st) None
              (sorted_keys (daily_stats st))) as (rows & Hrows & _).
  exists st, rows. split; [apply analyze_logs_extend|]. split; [done|].
  assert (∀ k b, daily_stats st !! k = Some b ∨ hourly_stats st !! k = Some b →
            (errors b ≤ checkout b)%nat ∧ (checkout b ≤ total b)%nat
            ∧ (1 ≤ total b)%nat) as Hinv.
  { intros k b [Hb|Hb]; apply bucket_stats_run in Hb; tauto. }
  split; [exact Hinv|].
  intros r Hr. destruct (daily_rows_stats _ _ _ _ _ Hrows Hr) as (Hd & Hs & Hq).
  apply sorted_keys_elem in Hd as [b Hb]. rewrite Hb in Hs. simpl in Hs.
  subst b. split; [done|].
  destruct (Hinv _ _ (or_introl Hb)) as (He & _).
  destruct (guarded_rate_bounds _ _ He) as (q & Hq' & Hbound). congruence.
Qed.

(** ** The number of days *)

Lemma bucket_stats_dom lines (key : log_entry → string) k :
  is_Some (bucket_stats key (extend empty_analysis lines) !! k)
  ↔ ∃ e, e ∈ entries lines ∧ key e = k.
Proof.
  rewrite <- count_by_pos. split.
  - intros [b Hb]. apply bucket_stats_run in Hb as (<- & _ & _ & Hpos). lia.
  - intros Hpos. rewrite bucket_stats_lookup. unfold extend; simpl.
    unfold bucket_of. destruct (_ =? 0)%nat eqn:Hz; [|eauto].
    apply Nat.eqb_eq in Hz. lia.
Qed.

Lemma length_sorted_keys {V} (d : gmap string V) :
  length (sorted_keys d) = size d.
Proof.
  unfold sorted_keys.
  by rewrite merge_sort_Permutation, length_fmap, length_map_to_list.
Qed.

(** X3.  The number of days by which the hourly report divides is the number
    of date buckets, that is the number of rows of the daily report, and
    a date has a bucket exactly when some analyzable request carries it;
    it is zero only when there is no analyzable request at all. *)
Theorem total_days_is_daily_rows (lines : list string) :
  ∃ st rows, analyze_logs lines = Ok st ∧ analyze_daily_trends st = Ok rows
  ∧ total_days st = size (daily_stats st)
  ∧ total_days st = length rows
  ∧ (∀ k, is_Some (daily_stats st !! k)
          ↔ ∃ e, e ∈ all_requests st ∧ date_of e = k)
  ∧ (total_days st = 0%nat ↔ all_requests st = []).
Proof.
  set (st := extend empty_analysis lines).
  destruct (daily_rows_total (daily_stats st) None
              (sorted_keys (daily_stats st))) as (rows & Hrows & _).
  exists st, rows. split; [apply analyze_logs_extend|]. split; [done|].
  assert (dom (daily_stats st)
          = list_to_set (C := gset string) (date_of <$> all_requests st))
    as Hdom.
  { apply set_eq. intros k.
    rewrite elem_of_dom, elem_of_list_to_set, list_elem_of_fmap.
    unfold daily_stats, st. rewrite bucket_stats_dom.
    split; intros (e & H1 & H2); eauto. }
  assert (total_days st = size (daily_stats st)) as Hsize.
  { unfold total_days. by rewrite <- Hdom, size_dom. }
  split; [done|]. split.
  - rewrite Hsize, <- length_sorted_keys.
    apply daily_rows_dates in Hrows. rewrite <- Hrows. by rewrite length_fmap.
  - split; [intros k; apply bucket_stats_dom|].
    unfold total_days. rewrite size_empty_iff. split.
    + intros Hempty. destruct (all_requests st) as [|e es] eqn:Hall; [done|].
      exfalso. apply (not_elem_of_empty (C := gset string) (date_of e)).
      apply Hempty. rewrite fmap_cons.
      apply elem_of_list_to_set, list_elem_of_here.
    + intros ->. done.
Qed.

(** ** Order of the input lines *)

Section TallyPermutation.
Context {A V : Type} `{Countable K}.
Variable update : A → V → V.
Variable zero : V.
Variable key : A → K.
Hypothesis update_comm : ∀ x y v, update x (update y v) = update y (update x v).

Lemma tally_step_comm m x y :
  tally_step update zero key (tally_step update zero key m x) y
  = tally_step update zero key (tally_step update zero key m y) x.
Proof.
  unfold tally_step. destruct (decide (key x = key y)) as [Heq|Hne].
  - rewrite <- Heq, !lookup_insert_eq, !insert_insert_eq. simpl.
    by rewrite update_comm.
  - rewrite !lookup_insert_ne by done.
    by rewrite insert_insert_ne by done.
Qed.

Lemma tally_Permutation l1 l2 m :
  l1 ≡ₚ l2 → tally update zero key l1 m = tally update zero key l2 m.
Proof.
  intros Hp. revert m. unfold tally.
  induction Hp as [|x l1 l2 _ IH|x y l|l1 l2 l3 _ IH1 _ IH2]; intros m; simpl.
  - done.
  - apply IH.
  - by rewrite tally_step_comm.
  - by rewrite IH1.
Qed.
End TallyPermutation.

Lemma incr_comm {A} (x y : A) (n : nat) : incr x (incr y n) = incr y (incr x n).
Proof. reflexivity. Qed.

Lemma count_error_comm x y v :
  count_error x (count_error y v) = count_error y (count_error x v).
Proof.
  unfold count_error; simpl. f_equal.
  apply (tally_step_comm incr 0%nat clean_url incr_comm).
Qed.

Lemma collect_times_Permutation l1 l2 :
  l1 ≡ₚ l2 → collect_times l1 ≡ₚ collect_times l2.
Proof. intros Hp. rewrite !collect_times_filter. by rewrite Hp. Qed.

(** X4.  Reordering the input lines (and so the order in which the log
    files are listed) changes no counter: two runs over the same lines
    in a different order give the same totals and the same tables by
    date, hour, funnel stage, pattern category, status code and stage
    with status, each read as a map from its keys to its counts, and
    latency samples that are a permutation of each other.  The ranked
    lists are not so: among equal counts the most common URLs stand in
    the order in which their lines were read. *)
Theorem counters_ignore_line_order :
  (∀ lines lines' : list string,
     lines ≡ₚ lines' →
     ∃ s s', run_engine lines = Ok s ∧ run_engine lines' = Ok s'
     ∧ agg_total_requests s = agg_total_requests s'
     ∧ agg_checkout_requests s = agg_checkout_requests s'
     ∧ agg_checkout_errors s = agg_checkout_errors s'
     ∧ byDate s = byDate s' ∧ byHour s = byHour s'
     ∧ byFunnelStage s = byFunnelStage s'
     ∧ byPatternCategory s = byPatternCategory s'
     ∧ byStatusCode s = byStatusCode s'
     ∧ byStageAndStatus s = byStageAndStatus s'
     ∧ successLatencies s ≡ₚ successLatencies s'
     ∧ errorLatencies s ≡ₚ errorLatencies s')
  ∧ report url_ranking [server_error_line; payment_error_line]
    = Some [("/cart/add", 1%nat); ("/checkout/payment", 1%nat)]
  ∧ report url_ranking [payment_error_line; server_error_line]
    = Some [("/checkout/payment", 1%nat); ("/cart/add", 1%nat)].
Proof.
  split; [|split; vm_compute; reflexivity].
  intros lines lines' Hp.
  exists (aggregate_of (extend empty_analysis lines)),
         (aggregate_of (extend empty_analysis lines')).
  split; [apply run_engine_extend|]. split; [apply run_engine_extend|].
  set (st := extend empty_analysis lines).
  set (st' := extend empty_analysis lines').
  assert (all_requests st ≡ₚ all_requests st') as Hall.
  { unfold st, st', extend, entries; simpl. by rewrite Hp. }
  assert (checkout_requests st ≡ₚ checkout_requests st') as Hchk.
  { unfold st, st', extend, entries; simpl. by rewrite Hp. }
  assert (checkout_errors st ≡ₚ checkout_errors st') as Herr.
  { unfold st, st', extend, entries; simpl. by rewrite Hp. }
  assert (∀ key, bucket_stats key st = bucket_stats key st') as Hbucket.
  { intros key. unfold bucket_stats.
    rewrite (tally_Permutation incr_total bucket_zero key
               (fun _ _ _ => eq_refl) _ _ ∅ Hall).
    rewrite (tally_Permutation incr_checkout bucket_zero (key ∘ entry)
               (fun _ _ _ => eq_refl) _ _ _ Hchk).
    apply (tally_Permutation incr_errors bucket_zero (key ∘ entry)
             (fun _ _ _ => eq_refl) _ _ _ Herr). }
  clearbody st st'. simpl. repeat split.
  - by rewrite Hall.
  - by rewrite Hchk.
  - by rewrite Herr.
  - apply Hbucket.
  - apply Hbucket.
  - unfold stage_stats.
    rewrite (tally_Permutation
               (fun _ s => {| stage_requests := S (stage_requests s);
                              stage_errors := stage_errors s |})
               stage_zero checkout_stage (fun _ _ _ => eq_refl) _ _ ∅ Hchk).
    apply (tally_Permutation
             (fun _ s => {| stage_requests := stage_requests s;
                            stage_errors := S (stage_errors s) |})
             stage_zero checkout_stage (fun _ _ _ => eq_refl) _ _ _ Herr).
  - unfold pattern_stats.
    rewrite (tally_Permutation count_request funnel_zero pattern_category
               (fun _ _ _ => eq_refl) _ _ ∅ Hchk).
    apply (tally_Permutation count_error funnel_zero pattern_category
             count_error_comm _ _ _ Herr).
  - unfold status_code_errors.
    apply (tally_Permutation incr 0%nat status_of incr_comm _ _ ∅ Herr).
  - unfold stage_errors_by_code.
    refine (tally_Permutation _ _ _ _ _ _ _ Herr).
    intros x y v. apply (tally_step_comm incr 0%nat status_of incr_comm).
  - unfold success_times, successful_requests.
    apply collect_times_Permutation. by rewrite Hchk.
  - unfold error_times. by apply collect_times_Permutation.
Qed.

Lemma counters_ignore_line_order_witness :
  ∃ s s', run_engine [server_error_line; unmeasured_line] = Ok s
          ∧ run_engine [unmeasured_line; server_error_line] = Ok s'
          ∧ byPatternCategory s = byPatternCategory s'.
Proof.
  destruct (proj1 counters_ignore_line_order
              [server_error_line; unmeasured_line]
              [unmeasured_line; server_error_line])
    as (s & s' & Hs & Hs' & _ & _ & _ & _ & _ & _ & Hpattern & _).
  - apply Permutation_swap.
  - exists s, s'. split; [exact Hs|]. split; [exact Hs'|]. exact Hpattern.
Defined.

(** ** Every request is counted once *)

Section ColumnSum.
Context `{Countable K} {V : Type}.
Variable measure : V → nat.

Lemma column_sum_empty : column_sum measure (∅ : gmap K V) = 0%nat.
Proof. apply map_fold_empty. Qed.

Lemma column_sum_insert_fresh (m : gmap K V) k v :
  m !! k = None →
  column_sum measure (<[k := v]> m) = (measure v + column_sum measure m)%nat.
Proof.
  intros Hk. unfold column_sum.
  apply (map_fold_insert_L (fun _ v acc => measure v + acc)%nat); [|done].
  intros. lia.
Qed.

Lemma column_sum_insert (m : gmap K V) k v :
  (column_sum measure (<[k := v]> m) + from_option measure 0 (m !! k)
   = measure v + column_sum measure m)%nat.
Proof.
  destruct (m !! k) as [w|] eqn:Hk; simpl.
  - rewrite <- (insert_delete_id m k w Hk) at 2.
    rewrite <- (insert_delete_eq m k v).
    rewrite !column_sum_insert_fresh by apply lookup_delete_eq. lia.
  - rewrite column_sum_insert_fresh by done. lia.
Qed.

Lemma column_sum_tally {A} (update : A → V → V) (zero : V) (key : A → K)
    (delta : nat) l m :
  measure zero = 0%nat →
  (∀ x v, measure (update x v) = (delta + measure v)%nat) →
  column_sum measure (tally update zero key l m)
  = (delta * length l + column_sum measure m)%nat.
Proof.
  intros Hzero Hupdate. revert m.
  induction l as [|x l IH]; intros m; [simpl; lia|].
  change (tally update zero key (x :: l) m)
    with (tally update zero key l (tally_step update zero key m x)).
  rewrite IH. unfold tally_step.
  pose proof (column_sum_insert m (key x)
                (update x (default zero (m !! key x)))) as Hins.
  rewrite Hupdate in Hins.
  destruct (m !! key x); simpl in *; rewrite ?Hzero in Hins; lia.
Qed.
End ColumnSum.

Lemma column_sum_urls c s :
  column_sum id (urls (count_error c s)) = S (column_sum id (urls s)).
Proof.
  unfold count_error; cbn [urls].
  by rewrite (column_sum_tally id incr 0%nat clean_url 1).
Qed.

(** X5.  Every request is counted in exactly one bucket of each table: the
    columns of the daily and of the hourly table add up to the numbers
    of requests, of checkout requests and of checkout errors; the
    columns of the stage and of the pattern table add up to the numbers
    of checkout requests and of checkout errors; and the per-pattern URL
    counters hold one count for each checkout error. *)
Theorem every_request_is_counted_once (lines : list string) :
  ∃ st, analyze_logs lines = Ok st
  ∧ bucket_totals (daily_stats st)
    = (parsed_lines st, length (checkout_requests st),
       length (checkout_errors st))
  ∧ bucket_totals (hourly_stats st) = bucket_totals (daily_stats st)
  ∧ column_sum stage_requests (stage_stats st) = length (checkout_requests st)
  ∧ column_sum stage_errors (stage_stats st) = length (checkout_errors st)
  ∧ column_sum requests (pattern_stats st) = length (checkout_requests st)
  ∧ column_sum funnel_errors (pattern_stats st) = length (checkout_errors st)
  ∧ column_sum (column_sum id ∘ urls) (pattern_stats st)
    = length (checkout_errors st).
Proof.
  exists (extend empty_analysis lines).
  split; [apply analyze_logs_extend|].
  assert (parsed_lines (extend empty_analysis lines)
          = length (all_requests (extend empty_analysis lines))) as Hparsed
    by reflexivity.
  generalize dependent (extend empty_analysis lines). intros st Hparsed.
  assert (∀ key, bucket_totals (bucket_stats key st)
                 = (parsed_lines st, length (checkout_requests st),
                    length (checkout_errors st))) as Hbuckets.
  { intros key. unfold bucket_totals, bucket_stats. rewrite Hparsed.
    repeat f_equal.
    - rewrite (column_sum_tally total incr_errors bucket_zero _ 0) by done.
      rewrite (column_sum_tally total incr_checkout bucket_zero _ 0) by done.
      rewrite (column_sum_tally total incr_total bucket_zero _ 1) by done.
      rewrite column_sum_empty. lia.
    - rewrite (column_sum_tally checkout incr_errors bucket_zero _ 0) by done.
      rewrite (column_sum_tally checkout incr_checkout bucket_zero _ 1)
        by done.
      rewrite (column_sum_tally checkout incr_total bucket_zero _ 0) by done.
      rewrite column_sum_empty. lia.
    - rewrite (column_sum_tally errors incr_errors bucket_zero _ 1) by done.
      rewrite (column_sum_tally errors incr_checkout bucket_zero _ 0) by done.
      rewrite (column_sum_tally errors incr_total bucket_zero _ 0) by done.
      rewrite column_sum_empty. lia. }
  split; [apply Hbuckets|].
  split; [unfold daily_stats, hourly_stats; by rewrite !Hbuckets|].
  unfold stage_stats, pattern_stats. repeat split.
  - rewrite (column_sum_tally stage_requests _ stage_zero _ 0) by done.
    rewrite (column_sum_tally stage_requests _ stage_zero _ 1) by done.
    rewrite column_sum_empty. lia.
  - rewrite (column_sum_tally stage_errors _ stage_zero _ 1) by done.
    rewrite (column_sum_tally stage_errors _ stage_zero _ 0) by done.
    rewrite column_sum_empty. lia.
  - rewrite (column_sum_tally requests count_error funnel_zero _ 0) by done.
    rewrite (column_sum_tally requests count_request funnel_zero _ 1) by done.
    rewrite column_sum_empty. lia.
  - rewrite (column_sum_tally funnel_errors count_error funnel_zero _ 1)
      by done.
    rewrite (column_sum_tally funnel_errors count_request funnel_zero _ 0)
      by done.
    rewrite column_sum_empty. lia.
  - rewrite (column_sum_tally (column_sum id ∘ urls) count_error funnel_zero
               _ 1); [| done | intros c s; apply column_sum_urls].
    rewrite (column_sum_tally (column_sum id ∘ urls) count_request
               funnel_zero _ 0) by done.
    rewrite column_sum_empty. lia.
Qed.

(** ** Error codes *)

Lemma checkout_errors_elem lines c :
  c ∈ checkout_errors (extend empty_analysis lines)
  ↔ c ∈ checkout_requests (extend empty_analysis lines) ∧ 500 ≤ status_of c.
Proof.
  rewrite checkout_errors_extend, list_elem_of_filter.
  unfold is_server_error. rewrite Z.leb_le. tauto.
Qed.

Lemma foldl_incr {A} (l : list A) n :
  foldl (fun v x => incr x v) n l = (n + length l)%nat.
Proof.
  revert n. induction l as [|x l IH]; intros n; simpl; [lia|].
  rewrite IH. unfold incr. lia.
Qed.

(** A counter holds, under each key it has, the number of elements
    filed under that key, and has no key without elements. *)
Lemma counter_lookup {A} `{Countable K} (key : A → K) l k n :
  tally incr 0%nat key l ∅ !! k = Some n
  ↔ n = count_by key k l ∧ (1 ≤ n)%nat.
Proof.
  rewrite tally_lookup, lookup_empty. unfold count_by.
  destruct (filter _ l) as [|x f]; simpl.
  - split; [done | lia].
  - rewrite foldl_incr. unfold incr. split.
    + intros [= <-]. lia.
    + intros [-> _]. done.
Qed.

Lemma stage_errors_by_code_lookup st stage codes :
  stage_errors_by_code st !! stage = Some codes →
  codes = tally incr 0%nat status_of
            (filter (fun c => checkout_stage c = stage) (checkout_errors st))
            ∅.
Proof.
  unfold stage_errors_by_code. rewrite tally_lookup, lookup_empty.
  destruct (filter _ (checkout_errors st)) as [|x f]; [done|].
  intros [= <-]. reflexivity.
Qed.

Lemma count_stage_code_le stage code l :
  (count_stage_code stage code l ≤ count_by status_of code l)%nat.
Proof.
  unfold count_stage_code, count_by.
  induction l as [|c l IH]; [done|].
  rewrite !(filter_cons _ c l).
  destruct (decide (checkout_stage c = stage)) as [Hs|Hs].
  - rewrite filter_cons.
    destruct (decide (status_of c = code)); cbn [length]; lia.
  - destruct (decide (status_of c = code)); cbn [length]; lia.
Qed.

(** X6.  The error-code counter has a key exactly for the status codes of the
    checkout requests that are 500 or more, and holds under it the
    number of checkout errors with that code; the counts add up to the
    number of checkout errors.  The per-stage counters hold the number
    of errors of that stage and code, which is at least one and at most
    the count of the code over all stages. *)
Theorem error_code_counters (lines : list string) :
  ∃ st, analyze_logs lines = Ok st
  ∧ (∀ code, is_Some (status_code_errors st !! code)
       ↔ 500 ≤ code ∧ ∃ c, c ∈ checkout_requests st ∧ status_of c = code)
  ∧ (∀ code n, status_code_errors st !! code = Some n →
       n = count_by status_of code (checkout_errors st) ∧ (1 ≤ n)%nat)
  ∧ column_sum id (status_code_errors st) = length (checkout_errors st)
  ∧ (∀ stage codes code n,
       stage_errors_by_code st !! stage = Some codes →
       codes !! code = Some n →
       n = count_stage_code stage code (checkout_errors st)
       ∧ (1 ≤ n)%nat
       ∧ (n ≤ default 0%nat (status_code_errors st !! code))%nat).
Proof.
  exists (extend empty_analysis lines).
  split; [apply analyze_logs_extend|].
  pose proof (checkout_errors_elem lines) as Herrors.
  generalize dependent (extend empty_analysis lines). intros st Herrors.
  unfold status_code_errors.
  pose proof (fun stage code =>
                count_stage_code_le stage code (checkout_errors st)) as Hle.
  split; [|split; [|split]].
  - intros code. split.
    + intros [n [Hn Hpos]%counter_lookup].
      assert (0 < count_by status_of code (checkout_errors st))%nat as Hc
        by lia.
      apply count_by_pos in Hc as (c & [Hc Hcode]%Herrors & <-). eauto.
    + intros (Hcode & c & Hc & <-).
      exists (count_by status_of (status_of c) (checkout_errors st)).
      apply counter_lookup. split; [done|].
      apply (count_by_pos status_of). exists c. split; [|done].
      by apply Herrors.
  - intros code n Hn. by apply counter_lookup in Hn.
  - rewrite (column_sum_tally id incr 0%nat status_of 1) by done.
    rewrite column_sum_empty. lia.
  - intros stage codes code n Hcodes Hn.
    apply stage_errors_by_code_lookup in Hcodes as ->.
    apply counter_lookup in Hn as [Hn Hpos].
    split; [exact Hn|]. split; [exact Hpos|].
    specialize (Hle stage code). unfold count_stage_code in Hle.
    destruct (tally incr 0%nat status_of (checkout_errors st) ∅ !! code)
      as [m|] eqn:Hm; simpl.
    + apply counter_lookup in Hm as [-> _]. lia.
    + assert (1 ≤ count_by status_of code (checkout_errors st))%nat as Hc
        by lia.
      pose proof (proj2 (counter_lookup status_of (checkout_errors st) code
                           _) (conj eq_refl Hc)) as Hsome.
      congruence.
Qed.

(** ** Latencies *)

Lemma gtb_Fin_false x y : Num.gtb (Fin x) (Fin y) = false ↔ (x <= y)%Q.
Proof.
  unfold Num.gtb, Num.ltb. by rewrite negb_false_iff, Qle_bool_iff.
Qed.

Lemma gtb_Fin_true x y : Num.gtb (Fin x) (Fin y) = true ↔ (y < x)%Q.
Proof.
  unfold Num.gtb, Num.ltb.
  rewrite negb_true_iff, <- not_true_iff_false, Qle_bool_iff.
  split; [apply Qnot_le_lt | apply Qlt_not_le].
Qed.

Lemma num_le_trans a b c :
  positive a → positive b → positive c →
  num_le a b → num_le b c → num_le a c.
Proof.
  unfold num_le.
  intros [->|(x & -> & Hx)]%positive_inv [->|(y & -> & Hy)]%positive_inv
    [->|(z & -> & Hz)]%positive_inv; try done.
  rewrite !gtb_Fin_false. intros. lra.
Qed.

Lemma num_lt_le a b : positive a → positive b → Num.gtb b a = true → num_le a b.
Proof.
  unfold num_le.
  intros [->|(x & -> & Hx)]%positive_inv [->|(y & -> & Hy)]%positive_inv;
    try done.
  rewrite gtb_Fin_true, gtb_Fin_false. intros. lra.
Qed.

Lemma num_le_refl a : positive a → num_le a a.
Proof.
  unfold num_le. intros [->|(x & -> & Hx)]%positive_inv; [done|].
  rewrite gtb_Fin_false. lra.
Qed.

Lemma foldl_max_bound rest acc :
  positive acc → Forall positive rest →
  positive (py_max acc rest) ∧ num_le acc (py_max acc rest)
  ∧ ∀ t, t ∈ rest → num_le t (py_max acc rest).
Proof.
  unfold py_max. intros Hacc Hrest. revert acc Hacc.
  induction Hrest as [|x rest Hx Hrest IH]; intros acc Hacc; cbn [foldl].
  - split; [done|]. split; [by apply num_le_refl|].
    by intros t Ht%elem_of_nil.
  - destruct (Num.gtb x acc) eqn:Hgt.
    + destruct (IH x Hx) as (Hm & Hxm & Hall). split; [done|]. split.
      * apply (num_le_trans acc x); try done. by apply num_lt_le.
      * intros t [->|Ht]%elem_of_cons; [done | by apply Hall].
    + destruct (IH acc Hacc) as (Hm & Haccm & Hall). split; [done|].
      split; [done|].
      intros t [Heq|Ht]%elem_of_cons; [|by apply Hall]. subst t.
      by apply (num_le_trans x acc).
Qed.

(** X7.  Each of the two latency summaries has a maximum exactly when it has
    an average, which is when it has a sample at all; the maximum is
    one of the samples and no sample is greater. *)
Theorem latency_maximum_is_greatest (st : analysis) :
  Forall (fun s =>
            (samples s = [] ↔ maximum s = None)
            ∧ (average s = None ↔ maximum s = None)
            ∧ ∀ m, maximum s = Some m →
                   m ∈ samples s ∧ ∀ t, t ∈ samples s → num_le t m)
         [summarize (success_times st); summarize (error_times st)].
Proof.
  assert (∀ reqs,
            let s := summarize (collect_times reqs) in
            (samples s = [] ↔ maximum s = None)
            ∧ (average s = None ↔ maximum s = None)
            ∧ ∀ m, maximum s = Some m →
                   m ∈ samples s ∧ ∀ t, t ∈ samples s → num_le t m) as Hsum.
  { intros reqs. pose proof (collect_times_positive reqs) as Hpos.
    destruct (collect_times reqs) as [|t rest]; simpl.
    - split; [done|]. split; [done|]. intros m [=].
    - apply Forall_cons in Hpos as [Ht Hrest].
      destruct (foldl_max_bound rest t Ht Hrest) as (_ & Hfirst & Hall).
      split; [split; discriminate|]. split; [split; discriminate|].
      intros m [= <-]. split; [apply py_max_elem|].
      intros u [Heq|Hu]%elem_of_cons; [by subst u | by apply Hall]. }
  apply Forall_cons. split; [apply Hsum|].
  apply Forall_cons. split; [apply Hsum|]. apply Forall_nil_2.
Qed.

Lemma is_slow_positive r : is_slow r = true → positive (total_time r).
Proof.
  unfold is_slow, Num.of_Z.
  destruct (total_time r) as [x| | |]; try done.
  rewrite gtb_Fin_true, positive_Fin. change (inject_Z 10) with 10%Q.
  intros. lra.
Qed.

Lemma collect_times_elem r reqs :
  r ∈ reqs → positive (total_time r) → total_time r ∈ collect_times reqs.
Proof.
  intros Hr Hpos. rewrite collect_times_filter.
  apply list_elem_of_filter. split; [done|].
  apply list_elem_of_fmap. eauto.
Qed.

(** X8.  A slow request (total time above ten seconds) is a checkout request
    whose total time is one of the latency samples when its status is
    below 400 or at least 500.  It counts as a slow error from status
    400 on, so the slow errors hold the 4xx requests that are neither
    checkout errors nor sampled.  The share of slow errors is computed
    without a division by zero and lies above 0 and at most at 100. *)
Theorem slow_requests_and_samples (lines : list string) :
  ∃ st, analyze_logs lines = Ok st
  ∧ (∀ r, r ∈ slow_requests st →
       r ∈ checkout_requests st
       ∧ (status_of r < 400 → total_time r ∈ success_times st)
       ∧ (500 ≤ status_of r → total_time r ∈ error_times st)
       ∧ (r ∈ slow_errors st ↔ 400 ≤ status_of r)
       ∧ (400 ≤ status_of r → status_of r < 500 →
          ¬ (r ∈ checkout_errors st) ∧ ¬ (r ∈ successful_requests st)))
  ∧ match slow_report st with
    | None => slow_requests st = []
    | Some (n, None) =>
        n = length (slow_requests st) ∧ (1 ≤ n)%nat ∧ slow_errors st = []
    | Some (n, Some (k, rate)) =>
        n = length (slow_requests st) ∧ k = length (slow_errors st)
        ∧ (1 ≤ k ≤ n)%nat
        ∧ ∃ q, rate = Ok q ∧ (0 < q <= 100)%Q
    end.
Proof.
  exists (extend empty_analysis lines).
  split; [apply analyze_logs_extend|].
  pose proof (checkout_errors_elem lines) as Herrors.
  generalize dependent (extend empty_analysis lines). intros st Herrors.
  split.
  - intros r [Hslow Hr]%list_elem_of_filter.
    apply is_slow_positive in Hslow as Hpos. split; [done|].
    split; [|split; [|split]].
    + intros Hcode. apply collect_times_elem; [|done].
      apply list_elem_of_filter. split; [|done].
      unfold is_successful. by apply Z.ltb_lt.
    + intros Hcode. apply collect_times_elem; [|done]. by apply Herrors.
    + unfold slow_errors, slow_requests. rewrite !list_elem_of_filter.
      tauto.
    + intros Hlo Hhi. split.
      * intros [_ Hcode]%Herrors. lia.
      * intros [Hcode _]%list_elem_of_filter.
        unfold is_successful in Hcode. apply Z.ltb_lt in Hcode. lia.
  - unfold slow_report.
    pose proof (length_filter_le (fun r => 400 ≤ status_of r)
                  (slow_requests st)) as Hle.
    fold (slow_errors st) in Hle.
    destruct (slow_requests st) as [|r rs] eqn:Hslow; [done|].
    destruct (slow_errors st) as [|e es] eqn:Herr.
    + split; [done|]. split; [simpl; lia | done].
    + split; [done|]. split; [done|]. split; [simpl in *; lia|].
      cbn [length] in *. cbn.
      eexists. split; [reflexivity|]. split.
      * unfold times100. rewrite !Qred_correct. unfold Qlt, Qmult; simpl.
        lia.
      * apply (rate_at_most_100 (S (length es)) (S (length rs)));
          [lia | reflexivity].
Qed.

(** ** Words and categories *)

Lemma append_cons c (a b : string) : String c a +:+ b = String c (a +:+ b).
Proof. reflexivity. Qed.

Lemma append_assoc (a b c : string) : (a +:+ b) +:+ c = a +:+ b +:+ c.
Proof.
  induction a as [|x a IH]; [done|]. by rewrite !append_cons, IH.
Qed.

Lemma prefix_spec t s : String.prefix t s = true ↔ ∃ q, s = t +:+ q.
Proof.
  revert s. induction t as [|c t IH]; intros s.
  - split; [by exists s | by destruct s].
  - destruct s as [|d s]; cbn [String.prefix].
    + split; [done | by intros [q Hq]].
    + destruct (ascii_dec c d) as [<-|Hne].
      * rewrite IH. split; intros [q Hq]; exists q;
          rewrite append_cons in *; congruence.
      * split; [done | intros [q Hq]; rewrite append_cons in Hq; congruence].
Qed.

Lemma contains_spec t s : contains t s = true ↔ ∃ p q, s = p +:+ t +:+ q.
Proof.
  split.
  - induction s as [|c s IH]; cbn [contains].
    + intros [q Hq]%prefix_spec. by exists "", q.
    + intros [[q Hq]%prefix_spec|Hs]%orb_true_iff; [by exists "", q|].
      destruct (IH Hs) as (p & q & ->). by exists (String c p), q.
  - intros (p & q & ->). induction p as [|c p IH].
    + assert (String.prefix t (t +:+ q) = true) as Hp
        by (apply prefix_spec; eauto).
      change ("" +:+ t +:+ q) with (t +:+ q).
      destruct (t +:+ q); cbn [contains]; [done | by rewrite Hp].
    + rewrite append_cons. cbn [contains]. by rewrite IH, orb_true_r.
Qed.

Lemma contains_trans w p s :
  contains w p = true → contains p s = true → contains w s = true.
Proof.
  intros (a & b & ->)%contains_spec (c & d & ->)%contains_spec.
  apply contains_spec. exists (c +:+ a), (b +:+ d).
  by rewrite !append_assoc.
Qed.

Lemma any_in_spec ws s :
  any_in ws s = true ↔ ∃ w, w ∈ ws ∧ contains w s = true.
Proof.
  unfold any_in. rewrite existsb_exists.
  split; intros (w & Hw & Hc); exists w; split; try done;
    by apply list_elem_of_In.
Qed.

(** Each word of [ps] holds a word of [ws]: a text with a word of [ps]
    has a word of [ws]. *)
Lemma any_in_cover ps ws s :
  forallb (any_in ws) ps = true → any_in ps s = true → any_in ws s = true.
Proof.
  rewrite forallb_forall. intros Hcover (p & Hp & Hs)%any_in_spec.
  apply list_elem_of_In, Hcover, any_in_spec in Hp as (w & Hw & Hwp).
  apply any_in_spec. exists w. split; [done|]. by apply (contains_trans w p).
Qed.

Lemma any_in_app ws1 ws2 s :
  any_in (ws1 ++ ws2) s = any_in ws1 s || any_in ws2 s.
Proof. apply existsb_app. Qed.

Lemma lower_app a b : lower (a +:+ b) = lower a +:+ lower b.
Proof.
  induction a as [|c a IH]; [done|].
  rewrite append_cons. cbn [lower]. by rewrite append_cons, IH.
Qed.

Lemma search_any_embedded words text a b :
  search_any words text = true →
  search_any words (a +:+ text +:+ b) = true.
Proof.
  unfold search_any. rewrite !lower_app.
  intros (w & Hw & (p & q & ->)%contains_spec)%any_in_spec.
  apply any_in_spec. exists w. split; [done|]. apply contains_spec.
  exists (lower a +:+ p), (q +:+ lower b). by rewrite !append_assoc.
Qed.

Lemma get_pattern_category_label u :
  get_pattern_category u
  ∈ ["Shopping Cart"; "Payment Processing"; "Order Completion";
     "Checkout Process"; "Other Checkout"].
Proof.
  unfold get_pattern_category. cbv zeta.
  repeat match goal with
         | |- context [if ?b then _ else _] => destruct b
         end;
    repeat first [apply list_elem_of_here | apply list_elem_of_further].
Qed.

Lemma categorize_checkout_stage_label u :
  categorize_checkout_stage u
  ∈ ["Cart Operations"; "Checkout Initiation"; "Shipping/Address";
     "Payment Processing"; "Order Completion"; "Account/Authentication";
     "General Checkout"; "Other E-commerce"].
Proof.
  unfold categorize_checkout_stage. cbv zeta.
  repeat match goal with
         | |- context [if ?b then _ else _] => destruct b
         end;
    repeat first [apply list_elem_of_here | apply list_elem_of_further].
Qed.

Local Ltac not_a_label :=
  match goal with
  | Hin : _ ∈ _ |- _ =>
      repeat (apply elem_of_cons in Hin as [Hin|Hin]; [discriminate|]);
      by apply elem_of_nil in Hin
  end.

Local Ltac case_ifs :=
  repeat match goal with
         | |- context [if ?b then _ else _] => destruct b eqn:?
         end.

Local Ltac rewrite_false Hrel :=
  repeat match goal with
         | H : any_in _ _ = false |- _ => rewrite H in Hrel; clear H
         end.

Lemma get_pattern_category_other u :
  get_pattern_category u = "Other Checkout"
  ↔ any_in category_words (lower u) = false.
Proof.
  unfold get_pattern_category, category_words. cbv zeta.
  rewrite !any_in_app.
  case_ifs; split; try discriminate; reflexivity.
Qed.

Lemma categorize_checkout_stage_other u :
  categorize_checkout_stage u = "Other E-commerce"
  ↔ any_in stage_words (lower u) = false.
Proof.
  unfold categorize_checkout_stage, stage_words. cbv zeta.
  rewrite !any_in_app, any_in_singleton.
  case_ifs; split; try discriminate; reflexivity.
Qed.

(** X9.  The checkout word list and the two label functions fit together as
    follows.  A URL labelled as cart, payment or checkout process is
    checkout-related, and one labelled as order completion is so unless
    it has only the word confirmation.  A URL whose lower-cased text
    holds a checkout word gets the fall-back category only through one
    of five words that have no category, and the fall-back stage only
    through one of five words that have no stage.  A URL stays
    checkout-related whatever is put before or after it. *)
Theorem checkout_words_and_labels (u : string) :
  (get_pattern_category u
   ∈ ["Shopping Cart"; "Payment Processing"; "Checkout Process"] →
   is_checkout_related u = true)
  ∧ (get_pattern_category u = "Order Completion" →
     is_checkout_related u = true
     ∨ contains "confirmation" (lower u) = true)
  ∧ (any_in checkout_patterns (lower u) = true →
     get_pattern_category u = "Other Checkout" →
     any_in ["/shopping-cart/"; "amazonpay"; "applepay"; "googlepay";
             "creditcard"] (lower u) = true)
  ∧ (any_in checkout_patterns (lower u) = true →
     categorize_checkout_stage u = "Other E-commerce" →
     any_in ["onepage"; "klarna"; "affirm"; "/order/"; "/orders/"]
       (lower u) = true)
  ∧ (is_checkout_related u = true →
     ∀ a b, is_checkout_related (a +:+ u +:+ b) = true).
Proof.
  unfold is_checkout_related, search_any.
  split; [|split; [|split; [|split]]].
  - unfold get_pattern_category. cbv zeta.
  case_ifs; intros Hin;
    first [ exfalso; not_a_label
          | match goal with
            | H : any_in _ _ = true |- _ =>
                eapply (any_in_cover _ checkout_patterns) in H;
                [exact H | vm_compute; reflexivity]
            end ].
  - unfold get_pattern_category. cbv zeta.
    destruct (any_in ["/order/"; "/orders/"; "order/success";
                      "order/complete"; "checkout/success"; "thank-you";
                      "thankyou"; "receipt"; "confirmation"] (lower u))
      eqn:H3; [|case_ifs; discriminate].
    intros _.
    change (any_in (["/order/"; "/orders/"; "order/success";
                     "order/complete"; "checkout/success"; "thank-you";
                     "thankyou"; "receipt"] ++ ["confirmation"])
              (lower u) = true) in H3.
    rewrite any_in_app in H3. apply orb_true_iff in H3 as [H3|H3].
    + left. eapply (any_in_cover _ checkout_patterns) in H3;
        [exact H3 | by vm_compute].
    + right. by rewrite any_in_singleton in H3.
  - intros Hrel Hother%get_pattern_category_other.
    apply (any_in_cover _ (category_words
                           ++ ["/shopping-cart/"; "amazonpay"; "applepay";
                               "googlepay"; "creditcard"])) in Hrel;
      [|by vm_compute].
    rewrite any_in_app, Hother in Hrel. exact Hrel.
  - intros Hrel Hother%categorize_checkout_stage_other.
    apply (any_in_cover _ (stage_words
                           ++ ["onepage"; "klarna"; "affirm"; "/order/";
                               "/orders/"])) in Hrel;
      [|by vm_compute].
    rewrite any_in_app, Hother in Hrel. exact Hrel.
  - intros Hrel a b. by apply (search_any_embedded checkout_patterns).
Qed.

(** ** Keys of the label tables *)

Lemma checkout_requests_classified lines c :
  c ∈ checkout_requests (extend empty_analysis lines) →
  c = classify (entry c) (url c) ∧ is_checkout_related (url c) = true.
Proof.
  unfold extend; cbn [checkout_requests empty_analysis app].
  intros (e & _ & Hc)%list_elem_of_omap.
  apply checkout_of_inv in Hc as (He & _ & Hrel & Hc). by rewrite He.
Qed.

Lemma size_keys_le `{Countable K} {V} (m : gmap K V) (labels : list K) :
  (∀ k, is_Some (m !! k) → k ∈ labels) → (size m ≤ length labels)%nat.
Proof.
  intros Hkeys. rewrite <- size_dom.
  transitivity (size (list_to_set (C := gset K) labels)).
  - apply subseteq_size. intros k Hk%elem_of_dom.
    by apply elem_of_list_to_set, Hkeys.
  - clear. induction labels as [|k l IH]; [done|]. cbn [list_to_set length].
    destruct (decide (k ∈ (list_to_set l : gset K))) as [Hin|Hout].
    + rewrite (subseteq_union_1_L {[k]} (list_to_set l)) by set_solver. lia.
    + rewrite size_union by set_solver. rewrite size_singleton. lia.
Qed.

(** X10.  The pattern table has a row exactly for the categories of the
    checkout requests and the stage table exactly for their stages, so
    the first has at most five rows, the second at most eight and
    neither ever has a row without requests; the per-stage error codes
    are filed under stages of the stage table. *)
Theorem label_tables_have_label_keys (lines : list string) :
  ∃ st, analyze_logs lines = Ok st
  ∧ (∀ k, is_Some (pattern_stats st !! k)
       ↔ ∃ c, c ∈ checkout_requests st ∧ get_pattern_category (url c) = k)
  ∧ (∀ k, is_Some (stage_stats st !! k)
       ↔ ∃ c, c ∈ checkout_requests st
              ∧ categorize_checkout_stage (url c) = k)
  ∧ (∀ k, is_Some (stage_errors_by_code st !! k)
       ↔ ∃ c, c ∈ checkout_errors st
              ∧ categorize_checkout_stage (url c) = k)
  ∧ (size (pattern_stats st) ≤ 5)%nat
  ∧ (size (stage_stats st) ≤ 8)%nat
  ∧ (size (stage_errors_by_code st) ≤ size (stage_stats st))%nat.
Proof.
  exists (extend empty_analysis lines).
  split; [apply analyze_logs_extend|].
  pose proof (checkout_errors_elem lines) as Herrors.
  pose proof (checkout_requests_classified lines) as Hclass.
  generalize dependent (extend empty_analysis lines). intros st Herrors Hclass.
  assert (∀ c, c ∈ checkout_requests st →
               pattern_category c = get_pattern_category (url c)
               ∧ checkout_stage c = categorize_checkout_stage (url c))
    as Hlabels.
  { intros c [Hc _]%Hclass. by rewrite Hc. }
  assert (∀ k, is_Some (pattern_stats st !! k)
       ↔ ∃ c, c ∈ checkout_requests st ∧ get_pattern_category (url c) = k)
    as Hpattern.
  { intros k. rewrite pattern_stats_lookup. unfold funnel_of. split.
    - destruct (filter _ (checkout_requests st)) as [|c cs] eqn:Hreqs;
        destruct (filter _ (checkout_errors st)) as [|e es] eqn:Herrs;
        cbn; intros Hsome; try by destruct Hsome.
      + assert (e ∈ filter (fun c => pattern_category c = k)
                      (checkout_errors st)) as [Hk [He _]%Herrors]
          %list_elem_of_filter by (rewrite Herrs; apply list_elem_of_here).
        exists e. split; [done|]. by rewrite <- (proj1 (Hlabels e He)).
      + assert (c ∈ filter (fun c => pattern_category c = k)
                      (checkout_requests st)) as [Hk Hc]%list_elem_of_filter
          by (rewrite Hreqs; apply list_elem_of_here).
        exists c. split; [done|]. by rewrite <- (proj1 (Hlabels c Hc)).
      + assert (c ∈ filter (fun c => pattern_category c = k)
                      (checkout_requests st)) as [Hk Hc]%list_elem_of_filter
          by (rewrite Hreqs; apply list_elem_of_here).
        exists c. split; [done|]. by rewrite <- (proj1 (Hlabels c Hc)).
    - intros (c & Hc & Hk).
      assert (c ∈ filter (fun c => pattern_category c = k)
                    (checkout_requests st)) as Hin.
      { apply list_elem_of_filter. split; [|done].
        by rewrite (proj1 (Hlabels c Hc)). }
      destruct (filter _ (checkout_requests st)) as [|c' cs];
        [by apply elem_of_nil in Hin|]. cbn. eauto. }
  assert (∀ k, is_Some (stage_stats st !! k)
       ↔ ∃ c, c ∈ checkout_requests st
              ∧ categorize_checkout_stage (url c) = k) as Hstage.
  { intros k. rewrite stage_stats_lookup. unfold stage_of. split.
    - destruct (_ =? 0)%nat eqn:Hz; [by intros []|]. intros _.
      apply Nat.eqb_neq in Hz.
      assert (0 < count_by checkout_stage k (checkout_requests st)
              ∨ 0 < count_by checkout_stage k (checkout_errors st))%nat
        as [(c & Hc & Hk)%count_by_pos|(c & [Hc _]%Herrors & Hk)%count_by_pos]
        by lia; exists c; (split; [done|]);
        by rewrite <- (proj2 (Hlabels c Hc)).
    - intros (c & Hc & Hk).
      assert (0 < count_by checkout_stage k (checkout_requests st))%nat as Hpos.
      { apply count_by_pos. exists c. split; [done|].
        by rewrite (proj2 (Hlabels c Hc)). }
      destruct (_ =? 0)%nat eqn:Hz; [|eauto].
      apply Nat.eqb_eq in Hz. lia. }
  assert (∀ k, is_Some (stage_errors_by_code st !! k)
       ↔ ∃ c, c ∈ checkout_errors st
              ∧ categorize_checkout_stage (url c) = k) as Hcodes.
  { intros k. unfold stage_errors_by_code.
    rewrite tally_lookup, lookup_empty. split.
    - destruct (filter _ (checkout_errors st)) as [|e es] eqn:Herrs;
        [by intros []|]. intros _.
      assert (e ∈ filter (fun c => checkout_stage c = k)
                    (checkout_errors st)) as [Hk He]%list_elem_of_filter
        by (rewrite Herrs; apply list_elem_of_here).
      exists e. split; [done|]. apply Herrors in He as [He _].
      by rewrite <- (proj2 (Hlabels e He)).
    - intros (c & Hc & Hk).
      assert (c ∈ filter (fun c => checkout_stage c = k)
                    (checkout_errors st)) as Hin.
      { apply list_elem_of_filter. split; [|done].
        apply Herrors in Hc as [Hc _]. by rewrite (proj2 (Hlabels c Hc)). }
      destruct (filter _ (checkout_errors st)) as [|c' cs];
        [by apply elem_of_nil in Hin | eauto]. }
  split; [done|]. split; [done|]. split; [done|]. split; [|split].
  - apply (size_keys_le _ ["Shopping Cart"; "Payment Processing";
                           "Order Completion"; "Checkout Process";
                           "Other Checkout"]).
    intros k (c & _ & <-)%Hpattern. apply get_pattern_category_label.
  - apply (size_keys_le _ ["Cart Operations"; "Checkout Initiation";
                           "Shipping/Address"; "Payment Processing";
                           "Order Completion"; "Account/Authentication";
                           "General Checkout"; "Other E-commerce"]).
    intros k (c & _ & <-)%Hstage. apply categorize_checkout_stage_label.
  - rewrite <- !size_dom. apply subseteq_size.
    intros k (c & [Hc _]%Herrors & Hk)%elem_of_dom%Hcodes.
    apply elem_of_dom, Hstage. eauto.
Qed.

(** ** Well-formed lines *)

Lemma try_lengths_first {A} n min (cont : nat → option A) r :
  (min ≤ n)%nat → cont n = Some r → try_lengths n min cont = Some r.
Proof.
  intros Hmin Hcont. destruct n as [|n]; cbn [try_lengths].
  - apply Nat.ltb_ge in Hmin as ->. by rewrite Hcont.
  - apply Nat.ltb_ge in Hmin as ->. by rewrite Hcont.
Qed.

Lemma run_length_stops k w rest :
  forallb (in_class k) w = true → stops k rest →
  run_length k (w ++ rest) = length w.
Proof.
  intros Hw Hrest. induction w as [|c w IH]; cbn [app run_length length].
  - destruct rest as [|c rest]; [done|]. simpl in Hrest. cbn [run_length].
    by rewrite Hrest.
  - cbn [forallb] in Hw. apply andb_true_iff in Hw as [-> Hw].
    by rewrite IH.
Qed.

Lemma match_rep capture min k w rest items gs :
  forallb (in_class k) w = true → stops k rest → (min ≤ length w)%nat →
  match_items items rest = Some gs →
  match_items (Rep capture min k :: items) (w ++ rest)
  = Some (if capture then string_of_list_ascii w :: gs else gs).
Proof.
  intros Hw Hstop Hmin Hrest. cbn [match_items].
  rewrite run_length_stops by done. apply try_lengths_first; [done|].
  by rewrite drop_app_length, take_app_length, Hrest.
Qed.

Lemma match_lit c rest items gs :
  match_items items rest = Some gs →
  match_items (Lit c :: items) (c :: rest) = Some gs.
Proof. intros Hrest. cbn [match_items]. by rewrite Ascii.eqb_refl. Qed.

Lemma list_ascii_app (a b : string) :
  list_ascii_of_string (a +:+ b)
  = list_ascii_of_string a ++ list_ascii_of_string b.
Proof.
  induction a as [|c a IH]; [done|].
  rewrite append_cons. cbn [list_ascii_of_string app]. by rewrite IH.
Qed.

Lemma list_ascii_quote (q rest : string) :
  list_ascii_of_string (quote q +:+ rest)
  = dquote :: list_ascii_of_string q ++ dquote :: list_ascii_of_string rest.
Proof.
  unfold quote. rewrite append_cons. cbn [list_ascii_of_string].
  by rewrite append_assoc, list_ascii_app, append_cons.
Qed.

Lemma stops_app k k' w rest :
  (∀ c, in_class k' c = true → in_class k c = false) →
  (1 ≤ length w)%nat → forallb (in_class k') w = true →
  stops k (w ++ rest).
Proof.
  intros Hdisjoint Hlen Hw. destruct w as [|c w]; [simpl in Hlen; lia|].
  cbn [forallb] in Hw. apply andb_true_iff in Hw as [Hc _].
  by apply Hdisjoint.
Qed.

Lemma is_word_inv w :
  is_word w = true →
  (1 ≤ length (list_ascii_of_string w))%nat
  ∧ forallb (in_class NonSpace) (list_ascii_of_string w) = true.
Proof.
  unfold is_word, neq_str. intros [Hne Hw]%andb_true_iff. split; [|done].
  destruct w; [done | simpl; lia].
Qed.

Lemma is_gap_inv g :
  is_gap g = true →
  (1 ≤ length (list_ascii_of_string g))%nat
  ∧ forallb (in_class Space) (list_ascii_of_string g) = true.
Proof.
  unfold is_gap, neq_str. intros [Hne Hg]%andb_true_iff. split; [|done].
  destruct g; [done | simpl; lia].
Qed.

Lemma space_not_nonspace c : in_class Space c = true → in_class NonSpace c = false.
Proof. simpl. by intros ->. Qed.

Lemma nonspace_not_space c : in_class NonSpace c = true → in_class Space c = false.
Proof. simpl. by intros ->%negb_true_iff. Qed.

(** A field of the pattern takes a word and the gap after it. *)
Lemma match_field w g rest items gs :
  is_word w = true → is_gap g = true →
  stops Space (list_ascii_of_string rest) →
  match_items items (list_ascii_of_string rest) = Some gs →
  match_items (field ++ items) (list_ascii_of_string (w +:+ g +:+ rest))
  = Some (w :: gs).
Proof.
  intros [Hlen Hw]%is_word_inv [Hglen Hg]%is_gap_inv Hstop Hrest.
  rewrite !list_ascii_app. unfold field. cbn [app].
  rewrite (match_rep true 1 NonSpace _ _ _ gs); try done.
  - by rewrite string_of_list_ascii_of_string.
  - by apply (stops_app _ Space); [apply space_not_nonspace|..].
  - by apply (match_rep false 1 Space).
Qed.

(** A quoted field of the pattern takes a text without double quote
    between two double quotes, and the gap after it. *)
Lemma match_quoted q g rest items gs :
  quote_free q = true → is_gap g = true →
  stops Space (list_ascii_of_string rest) →
  match_items items (list_ascii_of_string rest) = Some gs →
  match_items (quoted ++ items)
    (list_ascii_of_string (quote q +:+ g +:+ rest))
  = Some (q :: gs).
Proof.
  intros Hq [Hglen Hg]%is_gap_inv Hstop Hrest.
  rewrite list_ascii_quote, list_ascii_app. unfold quoted. cbn [app].
  apply match_lit.
  change (dquote :: list_ascii_of_string g ++ list_ascii_of_string rest)
    with ([dquote] ++ list_ascii_of_string g ++ list_ascii_of_string rest).
  rewrite (match_rep true 0 NotQuote _ _ _ gs); try done.
  - by rewrite string_of_list_ascii_of_string.
  - lia.
  - cbn [app]. apply match_lit. by apply (match_rep false 1 Space).
Qed.

Lemma stops_word w rest :
  is_word w = true → stops Space (list_ascii_of_string (w +:+ rest)).
Proof.
  intros [Hlen Hw]%is_word_inv. rewrite list_ascii_app.
  by apply (stops_app _ NonSpace); [apply nonspace_not_space|..].
Qed.

Lemma stops_quote q rest : stops Space (list_ascii_of_string (quote q +:+ rest)).
Proof. rewrite list_ascii_quote. reflexivity. Qed.

Lemma match_last_fields cipher g protocol tail :
  is_word cipher = true → is_gap g = true → is_word protocol = true →
  is_tail tail = true →
  match_items [Rep true 1 NonSpace; Rep false 1 Space; Rep true 1 NonSpace]
    (list_ascii_of_string (cipher +:+ g +:+ protocol +:+ tail))
  = Some [cipher; protocol].
Proof.
  intros Hcipher Hgap Hprotocol Htail.
  apply (match_field cipher g (protocol +:+ tail) [Rep true 1 NonSpace]);
    try done; [by apply stops_word|].
  apply is_word_inv in Hprotocol as [Hlen Hw]. rewrite list_ascii_app.
  rewrite (match_rep true 1 NonSpace _ _ [] []); try done.
  - by rewrite string_of_list_ascii_of_string.
  - destruct tail as [|c tail]; [done|]. simpl in *. by rewrite Htail.
Qed.

(** The pattern accepts a line written from well-formed fields, and its
    groups are these fields. *)
Lemma re_match_render_line gap words req ua cipher protocol tail :
  length words = 12%nat → forallb is_word words = true →
  is_gap gap = true → quote_free req = true → quote_free ua = true →
  is_word cipher = true → is_word protocol = true → is_tail tail = true →
  re_match elb_pattern (render_line gap words req ua cipher protocol tail)
  = Some (words ++ [req; ua; cipher; protocol]).
Proof.
  intros Hlen Hwords Hgap Hreq Hua Hcipher Hprotocol Htail.
  do 12 (destruct words as [|? words]; [discriminate|]).
  destruct words; [|discriminate]. clear Hlen.
  cbn [forallb] in Hwords.
  repeat match goal with
         | H : _ && _ = true |- _ => apply andb_true_iff in H as [? H]
         end.
  unfold re_match, elb_pattern, render_line. cbn [fold_right app].
  repeat (apply match_field; [done | done | by apply stops_word || apply stops_quote |]).
  apply match_field; [done | done | apply stops_quote |].
  apply match_quoted; [done | done | apply stops_quote |].
  apply (match_quoted ua gap (cipher +:+ gap +:+ protocol +:+ tail)
           [Rep true 1 NonSpace; Rep false 1 Space; Rep true 1 NonSpace]);
    [done | done | by apply stops_word |].
  by apply match_last_fields.
Qed.

Lemma host_of_total g : ∃ h, host_of g = Ok h.
Proof.
  unfold host_of. destruct (split_on_first ":" g) as (h & t & -> & _).
  by exists h.
Qed.

Lemma parse_latency_result g :
  (∃ t, parse_latency g = Ok t)
  ∨ (g ≠ "-1" ∧ py_float g = Raise ValueError
     ∧ parse_latency g = Raise ValueError).
Proof.
  unfold parse_latency, neq_str.
  destruct (String.eqb_spec g "-1") as [->|Hne]; cbn [negb]; [eauto|].
  destruct (py_float g) as [t|e] eqn:Hg; [eauto|].
  apply py_float_raises in Hg as Heq. subst e. by right.
Qed.

Lemma parse_status_result g :
  (∃ t, parse_status g = Ok t)
  ∨ (g ≠ "-" ∧ py_int g = Raise ValueError
     ∧ parse_status g = Raise ValueError).
Proof.
  unfold parse_status, neq_str.
  destruct (String.eqb_spec g "-") as [->|Hne]; cbn [negb]; [eauto|].
  destruct (py_int g) as [t|e] eqn:Hg; [cbn; eauto|].
  apply py_int_raises in Hg as Heq. subst e. by right.
Qed.

Lemma parse_bytes_result g :
  (∃ t, parse_bytes g = Ok t)
  ∨ (g ≠ "-" ∧ py_int g = Raise ValueError
     ∧ parse_bytes g = Raise ValueError).
Proof.
  unfold parse_bytes, neq_str.
  destruct (String.eqb_spec g "-") as [->|Hne]; cbn [negb]; [eauto|].
  destruct (py_int g) as [t|e] eqn:Hg; [eauto|].
  apply py_int_raises in Hg as Heq. subst e. by right.
Qed.

Lemma bad_numeric_field_fails line groups :
  re_match elb_pattern line = Some groups →
  bad_numeric_field groups → parse_log_line line = Ok None.
Proof.
  intros Hm (i & g & Hg & Hbad).
  destruct (parse_log_line_total line) as [|[r Hr]]; [done|]. exfalso.
  apply parse_log_line_inv in Hr as (groups' & Hm' & Hr).
  assert (groups' = groups) as -> by congruence.
  destruct Hr as (_ & _ & _ & (g5 & H5 & P5) & (g6 & H6 & P6)
    & (g7 & H7 & P7) & (g8 & H8 & P8) & (g9 & H9 & P9)
    & (g10 & H10 & P10) & (g11 & H11 & P11) & _).
  unfold parse_latency, parse_status, parse_bytes, neq_str in *.
  destruct Hbad as [(Hi & Hne & Hv) | (Hi & Hne & Hv)];
    apply String.eqb_neq in Hne.
  - assert (i = 5 ∨ i = 6 ∨ i = 7)%nat as [->|[->| ->]] by lia;
      simplify_eq; rewrite Hne in *; simpl in *; congruence.
  - assert (i = 8 ∨ i = 9 ∨ i = 10 ∨ i = 11)%nat
      as [->|[->|[->| ->]]] by lia;
      simplify_eq; rewrite Hne, Hv in *; simpl in *; discriminate.
Qed.

(** X11.  A line written from well-formed fields, none of its first
    twelve longer than 4300 characters, matches the pattern with these
    fields as its groups.  It is parsed to a record exactly when none of
    its seven numeric fields is bad, whatever the other fields hold, and
    the record is read from these fields. *)
Theorem well_formed_line_is_parsed gap words req ua cipher protocol tail :
  length words = 12%nat → forallb is_word words = true →
  forallb (fun w => (String.length w <=? 4300)%nat) words = true →
  is_gap gap = true → quote_free req = true → quote_free ua = true →
  is_word cipher = true → is_word protocol = true → is_tail tail = true →
  re_match elb_pattern (render_line gap words req ua cipher protocol tail)
  = Some (words ++ [req; ua; cipher; protocol])
  ∧ (parse_log_line (render_line gap words req ua cipher protocol tail)
     = Ok None
     ↔ bad_numeric_field (words ++ [req; ua; cipher; protocol]))
  ∧ (∀ r, parse_log_line (render_line gap words req ua cipher protocol tail)
          = Ok (Some r) →
          parsed_from (words ++ [req; ua; cipher; protocol]) r
          ∧ request r = req ∧ user_agent r = ua).
Proof.
  intros Hlen Hwords _ Hgap Hreq Hua Hcipher Hprotocol Htail.
  pose proof (re_match_render_line gap words req ua cipher protocol tail
                Hlen Hwords Hgap Hreq Hua Hcipher Hprotocol Htail) as Hm.
  split; [exact Hm|]. split; [split|].
  - intros Hnone. unfold parse_log_line, parse_log_line_body in Hnone.
    rewrite Hm in Hnone. clear Hm Hwords.
    destruct words
      as [|w0 [|w1 [|w2 [|w3 [|w4 [|w5 [|w6 [|w7 [|w8 [|w9 [|w10 [|w11 [|]]]]]]]]]]]]];
      try discriminate. clear Hlen.
    cbn [app length Nat.ltb Nat.leb] in Hnone |- *.
    unfold bad_numeric_field.
    destruct (parse_latency_result w5) as [[t5 H5]|(? & ? & _)];
      [|exists 5%nat, w5; split; [done|]; left; split; [lia | done]].
    destruct (parse_latency_result w6) as [[t6 H6]|(? & ? & _)];
      [|exists 6%nat, w6; split; [done|]; left; split; [lia | done]].
    destruct (parse_latency_result w7) as [[t7 H7]|(? & ? & _)];
      [|exists 7%nat, w7; split; [done|]; left; split; [lia | done]].
    destruct (parse_status_result w8) as [[t8 H8]|(? & ? & _)];
      [|exists 8%nat, w8; split; [done|]; right; split; [lia | done]].
    destruct (parse_status_result w9) as [[t9 H9]|(? & ? & _)];
      [|exists 9%nat, w9; split; [done|]; right; split; [lia | done]].
    destruct (parse_bytes_result w10) as [[t10 H10]|(? & ? & _)];
      [|exists 10%nat, w10; split; [done|]; right; split; [lia | done]].
    destruct (parse_bytes_result w11) as [[t11 H11]|(? & ? & _)];
      [|exists 11%nat, w11; split; [done|]; right; split; [lia | done]].
    exfalso.
    destruct (host_of_total w3) as [h3 H3].
    destruct (host_of_total w4) as [h4 H4].
    unfold subscript in Hnone. cbn [lookup list_lookup] in Hnone.
    cbn [mbind result_bind] in Hnone.
    rewrite H3, H5, H6, H7, H8, H9, H10, H11 in Hnone.
    cbn [mbind result_bind] in Hnone.
    destruct (neq_str w4 "-"); [rewrite H4 in Hnone|];
      cbn [mbind result_bind] in Hnone; discriminate.
  - by apply bad_numeric_field_fails.
  - intros r (groups & Hm' & Hr)%parse_log_line_inv.
    assert (groups = words ++ [req; ua; cipher; protocol]) as ->
      by congruence.
    split; [done|].
    destruct Hr as (_ & _ & _ & _ & _ & _ & _ & _ & _ & _ & H12 & H13).
    destruct words
      as [|w0 [|w1 [|w2 [|w3 [|w4 [|w5 [|w6 [|w7 [|w8 [|w9 [|w10 [|w11 [|]]]]]]]]]]]]];
      try discriminate.
    cbn in H12, H13. by simplify_eq.
Qed.

Lemma well_formed_line_is_parsed_witness :
  re_match elb_pattern
    (render_line " "
       ["https"; "2023-12-15T10:33:05.123456Z"; "my-elb"; "10.0.0.1:5000";
        "10.0.1.7:80"; "0.25"; "0.5"; "0.125"; "502"; "502"; "100"; "250"]
       "GET /cart/add?sku=7 HTTP/1.1" "Mozilla/5.0 (Macintosh)"
       "ECDHE-RSA-AES128" "TLSv1.2" (String "010" EmptyString))
  = Some (["https"; "2023-12-15T10:33:05.123456Z"; "my-elb"; "10.0.0.1:5000";
           "10.0.1.7:80"; "0.25"; "0.5"; "0.125"; "502"; "502"; "100"; "250"]
          ++ ["GET /cart/add?sku=7 HTTP/1.1"; "Mozilla/5.0 (Macintosh)";
              "ECDHE-RSA-AES128"; "TLSv1.2"]).
Proof.
  apply well_formed_line_is_parsed; reflexivity.
Defined.

(** ** The groups of a matched line *)

Lemma length_string_of_list_ascii l :
  String.length (string_of_list_ascii l) = length l.
Proof. induction l as [|c l IH]; simpl; [done | by rewrite IH]. Qed.

Lemma match_items_groups items s gs :
  match_items items s = Some gs → Forall2 in_group (group_classes items) gs.
Proof.
  revert s gs. induction items as [|[c|capture min k] rest IH];
    intros s gs; cbn [match_items group_classes].
  - intros [= <-]. constructor.
  - destruct s as [|c' s]; [discriminate|].
    destruct (Ascii.eqb c c'); [|discriminate]. apply IH.
  - intros (j & Hj & Hcont)%try_lengths_some.
    destruct (match_items rest (drop j s)) as [gs'|] eqn:Hrest;
      [|discriminate].
    apply IH in Hrest. destruct capture; injection Hcont as <-; [|done].
    constructor; [|done]. unfold in_group; cbn [fst snd].
    pose proof (run_length_le k s) as Hle.
    rewrite length_string_of_list_ascii, length_take,
      list_ascii_of_string_of_list_ascii.
    split; [lia|]. apply forallb_forall. intros c Hc%list_elem_of_In.
    assert (Forall (fun c => in_class k c = true) (take j s)) as Hall
      by (apply run_length_take; lia).
    by eapply Forall_forall in Hall.
Qed.

Lemma in_group_word g : in_group (1%nat, NonSpace) g → is_word g = true.
Proof.
  unfold in_group, is_word, neq_str; cbn [fst snd]. intros [Hlen ->].
  destruct g; [simpl in Hlen; lia | done].
Qed.

Lemma in_group_quote_free g : in_group (0%nat, NotQuote) g → quote_free g = true.
Proof. by intros [_ Hg]. Qed.

Lemma elb_pattern_groups line groups :
  re_match elb_pattern line = Some groups →
  ∃ words req ua cipher protocol,
    groups = words ++ [req; ua; cipher; protocol]
    ∧ length words = 12%nat ∧ forallb is_word words = true
    ∧ quote_free req = true ∧ quote_free ua = true
    ∧ is_word cipher = true ∧ is_word protocol = true.
Proof.
  intros Hm%match_items_groups.
  change (group_classes elb_pattern)
    with (replicate 12 (1%nat, NonSpace)
          ++ [(0%nat, NotQuote); (0%nat, NotQuote);
              (1%nat, NonSpace); (1%nat, NonSpace)]) in Hm.
  apply Forall2_app_inv_l in Hm as (words & rest & Hwords & Hrest & ->).
  apply Forall2_cons_inv_l in Hrest as (req & rest1 & Hreq & Hrest & ->).
  apply Forall2_cons_inv_l in Hrest as (ua & rest2 & Hua & Hrest & ->).
  apply Forall2_cons_inv_l in Hrest as (cipher & rest3 & Hcipher & Hrest & ->).
  apply Forall2_cons_inv_l in Hrest as (protocol & rest4 & Hprotocol & Hrest & ->).
  apply Forall2_nil_inv_l in Hrest as ->.
  exists words, req, ua, cipher, protocol. split; [done|].
  split; [by apply Forall2_length in Hwords|].
  split; [|by auto using in_group_word, in_group_quote_free].
  apply forallb_forall. intros w Hw%list_elem_of_In.
  apply list_elem_of_lookup in Hw as [i Hi].
  destruct (Forall2_lookup_r _ _ _ _ _ Hwords Hi) as (mk & Hmk & Hin).
  apply lookup_replicate in Hmk as [-> _]. by apply in_group_word.
Qed.

Lemma quote_free_cons c s :
  quote_free (String c s) = true ↔ c ≠ dquote ∧ quote_free s = true.
Proof.
  unfold quote_free. cbn [list_ascii_of_string forallb in_class].
  rewrite andb_true_iff, negb_true_iff. by rewrite Ascii.eqb_neq.
Qed.

Lemma rstrip_quote_free s : quote_free s = true → rstrip dquote s = s.
Proof.
  induction s as [|c s IH]; [done|].
  intros [Hc Hs]%quote_free_cons. cbn [rstrip]. rewrite (IH Hs).
  destruct s; [|done]. by apply Ascii.eqb_neq in Hc as ->.
Qed.

Lemma strip_quote_free s : quote_free s = true → strip dquote s = s.
Proof.
  intros Hs. unfold strip.
  assert (lstrip dquote s = s) as ->; [|by apply rstrip_quote_free].
  destruct s as [|c s]; [done|]. apply quote_free_cons in Hs as [Hc _].
  cbn [lstrip]. by apply Ascii.eqb_neq in Hc as ->.
Qed.

Lemma split_on_parts sep s :
  Forall (fun p => contains (String sep EmptyString) p = false
                   ∧ (quote_free s = true → quote_free p = true))
         (split_on sep s).
Proof.
  induction s as [|c s IH]; cbn [split_on].
  - by repeat constructor.
  - destruct (Ascii.eqb_spec c sep) as [->|Hne].
    + constructor; [done|]. eapply Forall_impl; [exact IH|].
      intros p [Hp Hq]. split; [done|].
      intros [_ Hs]%quote_free_cons. auto.
    + destruct (split_on_first sep s) as (h & t & Hsplit & _).
      rewrite Hsplit in *.
      apply Forall_cons in IH as [[Hh Hq] IH]. constructor.
      * split.
        -- cbn [contains String.prefix].
           destruct (ascii_dec sep c) as [->|_]; [done|]. exact Hh.
        -- intros [Hc Hs]%quote_free_cons. apply quote_free_cons. auto.
      * eapply Forall_impl; [exact IH|]. intros p [Hp Hq']. split; [done|].
        intros [_ Hs]%quote_free_cons. auto.
Qed.

Lemma request_url_quote_free req u :
  quote_free req = true → request_url req = Some u →
  split_on " " req !! 1%nat = Some u
  ∧ quote_free u = true ∧ contains " " u = false.
Proof.
  intros Hreq. unfold request_url. cbv zeta.
  pose proof (split_on_parts " " req) as Hparts.
  destruct (split_on " " req) as [|p0 [|p1 parts]]; try discriminate.
  cbn [length Nat.leb nth]. intros [= <-].
  apply Forall_cons in Hparts as [_ [[Hsp Hq] _]%Forall_cons].
  rewrite strip_quote_free by auto. auto.
Qed.

Lemma parse_log_line_body_only_value_error line e :
  parse_log_line_body line = Raise e → e = ValueError.
Proof.
  unfold parse_log_line_body.
  destruct (re_match elb_pattern line) as [groups|] eqn:Hm; [|discriminate].
  apply elb_pattern_groups in Hm
    as (words & req & ua & cipher & protocol & -> & Hlen & _).
  destruct words
    as [|w0 [|w1 [|w2 [|w3 [|w4 [|w5 [|w6 [|w7 [|w8 [|w9 [|w10 [|w11 [|]]]]]]]]]]]]];
    try discriminate. clear Hlen.
  cbn [app length Nat.ltb Nat.leb]. unfold subscript.
  cbn [lookup list_lookup mbind result_bind].
  destruct (host_of_total w3) as [h3 ->].
  destruct (host_of_total w4) as [h4 H4].
  assert (∃ t, (if neq_str w4 "-" then h ← host_of w4; Ok (Some h)
                else Ok None) = Ok t) as [t4 ->].
  { destruct (neq_str w4 "-"); [rewrite H4|]; cbn; eauto. }
  cbn [mbind result_bind].
  destruct (parse_latency_result w5) as [[t5 ->]|(_ & _ & ->)];
    cbn [mbind result_bind]; [|congruence].
  destruct (parse_latency_result w6) as [[t6 ->]|(_ & _ & ->)];
    cbn [mbind result_bind]; [|congruence].
  destruct (parse_latency_result w7) as [[t7 ->]|(_ & _ & ->)];
    cbn [mbind result_bind]; [|congruence].
  destruct (parse_status_result w8) as [[t8 ->]|(_ & _ & ->)];
    cbn [mbind result_bind]; [|congruence].
  destruct (parse_status_result w9) as [[t9 ->]|(_ & _ & ->)];
    cbn [mbind result_bind]; [|congruence].
  destruct (parse_bytes_result w10) as [[t10 ->]|(_ & _ & ->)];
    cbn [mbind result_bind]; [|congruence].
  destruct (parse_bytes_result w11) as [[t11 ->]|(_ & _ & ->)];
    cbn [mbind result_bind]; [|congruence].
  discriminate.
Qed.

(** X12.  A match of the pattern always has sixteen groups: twelve words, two
    texts without double quote and two words.  So the length guard of
    the parser never fires, no subscript is out of range, and the only
    exception its handler ever catches is the [ValueError] of a numeric
    field.  In a parsed record the timestamp is a word and the request
    and the user agent have no double quote, so the URL taken from the
    request is its second space-separated part as it stands: stripping
    the double quotes removes nothing. *)
Theorem parser_guards_never_fire (line : string) :
  (∀ groups, re_match elb_pattern line = Some groups →
     length groups = 16%nat
     ∧ ∃ words req ua cipher protocol,
         groups = words ++ [req; ua; cipher; protocol]
         ∧ length words = 12%nat ∧ forallb is_word words = true
         ∧ quote_free req = true ∧ quote_free ua = true
         ∧ is_word cipher = true ∧ is_word protocol = true)
  ∧ (∀ e, parse_log_line_body line = Raise e → e = ValueError)
  ∧ (∀ r, parse_log_line line = Ok (Some r) →
       is_word (timestamp r) = true
       ∧ quote_free (request r) = true ∧ quote_free (user_agent r) = true
       ∧ ∀ u, request_url (request r) = Some u →
              split_on " " (request r) !! 1%nat = Some u
              ∧ quote_free u = true ∧ contains " " u = false).
Proof.
  split; [|split].
  - intros groups Hm. apply elb_pattern_groups in Hm as Hg.
    split; [|exact Hg].
    destruct Hg as (words & req & ua & cipher & protocol & -> & Hlen & _).
    rewrite length_app, Hlen. reflexivity.
  - apply parse_log_line_body_only_value_error.
  - intros r (groups & Hm & Hr)%parse_log_line_inv.
    apply elb_pattern_groups in Hm
      as (words & req & ua & cipher & protocol & -> & Hlen & Hwords
          & Hreq & Hua & _).
    destruct Hr as (H1 & _ & _ & _ & _ & _ & _ & _ & _ & _ & H12 & H13).
    destruct words
      as [|w0 [|w1 [|w2 [|w3 [|w4 [|w5 [|w6 [|w7 [|w8 [|w9 [|w10 [|w11 [|]]]]]]]]]]]]];
      try discriminate.
    cbn in H1, H12, H13. simplify_eq.
    cbn [forallb] in Hwords.
    apply andb_true_iff in Hwords as [_ [Hts _]%andb_true_iff].
    split; [done|]. split; [done|]. split; [done|].
    intros u. by apply request_url_quote_free.
Qed.
(** ** URL counters *)

Lemma clean_url_without_query u : without_query (clean_url u) u.
Proof.
  unfold clean_url, without_query.
  destruct (split_on_first "?" u) as (h & t & -> & Hh & Hu).
  split; [done|]. destruct Hu as [[_ ->]|Hu]; auto.
Qed.

Lemma clean_url_fixed k : contains "?" k = false → clean_url k = k.
Proof.
  intros Hk. pose proof (clean_url_without_query k) as [_ [Heq|[q Heq]]];
    [done|].
  rewrite Heq in Hk.
  assert (contains "?" (clean_url k +:+ String "?" q) = true) as Hc.
  { apply contains_spec. by exists (clean_url k), q. }
  congruence.
Qed.

Lemma count_by_filter_le {A} `{EqDecision K} (key : A → K) k
    (P : A → Prop) `{∀ x, Decision (P x)} l :
  (count_by key k (filter P l) ≤ count_by key k l)%nat.
Proof.
  unfold count_by. induction l as [|x l IH]; [done|].
  rewrite !(filter_cons _ x l). destruct (decide (P x)).
  - rewrite filter_cons. destruct (decide (key x = k)); cbn [length]; lia.
  - destruct (decide (key x = k)); cbn [length]; lia.
Qed.

(** X13.  The URL counters group the checkout errors by URL without query
    string.  A key has no question mark, is its own cleaned form and
    stands for at least one error whose URL is the key, alone or
    followed by a query string.  The count under a key of the counter
    of a category is the number of errors of that category with that
    cleaned URL; it is at most the category's error count and at most
    the count of the URL over all categories. *)
Theorem url_counters_group_by_path (lines : list string) :
  ∃ st, analyze_logs lines = Ok st
  ∧ (∀ k n, url_errors st !! k = Some n →
       n = count_by (clean_url ∘ url) k (checkout_errors st)
       ∧ clean_url k = k
       ∧ ∃ c, c ∈ checkout_errors st ∧ without_query k (url c))
  ∧ column_sum id (url_errors st) = length (checkout_errors st)
  ∧ (∀ category s k n,
       pattern_stats st !! category = Some s → urls s !! k = Some n →
       n = count_by (clean_url ∘ url) k
             (filter (fun c => pattern_category c = category)
                (checkout_errors st))
       ∧ (1 ≤ n ≤ funnel_errors s)%nat
       ∧ (n ≤ default 0%nat (url_errors st !! k))%nat).
Proof.
  exists (extend empty_analysis lines).
  split; [apply analyze_logs_extend|].
  generalize (extend empty_analysis lines). intros st.
  unfold url_errors. split; [|split].
  - intros k n [-> Hpos]%counter_lookup. split; [done|].
    assert (0 < count_by (clean_url ∘ url) k (checkout_errors st))%nat
      as (c & Hc & Hk)%count_by_pos by lia.
    cbn in Hk. subst k.
    pose proof (clean_url_without_query (url c)) as Hclean.
    split; [apply clean_url_fixed, Hclean | eauto].
  - rewrite (column_sum_tally id incr 0%nat _ 1) by done.
    rewrite column_sum_empty. lia.
  - intros category s k n Hs Hn. rewrite pattern_stats_lookup in Hs.
    unfold funnel_of in Hs.
    destruct (_ =? 0)%nat; [discriminate|]. injection Hs as <-.
    cbn [urls funnel_errors] in *. unfold url_counts in Hn.
    apply counter_lookup in Hn as [-> Hpos]. split; [done|].
    pose proof (count_by_filter_le (clean_url ∘ url) k
                  (fun c => pattern_category c = category)
                  (checkout_errors st)) as Hle.
    split.
    + split; [done|]. apply length_filter_le.
    + destruct (tally incr 0%nat (clean_url ∘ url) (checkout_errors st) ∅
                  !! k) as [m|] eqn:Hm; cbn [default].
      * apply counter_lookup in Hm as [-> _]. exact Hle.
      * assert (1 ≤ count_by (clean_url ∘ url) k (checkout_errors st))%nat
          as Hc by lia.
        pose proof (proj2 (counter_lookup (clean_url ∘ url)
                             (checkout_errors st) k _) (conj eq_refl Hc))
          as Hsome.
        congruence.
Qed.

(** ** User agents *)

Lemma count_if_split flag l :
  (count_if flag l + count_if (negb ∘ flag) l)%nat = length l.
Proof.
  unfold count_if, compose. induction l as [|c l IH]; [done|].
  rewrite !filter_cons.
  destruct (flag c); cbn [negb]; repeat case_decide; try done;
    cbn [length]; lia.
Qed.

Lemma count_if_errors_le flag lines :
  (count_if flag (checkout_errors (extend empty_analysis lines))
   ≤ count_if flag (checkout_requests (extend empty_analysis lines)))%nat.
Proof.
  rewrite checkout_errors_extend. unfold count_if.
  generalize (checkout_requests (extend empty_analysis lines)). intros l.
  induction l as [|c l IH]; [done|].
  rewrite !(filter_cons _ c l).
  destruct (decide (is_server_error c = true));
    rewrite ?filter_cons; destruct (decide (flag c = true));
    cbn [length]; lia.
Qed.

Lemma traffic_row_total with_pct flag st :
  (count_if flag (checkout_errors st)
   ≤ count_if flag (checkout_requests st))%nat →
  match traffic_row_of with_pct flag st with
  | None =>
      count_if flag (checkout_requests st) = 0%nat
      ∧ count_if flag (checkout_errors st) = 0%nat
  | Some r =>
      ∃ row, r = Ok row
        ∧ traffic_requests row = count_if flag (checkout_requests st)
        ∧ traffic_errors row = count_if flag (checkout_errors st)
        ∧ (1 ≤ traffic_requests row)%nat
        ∧ (traffic_errors row ≤ traffic_requests row)%nat
        ∧ (0 <= traffic_error_rate row <= 100)%Q
        ∧ match traffic_error_pct row with
          | Some p => with_pct = true ∧ (0 <= p <= 100)%Q
          | None => with_pct = false
          end
  end.
Proof.
  intros Hle. unfold traffic_row_of. cbv zeta.
  destruct (count_if flag (checkout_requests st)) as [|n] eqn:Hreq;
    rewrite ?Hreq in Hle; cbn [Nat.ltb Nat.leb]; [split; [done | lia]|].
  assert (count_if flag (checkout_errors st) ≤ length (checkout_errors st))%nat
    as Hall by apply length_filter_le.
  destruct (guarded_rate_bounds _ _ Hle) as (q & Hq & Hbounds).
  destruct (guarded_rate_bounds _ _ Hall) as (p & Hp & Hpb).
  unfold guarded_rate in Hq. cbn [Nat.ltb Nat.leb] in Hq.
  destruct (py_truediv _ (S n)) as [q'|] eqn:Hdiv; [|discriminate].
  cbn in Hq. injection Hq as <-. destruct Hbounds, Hpb.
  destruct with_pct; [rewrite Hp|]; cbn; eexists; (split; [reflexivity|]);
    cbn; repeat split; try done; lia.
Qed.

Lemma length_append (a b : string) :
  String.length (a +:+ b) = (String.length a + String.length b)%nat.
Proof.
  induction a as [|c a IH]; [done|].
  rewrite append_cons. cbn [String.length]. by rewrite IH.
Qed.

Lemma substring_prefix n s :
  (String.length (String.substring 0 n s) ≤ n)%nat
  ∧ ∃ rest, s = String.substring 0 n s +:+ rest.
Proof.
  revert s. induction n as [|n IH]; intros [|c s]; cbn [String.substring].
  - split; [done | by exists ""].
  - split; [done | by exists (String c s)].
  - split; [simpl; lia | by exists ""].
  - destruct (IH s) as [Hlen [rest Hrest]]. split; [simpl; lia|].
    exists rest. by rewrite append_cons, <- Hrest.
Qed.

Lemma shorten_length n ua : (String.length (shorten n ua) ≤ n + 3)%nat.
Proof.
  unfold shorten, slice.
  destruct (Nat.ltb_spec n (String.length ua)) as [Hlt|Hge]; [|lia].
  rewrite length_append. pose proof (substring_prefix n ua) as [Hlen _].
  rewrite Nat.sub_0_r. simpl. lia.
Qed.

(** A word without the character [c] that starts in [a +:+ c b] lies
    before the [c]. *)
Lemma prefix_before c w a b :
  forallb (fun x => negb (Ascii.eqb x c)) (list_ascii_of_string w) = true →
  String.prefix w (a +:+ String c b) = true → String.prefix w a = true.
Proof.
  revert w. induction a as [|x a IH]; intros [|d w] Hw; try done.
  - cbn [list_ascii_of_string forallb] in Hw.
    apply andb_true_iff in Hw as [Hd%negb_true_iff%Ascii.eqb_neq _].
    change ("" +:+ String c b) with (String c b). cbn [String.prefix].
    by destruct (ascii_dec d c).
  - cbn [list_ascii_of_string forallb] in Hw.
    apply andb_true_iff in Hw as [_ Hw].
    rewrite append_cons. cbn [String.prefix].
    destruct (ascii_dec d x); [by apply IH | done].
Qed.

Lemma contains_before c w a b :
  forallb (fun x => negb (Ascii.eqb x c)) (list_ascii_of_string w) = true →
  contains w (a +:+ String c b) = true →
  contains w a = true ∨ contains w b = true.
Proof.
  intros Hw. induction a as [|x a IH].
  - change ("" +:+ String c b) with (String c b). cbn [contains].
    intros [Hp|Hb]%orb_true_iff; [|by right]. left.
    by apply (prefix_before c w "" b) in Hp.
  - rewrite append_cons. cbn [contains].
    intros [Hp|Ha]%orb_true_iff.
    + left. apply (prefix_before c w (String x a) b) in Hp; [|done].
      by rewrite Hp.
    + destruct (IH Ha) as [Hl|Hr]; [|by right]. left.
      by rewrite Hl, orb_true_r.
Qed.

Lemma contains_empty_text w : contains w "" = true → ∀ s, contains w s = true.
Proof.
  destruct w; [|done]. intros _ s. by destruct s.
Qed.

Lemma contains_before_dots w p :
  forallb (fun x => negb (Ascii.eqb x ".")) (list_ascii_of_string w) = true →
  contains w (p +:+ "...") = true → contains w p = true.
Proof.
  intros Hw Hc.
  apply (contains_before "." w p ".." Hw) in Hc as [Hc|Hc]; [done|].
  apply (contains_before "." w "" "." Hw) in Hc as [Hc|Hc];
    [by apply contains_empty_text|].
  apply (contains_before "." w "" "" Hw) in Hc as [Hc|Hc];
    by apply contains_empty_text.
Qed.

Lemma bot_indicator_shorten n ua :
  bot_indicator (shorten n ua) = true → is_bot_traffic ua = true.
Proof.
  unfold bot_indicator, is_bot_traffic, shorten, slice.
  destruct (n <? String.length ua)%nat; [|done].
  destruct (substring_prefix (n - 0) ua) as [_ [rest Hrest]].
  unfold search_any. rewrite lower_app.
  intros (w & Hw & Hc)%any_in_spec.
  change (lower "...") with "..." in Hc.
  apply contains_before_dots in Hc.
  - rewrite Hrest at 1. rewrite lower_app. apply any_in_spec.
    exists w. split; [done|].
    apply contains_spec in Hc as (a & b & Hab). apply contains_spec.
    exists a, (b +:+ lower rest). by rewrite Hab, !append_assoc.
  - assert (forallb (fun w => forallb (fun x => negb (Ascii.eqb x "."))
                                (list_ascii_of_string w)) bot_patterns
            = true) as Hall by (by vm_compute).
    rewrite forallb_forall in Hall. by apply Hall, list_elem_of_In.
Qed.

Lemma size_list_to_set_le `{Countable K} (l : list K) :
  (size (list_to_set (C := gset K) l) ≤ length l)%nat.
Proof.
  induction l as [|k l IH]; [done|]. cbn [list_to_set length].
  destruct (decide (k ∈ (list_to_set l : gset K))) as [Hin|Hout].
  - rewrite (subseteq_union_1_L {[k]} (list_to_set l)) by set_solver. lia.
  - rewrite size_union by set_solver. rewrite size_singleton. lia.
Qed.

(** X14.  The traffic comparison splits the checkout requests and the checkout
    errors in two, by bot and human and by mobile and desktop, with the
    marks set when the request was read.  No line divides by zero: a
    line is shown with rates when the kind has a request, and then its
    errors are at most its requests and its rates lie between 0 and 100.
    The user-agent counter holds one count per checkout error under keys
    of at most 83 characters; a key is marked as a bot only if every
    error filed under it is one. *)
Theorem user_agent_report (lines : list string) :
  ∃ st, analyze_logs lines = Ok st
  ∧ (∀ c, c ∈ checkout_requests st →
       is_bot c = is_bot_traffic (user_agent (entry c))
       ∧ is_mobile c = is_mobile_traffic (user_agent (entry c)))
  ∧ Forall (fun flags : (checkout_entry → bool) * (checkout_entry → bool) =>
              (count_if flags.1 (checkout_requests st)
               + count_if flags.2 (checkout_requests st))%nat
              = length (checkout_requests st)
              ∧ (count_if flags.1 (checkout_errors st)
                 + count_if flags.2 (checkout_errors st))%nat
                = length (checkout_errors st))
           [(is_bot, is_human); (is_mobile, is_desktop)]
  ∧ Forall (fun row : bool * (checkout_entry → bool) =>
              match traffic_row_of row.1 row.2 st with
              | None =>
                  count_if row.2 (checkout_requests st) = 0%nat
                  ∧ count_if row.2 (checkout_errors st) = 0%nat
              | Some r =>
                  ∃ t, r = Ok t
                    ∧ traffic_requests t
                      = count_if row.2 (checkout_requests st)
                    ∧ traffic_errors t = count_if row.2 (checkout_errors st)
                    ∧ (1 ≤ traffic_requests t)%nat
                    ∧ (traffic_errors t ≤ traffic_requests t)%nat
                    ∧ (0 <= traffic_error_rate t <= 100)%Q
                    ∧ match traffic_error_pct t with
                      | Some p => row.1 = true ∧ (0 <= p <= 100)%Q
                      | None => row.1 = false
                      end
              end)
           [(true, is_bot); (true, is_human);
            (false, is_mobile); (false, is_desktop)]
  ∧ column_sum id (user_agent_errors st) = length (checkout_errors st)
  ∧ (∀ ua n, user_agent_errors st !! ua = Some n →
       (String.length ua ≤ 83)%nat
       ∧ n = count_by (shorten 80 ∘ user_agent ∘ entry) ua
               (checkout_errors st)
       ∧ (bot_indicator ua = true →
          ∀ c, c ∈ checkout_errors st →
               shorten 80 (user_agent (entry c)) = ua → is_bot c = true))
  ∧ (size (bot_user_agents st) ≤ count_if is_bot (checkout_errors st))%nat.
Proof.
  exists (extend empty_analysis lines).
  split; [apply analyze_logs_extend|].
  pose proof (fun flag => count_if_errors_le flag lines) as Hle.
  pose proof (checkout_errors_elem lines) as Herrors.
  pose proof (checkout_requests_classified lines) as Hclass.
  generalize dependent (extend empty_analysis lines).
  intros st Hle Herrors Hclass.
  assert (∀ c, c ∈ checkout_requests st →
       is_bot c = is_bot_traffic (user_agent (entry c))
       ∧ is_mobile c = is_mobile_traffic (user_agent (entry c))) as Hflags.
  { intros c [Hc _]%Hclass. by rewrite Hc. }
  split; [done|]. split; [|split; [|split; [|split]]].
  - repeat (apply Forall_cons; split); [..|apply Forall_nil_2];
      cbn [fst snd]; split; apply count_if_split.
  - repeat (apply Forall_cons; split); [..|apply Forall_nil_2];
      cbn [fst snd]; apply traffic_row_total, Hle.
  - unfold user_agent_errors.
    rewrite (column_sum_tally id incr 0%nat _ 1) by done.
    rewrite column_sum_empty. lia.
  - intros ua n [-> Hpos]%counter_lookup.
    assert (0 < count_by (shorten 80 ∘ user_agent ∘ entry) ua
                  (checkout_errors st))%nat
      as (c0 & _ & Hua)%count_by_pos by lia.
    split; [|split; [done|]].
    + rewrite <- Hua. apply (shorten_length 80).
    + intros Hbot c [Hc _]%Herrors Hc_ua. rewrite <- Hc_ua in Hbot.
      apply bot_indicator_shorten in Hbot.
      by rewrite (proj1 (Hflags c Hc)).
  - unfold bot_user_agents, count_if.
    etransitivity; [apply size_list_to_set_le|]. by rewrite length_fmap.
Qed.

(** ** Order and content of the report rows *)

Lemma str_le_trans : Transitive str_le.
Proof.
  intros a b c Hab Hbc. unfold str_le in *.
  apply Is_true_true. apply Is_true_true in Hab, Hbc.
  exact (transitivity (R := String.le) Hab Hbc).
Qed.

Lemma StronglySorted_strict l :
  StronglySorted str_le l → NoDup l → StronglySorted str_lt l.
Proof.
  induction 1 as [|a l Hsorted IH Hall]; intros Hnodup; constructor.
  - apply IH. by apply NoDup_cons in Hnodup as [_ ?].
  - apply NoDup_cons in Hnodup as [Hout _].
    apply Forall_forall. intros b Hb. split.
    + by eapply Forall_forall in Hall.
    + by intros ->.
Qed.

Lemma sorted_keys_sorted {V} (d : gmap string V) :
  StronglySorted str_lt (sorted_keys d).
Proof.
  unfold sorted_keys. apply StronglySorted_strict.
  - pose proof str_le_trans. apply StronglySorted_merge_sort; apply _.
  - rewrite merge_sort_Permutation. apply NoDup_fst_map_to_list.
Qed.

Lemma mapM_inv {A B} (f : A → result B) (l : list A) ys :
  mapM f l = Ok ys → Forall2 (fun x y => f x = Ok y) l ys.
Proof.
  revert ys. induction l as [|x l IH]; intros ys; cbn.
  - intros [= <-]. constructor.
  - intros (y & Hy & (ys' & Hys & [= <-])%bind_ok)%bind_ok.
    constructor; auto.
Qed.

Lemma py_truediv_mono a b d :
  (a ≤ b)%nat → (1 ≤ d)%nat →
  ∃ p q, py_truediv a d = Ok p ∧ py_truediv b d = Ok q
         ∧ (0 <= p)%Q ∧ (p <= q)%Q ∧ (q <= inject_Z (Z.of_nat b))%Q
         ∧ ((1 ≤ b)%nat → (0 < q)%Q).
Proof.
  intros Hab Hd. destruct d as [|d]; [lia|]. cbn [py_truediv].
  eexists _, _. split; [reflexivity|]. split; [reflexivity|].
  rewrite !Qred_correct. unfold Qle, Qlt, inject_Z; cbn [Qnum Qden].
  rewrite !pos_of_nat_succ. repeat split; nia.
Qed.

Lemma hourly_row_bounds days hour stats row :
  (errors stats ≤ checkout stats)%nat → (checkout stats ≤ total stats)%nat →
  (1 ≤ total stats)%nat → (1 ≤ days)%nat →
  hourly_row_of days hour stats = Ok row →
  row_hour row = hour
  ∧ (0 <= avg_errors row)%Q ∧ (avg_errors row <= avg_checkout row)%Q
  ∧ (avg_checkout row <= avg_total row)%Q ∧ (0 < avg_total row)%Q
  ∧ (avg_total row <= inject_Z (Z.of_nat (total stats)))%Q
  ∧ (0 <= hour_error_rate row <= 100)%Q
  ∧ hour_status row = hourly_status (hour_error_rate row).
Proof.
  intros Hec Hct Htotal Hdays. unfold hourly_row_of, guarded_avg.
  destruct days as [|n]; [lia|]. cbn [Nat.ltb Nat.leb].
  destruct (py_truediv_mono _ _ (S n) Hec Hdays)
    as (e & c & He & Hc & He0 & Hec' & _ & _).
  destruct (py_truediv_mono _ _ (S n) Hct Hdays)
    as (c' & t & Hc' & Ht & _ & Hct' & Htt & Hpos).
  assert (c' = c) as -> by congruence.
  destruct (guarded_rate_bounds _ _ Hec) as (q & Hq & Hq0 & Hq100).
  rewrite He, Hc, Ht, Hq. cbn. intros [= <-]. cbn.
  repeat split; try done. by apply Hpos.
Qed.

(** X15.  The rows of the daily report come in strictly increasing order of
    date and those of the hourly report in strictly increasing order of
    hour, one row for each bucket.  In an hourly row the three averages
    are taken over at least one day and are ordered like the counts of
    the bucket: the average of the errors is at least zero and at most
    that of the checkout requests, which is at most that of all
    requests, which is above zero and at most the bucket's total; the
    error rate lies between 0 and 100 and decides the status. *)
Theorem report_rows_in_order (lines : list string) :
  ∃ st daily hourly,
    analyze_logs lines = Ok st
    ∧ analyze_daily_trends st = Ok daily
    ∧ analyze_hourly_patterns st = Ok hourly
    ∧ StronglySorted str_lt (row_date <$> daily)
    ∧ StronglySorted str_lt (row_hour <$> hourly)
    ∧ (∀ k, k ∈ row_date <$> daily ↔ is_Some (daily_stats st !! k))
    ∧ (∀ k, k ∈ row_hour <$> hourly ↔ is_Some (hourly_stats st !! k))
    ∧ (∀ row, row ∈ hourly →
         (1 ≤ total_days st)%nat
         ∧ (0 <= avg_errors row)%Q
         ∧ (avg_errors row <= avg_checkout row)%Q
         ∧ (avg_checkout row <= avg_total row)%Q
         ∧ (0 < avg_total row)%Q
         ∧ (∃ b, hourly_stats st !! row_hour row = Some b
                 ∧ (avg_total row <= inject_Z (Z.of_nat (total b)))%Q)
         ∧ (0 <= hour_error_rate row <= 100)%Q
         ∧ hour_status row = hourly_status (hour_error_rate row)).
Proof.
  set (st := extend empty_analysis lines).
  destruct (daily_rows_total (daily_stats st) None
              (sorted_keys (daily_stats st))) as (daily & Hdaily & _).
  destruct (mapM_total
              (fun hour => hourly_row_of (total_days st) hour
                             (default bucket_zero (hourly_stats st !! hour)))
              (sorted_keys (hourly_stats st))) as [hourly Hhourly].
  { intros hour. destruct (hourly_row_total (total_days st) hour
      (default bucket_zero (hourly_stats st !! hour))) as (row & Hrow & _).
    eauto. }
  exists st, daily, hourly. split; [apply analyze_logs_extend|].
  split; [exact Hdaily|]. split; [exact Hhourly|].
  apply daily_rows_dates in Hdaily as Hdates.
  apply mapM_inv in Hhourly as Hrows.
  assert (∀ hour row, hour ∈ sorted_keys (hourly_stats st) →
            hourly_row_of (total_days st) hour
              (default bucket_zero (hourly_stats st !! hour)) = Ok row →
            row_hour row = hour
            ∧ (1 ≤ total_days st)%nat
            ∧ (0 <= avg_errors row)%Q
            ∧ (avg_errors row <= avg_checkout row)%Q
            ∧ (avg_checkout row <= avg_total row)%Q
            ∧ (0 < avg_total row)%Q
            ∧ (∃ b, hourly_stats st !! hour = Some b
                    ∧ (avg_total row <= inject_Z (Z.of_nat (total b)))%Q)
            ∧ (0 <= hour_error_rate row <= 100)%Q
            ∧ hour_status row = hourly_status (hour_error_rate row))
    as Hrow.
  { intros hour row [b Hb]%sorted_keys_elem Hrow. rewrite Hb in Hrow.
    cbn [default] in Hrow.
    apply bucket_stats_run in Hb as Hcounts.
    destruct Hcounts as (Htotal & Hec & Hct & Hpos).
    assert (1 ≤ total_days st)%nat as Hdays.
    { destruct (total_days st) eqn:Hz; [|lia]. exfalso.
      unfold total_days in Hz. apply size_empty_iff in Hz.
      assert (0 < count_by hour_of hour (entries lines))%nat
        as (e & He & _)%count_by_pos by lia.
      apply (not_elem_of_empty (C := gset string) (date_of e)), Hz.
      apply elem_of_list_to_set, list_elem_of_fmap. by exists e. }
    destruct (hourly_row_bounds _ _ _ _ Hec Hct Hpos Hdays Hrow)
      as (Hhour & H1 & H2 & H3 & H4 & H5 & H6 & H7).
    repeat (split; [done|]). split; [eauto|]. done. }
  assert (row_hour <$> hourly = sorted_keys (hourly_stats st)) as Hhours.
  { clear Hhourly. revert Hrow Hrows.
    generalize (sorted_keys (hourly_stats st)) as keys.
    intros keys Hrow Hrows.
    induction Hrows as [|hour row keys rows Hhr Hrows IH]; [done|].
    rewrite fmap_cons. f_equal.
    - apply (Hrow hour row); [apply list_elem_of_here | done].
    - apply IH. intros h r Hh. apply Hrow. by apply list_elem_of_further. }
  rewrite Hdates, Hhours.
  split; [apply sorted_keys_sorted|]. split; [apply sorted_keys_sorted|].
  split; [apply sorted_keys_elem|]. split; [apply sorted_keys_elem|].
  intros row Hin.
  apply list_elem_of_lookup in Hin as [i Hi].
  destruct (Forall2_lookup_r _ _ _ _ _ Hrows Hi) as (hour & Hk & Hhr).
  apply list_elem_of_lookup_2 in Hk.
  destruct (Hrow hour row Hk Hhr) as (<- & Hrest). exact Hrest.
Qed.

(** ** Insertion order and rankings *)

Section OrderedFacts.
Context {A K V W : Type} `{Countable K}.
Variable update : A → V → V.
Variable zero : V.
Variable update' : A → W → W.
Variable zero' : W.
Variable key : A → K.
Variable forget : W → V.
Hypothesis forget_zero : forget zero' = zero.
Hypothesis forget_update : ∀ x w, forget (update' x w) = update x (forget w).

Lemma od_step_forget (d : list (K * W)) x :
  list_to_map (prod_map id forget <$> od_step update' zero' key d x)
  = tally_step update zero key (list_to_map (prod_map id forget <$> d)) x.
Proof.
  unfold tally_step. induction d as [|[k w] d IH]; cbn [od_step].
  - cbn. by rewrite lookup_empty, forget_update, forget_zero.
  - destruct (decide (k = key x)) as [->|Hne]; cbn.
    + by rewrite lookup_insert_eq, insert_insert_eq, forget_update.
    + cbn in IH. rewrite IH, lookup_insert_ne by done.
      by apply insert_insert_ne.
Qed.

Lemma od_tally_forget l (d : list (K * W)) :
  list_to_map (prod_map id forget <$> od_tally update' zero' key l d)
  = tally update zero key l (list_to_map (prod_map id forget <$> d)).
Proof.
  revert d. induction l as [|x l IH]; intros d; [done|].
  cbn [od_tally tally foldl]. unfold od_tally, tally in IH.
  by rewrite IH, od_step_forget.
Qed.

Lemma od_step_keys (d : list (K * W)) x :
  (od_step update' zero' key d x).*1
  = if decide (key x ∈ d.*1) then d.*1 else d.*1 ++ [key x].
Proof.
  induction d as [|[k w] d IH]; cbn [od_step]; [done|].
  destruct (decide (k = key x)) as [->|Hne]; cbn.
  - rewrite decide_True by apply list_elem_of_here. done.
  - cbn in IH. rewrite IH. destruct (decide (key x ∈ d.*1)) as [Hin|Hout].
    + rewrite decide_True by (by apply list_elem_of_further). done.
    + rewrite decide_False; [done|].
      intros [?|?]%elem_of_cons; congruence.
Qed.

Lemma od_tally_keys l (d : list (K * W)) :
  (od_tally update' zero' key l d).*1
  = foldl (fun seen k => if decide (k ∈ seen) then seen else seen ++ [k])
      d.*1 (key <$> l).
Proof.
  revert d. induction l as [|x l IH]; intros d; [done|].
  cbn [od_tally foldl fmap list_fmap]. unfold od_tally in IH.
  by rewrite IH, od_step_keys.
Qed.
End OrderedFacts.

Lemma first_keys_spec `{EqDecision K} (l seen : list K) :
  NoDup seen →
  let keys := foldl (fun seen k => if decide (k ∈ seen) then seen
                                   else seen ++ [k]) seen l in
  NoDup keys ∧ (∀ k, k ∈ keys ↔ k ∈ seen ∨ k ∈ l)
  ∧ ∃ new, keys = seen ++ new.
Proof.
  revert seen. induction l as [|x l IH]; intros seen Hseen; cbn [foldl].
  - split; [done|]. split; [|by exists []; rewrite app_nil_r].
    intros k. rewrite elem_of_nil. tauto.
  - destruct (decide (x ∈ seen)) as [Hin|Hout].
    + destruct (IH seen Hseen) as (Hnd & Helem & Hnew).
      split; [done|]. split; [|done].
      intros k. rewrite Helem, elem_of_cons.
      split; [tauto|]. intros [?|[->|?]]; auto.
    + assert (NoDup (seen ++ [x])) as Hseen'.
      { apply NoDup_app. split; [done|]. split; [|apply NoDup_singleton].
        intros k Hk ->%list_elem_of_singleton. done. }
      destruct (IH (seen ++ [x]) Hseen') as (Hnd & Helem & [new Hnew]).
      split; [done|]. split.
      * intros k. rewrite Helem, elem_of_app, list_elem_of_singleton,
          elem_of_cons. tauto.
      * exists (x :: new). rewrite Hnew. by rewrite <- app_assoc.
Qed.

Section RankingFacts.
Context {X : Type}.
Variable rank : X → nat.

Lemma insert_desc_Permutation x l : insert_desc rank x l ≡ₚ x :: l.
Proof.
  induction l as [|y l IH]; cbn [insert_desc]; [done|].
  destruct (rank x <? rank y)%nat; [|done].
  rewrite IH. apply Permutation_swap.
Qed.

Lemma sorted_desc_Permutation l : sorted_desc rank l ≡ₚ l.
Proof.
  induction l as [|x l IH]; [done|].
  cbn [sorted_desc foldr]. rewrite insert_desc_Permutation.
  by apply Permutation_skip.
Qed.

Lemma insert_desc_sorted x l :
  StronglySorted (fun a b => rank b ≤ rank a)%nat l →
  StronglySorted (fun a b => rank b ≤ rank a)%nat (insert_desc rank x l).
Proof.
  induction 1 as [|y l Hsorted IH Hall]; cbn [insert_desc].
  - repeat constructor.
  - destruct (Nat.ltb_spec (rank x) (rank y)) as [Hlt|Hge].
    + constructor; [done|].
      rewrite insert_desc_Permutation. constructor; [lia | done].
    + constructor; [by constructor|]. constructor; [done|].
      eapply Forall_impl; [exact Hall|]. cbn. intros z Hz. lia.
Qed.

Lemma sorted_desc_sorted l :
  StronglySorted (fun a b => rank b ≤ rank a)%nat (sorted_desc rank l).
Proof.
  induction l as [|x l IH]; [constructor|].
  cbn [sorted_desc foldr]. by apply insert_desc_sorted.
Qed.

Lemma insert_desc_stable r x l :
  filter (fun y => rank y = r) (insert_desc rank x l)
  = filter (fun y => rank y = r) (x :: l).
Proof.
  induction l as [|y l IH]; cbn [insert_desc]; [done|].
  destruct (Nat.ltb_spec (rank x) (rank y)) as [Hlt|Hge]; [|done].
  rewrite (filter_cons _ y), IH, !(filter_cons _ x), !(filter_cons _ y).
  destruct (decide (rank y = r)), (decide (rank x = r)); try done. lia.
Qed.

Lemma sorted_desc_stable r l :
  filter (fun y => rank y = r) (sorted_desc rank l)
  = filter (fun y => rank y = r) l.
Proof.
  induction l as [|x l IH]; [done|].
  cbn [sorted_desc foldr]. rewrite insert_desc_stable, !(filter_cons _ x).
  unfold sorted_desc in IH. by rewrite IH.
Qed.

(** What a ranking is: the first [n] items of the one arrangement of the
    items that is in descending order of rank and keeps the items of
    equal rank in their order. *)
Lemma top_spec n l :
  ∃ rest,
    top rank n l ++ rest ≡ₚ l
    ∧ StronglySorted (fun a b => rank b ≤ rank a)%nat (top rank n l ++ rest)
    ∧ (∀ r, filter (fun y => rank y = r) (top rank n l ++ rest)
            = filter (fun y => rank y = r) l)
    ∧ length (top rank n l) = (n `min` length l)%nat.
Proof.
  exists (drop n (sorted_desc rank l)). unfold top. rewrite take_drop.
  split; [apply sorted_desc_Permutation|].
  split; [apply sorted_desc_sorted|].
  split; [intros r; apply sorted_desc_stable|].
  by rewrite length_take, sorted_desc_Permutation.
Qed.
End RankingFacts.

Lemma od_tally_counter {A} `{Countable K} (key : A → K) l (d : list (K * nat)) :
  list_to_map (od_tally incr 0%nat key l d)
  = tally incr 0%nat key l (list_to_map d).
Proof.
  pose proof (od_tally_forget incr 0%nat incr 0%nat key id eq_refl
                (fun _ _ => eq_refl) l d) as Hforget.
  assert (∀ d' : list (K * nat), prod_map id id <$> d' = d') as Hid.
  { intros d'. rewrite <- (list_fmap_id d') at 2.
    apply list_fmap_ext. by intros _ [k n] _. }
  by rewrite !Hid in Hforget.
Qed.

Lemma od_tally_first_keys {A V} `{Countable K} (update : A → V → V) zero
    (key : A → K) l :
  (od_tally update zero key l []).*1 = first_keys (key <$> l)
  ∧ NoDup (od_tally update zero key l []).*1.
Proof.
  rewrite (od_tally_keys (K := K)). split; [done|].
  apply (first_keys_spec (key <$> l) []). constructor.
Qed.

(** The items of a counter in insertion order, and its ranking. *)
Lemma counter_ranking {A} `{Countable K} (key : A → K) l n :
  let items := od_tally incr 0%nat key l [] in
  let ranking := top snd n items in
  items.*1 = first_keys (key <$> l)
  ∧ NoDup items.*1
  ∧ list_to_map items = tally incr 0%nat key l ∅
  ∧ (∃ rest, ranking ++ rest ≡ₚ items
       ∧ StronglySorted (fun a b => b.2 ≤ a.2)%nat (ranking ++ rest)
       ∧ ∀ r, filter (fun y => y.2 = r) (ranking ++ rest)
              = filter (fun y => y.2 = r) items)
  ∧ length ranking = (n `min` size (tally incr 0%nat key l ∅))%nat
  ∧ ∀ k c, (k, c) ∈ ranking → tally incr 0%nat key l ∅ !! k = Some c.
Proof.
  intros items ranking.
  destruct (od_tally_first_keys incr 0%nat key l) as [Hkeys Hnodup].
  pose proof (od_tally_counter key l []) as Hmap.
  destruct (top_spec (X := K * nat) snd n items)
    as (rest & Hperm & Hsorted & Hstable & Hlen).
  split; [done|]. split; [done|]. split; [done|].
  split; [by exists rest|]. split.
  - fold items in Hmap. cbn in Hmap. rewrite <- Hmap.
    by rewrite map_size_list_to_map.
  - intros k c Hin. fold items in Hmap. cbn in Hmap. rewrite <- Hmap.
    apply elem_of_list_to_map; [done|]. rewrite <- Hperm.
    apply elem_of_app. by left.
Qed.

(** X16.  The ten most common URLs and user agents of the checkout errors.
    The items of each counter stand in the order in which their keys are
    first seen among the errors; the ranking is the start of the one
    arrangement of these items in descending order of count that keeps
    items of equal count in that order, so ties go to the key seen
    first; it has ten items or, if fewer, all; and each item shows the
    count of its key.  The bot mark of a user agent is computed from
    the shortened key. *)
Theorem rankings_are_most_common (lines : list string) :
  ∃ st, analyze_logs lines = Ok st
  ∧ (url_items st).*1
    = first_keys ((clean_url ∘ url) <$> checkout_errors st)
  ∧ (user_agent_items st).*1
    = first_keys ((shorten 80 ∘ user_agent ∘ entry) <$> checkout_errors st)
  ∧ Forall (fun table : list (string * nat) * list (string * nat)
                        * gmap string nat =>
              let '(items, ranking, counter) := table in
              NoDup items.*1
              ∧ list_to_map items = counter
              ∧ (∃ rest, ranking ++ rest ≡ₚ items
                   ∧ StronglySorted (fun a b => b.2 ≤ a.2)%nat
                       (ranking ++ rest)
                   ∧ ∀ r, filter (fun y => y.2 = r) (ranking ++ rest)
                          = filter (fun y => y.2 = r) items)
              ∧ length ranking = (10 `min` size counter)%nat
              ∧ ∀ k c, (k, c) ∈ ranking → counter !! k = Some c)
           [(url_items st, url_ranking st, url_errors st);
            (user_agent_items st, fst <$> user_agent_ranking st,
             user_agent_errors st)]
  ∧ (∀ ua c mark, (ua, c, mark) ∈ user_agent_ranking st →
       mark = bot_indicator ua).
Proof.
  exists (extend empty_analysis lines).
  split; [apply analyze_logs_extend|].
  generalize (extend empty_analysis lines). intros st.
  pose proof (counter_ranking (clean_url ∘ url) (checkout_errors st) 10)
    as (Hk1 & Hn1 & Hm1 & Hr1 & Hl1 & He1).
  pose proof (counter_ranking (shorten 80 ∘ user_agent ∘ entry)
                (checkout_errors st) 10) as (Hk2 & Hn2 & Hm2 & Hr2 & Hl2 & He2).
  split; [exact Hk1|]. split; [exact Hk2|]. split.
  - apply Forall_cons. split; [done|].
    apply Forall_cons. split; [|apply Forall_nil_2].
    assert (fst <$> user_agent_ranking st = top snd 10 (user_agent_items st))
      as ->; [|done].
    unfold user_agent_ranking. rewrite <- list_fmap_compose.
    rewrite <- (list_fmap_id (top snd 10 (user_agent_items st))) at 2.
    by apply list_fmap_ext.
  - intros ua c mark (item & Heq & _)%list_elem_of_fmap. by simplify_eq.
Qed.

(** ** The pattern report *)

Lemma forget_count_error c w :
  forget_order (od_count_error c w) = count_error c (forget_order w).
Proof.
  unfold forget_order, od_count_error, count_error; cbn. f_equal.
  exact (od_tally_counter clean_url [url c] (od_urls w)).
Qed.

Lemma pattern_items_forget st :
  list_to_map (prod_map id forget_order <$> pattern_items st)
  = pattern_stats st.
Proof.
  unfold pattern_items, pattern_stats.
  rewrite (od_tally_forget count_error funnel_zero od_count_error
             ordered_zero pattern_category forget_order eq_refl
             forget_count_error).
  by rewrite (od_tally_forget count_request funnel_zero od_count_request
                ordered_zero pattern_category forget_order eq_refl
                (fun _ _ => eq_refl)).
Qed.

Lemma foldl_seen `{EqDecision K} (l seen : list K) :
  (∀ k, k ∈ l → k ∈ seen) →
  foldl (fun seen k => if decide (k ∈ seen) then seen else seen ++ [k])
    seen l = seen.
Proof.
  intros Hin. induction l as [|x l IH]; [done|]. cbn [foldl].
  rewrite decide_True by apply Hin, list_elem_of_here.
  apply IH. intros k Hk. by apply Hin, list_elem_of_further.
Qed.

Lemma od_step_Forall {A K V} `{EqDecision K} (P : V → Prop)
    (update : A → V → V) zero (key : A → K) d x :
  P zero → (∀ x v, P v → P (update x v)) →
  Forall (fun kv => P kv.2) d →
  Forall (fun kv => P kv.2) (od_step update zero key d x).
Proof.
  intros Hzero Hupdate. induction 1 as [|[k v] d Hv Hd IH]; cbn [od_step].
  - repeat constructor. by apply Hupdate.
  - destruct (decide (k = key x)); constructor; cbn; auto.
Qed.

Lemma od_tally_Forall {A K V} `{EqDecision K} (P : V → Prop)
    (update : A → V → V) zero (key : A → K) l d :
  P zero → (∀ x v, P v → P (update x v)) →
  Forall (fun kv => P kv.2) d →
  Forall (fun kv => P kv.2) (od_tally update zero key l d).
Proof.
  intros Hzero Hupdate. revert d.
  induction l as [|x l IH]; intros d Hd; [done|].
  cbn [od_tally foldl]. apply IH. by apply od_step_Forall.
Qed.

Lemma pattern_items_urls st :
  Forall (fun item => NoDup (od_urls item.2).*1) (pattern_items st).
Proof.
  unfold pattern_items.
  apply (od_tally_Forall (fun s => NoDup (od_urls s).*1)).
  - constructor.
  - intros c s Hs. unfold od_count_error; cbn [od_urls od_tally foldl].
    rewrite (od_step_keys (K := string)). by destruct (decide _);
      [|apply NoDup_app; split; [done|]; split;
        [intros k Hk ->%list_elem_of_singleton | apply NoDup_singleton]].
  - apply (od_tally_Forall (fun s => NoDup (od_urls s).*1)).
    + constructor.
    + by intros c s Hs.
    + constructor.
Qed.

Lemma mapM_omap_rows {X Y} (g : X → option (result Y)) (P : X → Y → Prop) l :
  (∀ x, x ∈ l → ∃ y, g x = Some (Ok y) ∧ P x y) →
  ∃ ys, mapM id (omap g l) = Ok ys ∧ Forall2 P l ys.
Proof.
  induction l as [|x l IH]; intros Hl.
  - exists []. split; [done | constructor].
  - destruct (Hl x (list_elem_of_here _ _)) as (y & Hy & HP).
    destruct IH as (ys & Hys & Hall).
    { intros z Hz. by apply Hl, list_elem_of_further. }
    exists (y :: ys). split; [|by constructor].
    csimpl. rewrite Hy.
    change (mapM id (omap g l) ≫= (fun k => Ok (y :: k)) = Ok (y :: ys)).
    by rewrite Hys.
Qed.

Lemma pattern_report_rows_of st :
  checkout_errors st
  = filter (fun c => is_server_error c = true) (checkout_requests st) →
  ∃ rows items,
    pattern_report st = Ok (rows ++ [NoCheckoutRequests])
    ∧ (rows = [] ↔ checkout_requests st = [])
    ∧ items ≡ₚ pattern_items st
    ∧ StronglySorted (fun a b => od_errors b.2 ≤ od_errors a.2)%nat items
    ∧ (∀ n, filter (fun y => od_errors y.2 = n) items
            = filter (fun y => od_errors y.2 = n) (pattern_items st))
    ∧ (pattern_items st).*1
      = first_keys (pattern_category <$> checkout_requests st)
    ∧ Forall2 (fun item row =>
                 ∃ rate status,
                   row = StageRow item.1 item.2 rate status
                           (top snd 3 (od_urls item.2))
                   ∧ pattern_stats st !! item.1 = Some (forget_order item.2)
                   ∧ pattern_row (forget_order item.2)
                     = Some (Ok (rate, status))
                   ∧ (length (top snd 3 (od_urls item.2)) ≤ 3)%nat
                   ∧ ∀ u n, (u, n) ∈ top snd 3 (od_urls item.2) →
                            urls (forget_order item.2) !! u = Some n)
              items rows.
Proof.
  intros Hfilter.
  assert (∀ c, c ∈ checkout_errors st → c ∈ checkout_requests st) as Herrors.
  { intros c. rewrite Hfilter. by intros [_ ?]%list_elem_of_filter. }
  set (items := sorted_desc (od_errors ∘ snd) (pattern_items st)).
  assert ((pattern_items st).*1
          = first_keys (pattern_category <$> checkout_requests st)
          ∧ NoDup (pattern_items st).*1) as [Hkeys Hnodup].
  { unfold pattern_items. rewrite (od_tally_keys (K := string)).
    destruct (od_tally_first_keys od_count_request ordered_zero
                pattern_category (checkout_requests st)) as [Hk Hn].
    rewrite foldl_seen; [done|].
    intros k (c & -> & Hc%Herrors)%list_elem_of_fmap.
    rewrite Hk. unfold first_keys.
    apply (first_keys_spec (pattern_category <$> checkout_requests st) []);
      [constructor|].
    right. apply list_elem_of_fmap. eauto. }
  assert (∀ item, item ∈ pattern_items st →
            pattern_stats st !! item.1 = Some (forget_order item.2))
    as Hlookup.
  { intros [k s] Hin. rewrite <- pattern_items_forget.
    apply elem_of_list_to_map.
    - rewrite <- list_fmap_compose.
      assert (fst ∘ prod_map id forget_order = @fst string ordered_funnel)
        as -> by done. done.
    - apply list_elem_of_fmap. by exists (k, s). }
  assert (∀ item, item ∈ items →
            ∃ row, pattern_line_of item = Some (Ok row)
              ∧ ∃ rate status,
                  row = StageRow item.1 item.2 rate status
                          (top snd 3 (od_urls item.2))
                  ∧ pattern_stats st !! item.1 = Some (forget_order item.2)
                  ∧ pattern_row (forget_order item.2)
                    = Some (Ok (rate, status))
                  ∧ (length (top snd 3 (od_urls item.2)) ≤ 3)%nat
                  ∧ ∀ u n, (u, n) ∈ top snd 3 (od_urls item.2) →
                           urls (forget_order item.2) !! u = Some n)
    as Hrow.
  { intros item Hin. unfold items in Hin.
    rewrite sorted_desc_Permutation in Hin.
    pose proof (Hlookup item Hin) as Hs.
    pose proof (proj1 (Forall_forall _ _) (pattern_items_urls st) item Hin)
      as Hurls.
    rewrite pattern_stats_lookup in Hs. unfold funnel_of in Hs.
    destruct (_ =? 0)%nat eqn:Hz; [discriminate|].
    apply Nat.eqb_neq in Hz. injection Hs as Hreq Herr _.
    pose proof (filter_filter_length
                  (fun c => pattern_category c = item.1)
                  (fun c => is_server_error c = true)
                  (checkout_requests st)) as Hle.
    rewrite <- Hfilter in Hle.
    unfold pattern_line_of, pattern_row.
    cbn [requests funnel_errors forget_order]. rewrite <- Hreq, <- Herr.
    destruct (length (filter _ (checkout_requests st))) as [|n] eqn:Hn;
      [lia|].
    cbn. eexists. split; [reflexivity|]. eexists _, _.
    split; [reflexivity|]. split; [by apply Hlookup|].
    split; [done|].
    destruct (top_spec (X := string * nat) snd 3 (od_urls item.2))
      as (rest & Hperm & _ & _ & Hlen).
    split; [lia|]. intros u k Huk. cbn [urls forget_order].
    apply elem_of_list_to_map; [done|]. rewrite <- Hperm.
    apply elem_of_app. by left. }
  destruct (mapM_omap_rows pattern_line_of _ items Hrow)
    as (rows & Hrows & Hall).
  exists rows, items.
  split; [unfold pattern_report; fold items; by rewrite Hrows|].
  split; [|split; [apply sorted_desc_Permutation|];
           split; [apply (sorted_desc_sorted (od_errors ∘ snd))|];
           split; [intros n; apply (sorted_desc_stable (od_errors ∘ snd))|];
           split; [done|]].
  - apply Forall2_length in Hall.
    assert (length items = length (pattern_items st)) as Hlen
      by (unfold items; by rewrite sorted_desc_Permutation).
    assert (length (pattern_items st)
            = length (first_keys (pattern_category <$> checkout_requests st)))
      as Hlen' by (by rewrite <- Hkeys, length_fmap).
    destruct (first_keys_spec (pattern_category <$> checkout_requests st) []
                (NoDup_nil_2)) as (_ & Helem & _).
    fold (first_keys (pattern_category <$> checkout_requests st)) in Helem.
    split.
    + intros ->. destruct (checkout_requests st) as [|c cs]; [done|].
      exfalso. specialize (Helem (pattern_category c)).
      destruct (first_keys _) as [|k ks]; [|simpl in *; lia].
      apply (elem_of_nil (pattern_category c)), Helem. right.
      rewrite fmap_cons. apply list_elem_of_here.
    + intros Hnone. rewrite Hnone in Hlen'. cbn in Hlen'.
      destruct rows; [done | simpl in *; lia].
  - eapply Forall2_impl; [exact Hall|]. cbn. intros item row Hr. exact Hr.
Qed.

(** X17.  The rows of the pattern report stand in descending order of their
    error count, rows with as many errors in the order in which their
    categories are first seen among the checkout requests.  Every
    category of the table has its row, with the rate and status of its
    entry and the first three of its URLs by descending count, each with
    the count the entry holds for it.  The closing message that no
    checkout-related request was found ends the report in every case:
    the loop is never left early, so it is printed after the rows as
    well as without them. *)
Theorem pattern_report_rows (lines : list string) :
  ∃ st rows items,
    analyze_logs lines = Ok st
    ∧ pattern_report st = Ok (rows ++ [NoCheckoutRequests])
    ∧ (rows = [] ↔ checkout_requests st = [])
    ∧ items ≡ₚ pattern_items st
    ∧ StronglySorted (fun a b => od_errors b.2 ≤ od_errors a.2)%nat items
    ∧ (∀ n, filter (fun y => od_errors y.2 = n) items
            = filter (fun y => od_errors y.2 = n) (pattern_items st))
    ∧ (pattern_items st).*1
      = first_keys (pattern_category <$> checkout_requests st)
    ∧ Forall2 (fun item row =>
                 ∃ rate status,
                   row = StageRow item.1 item.2 rate status
                           (top snd 3 (od_urls item.2))
                   ∧ pattern_stats st !! item.1 = Some (forget_order item.2)
                   ∧ pattern_row (forget_order item.2)
                     = Some (Ok (rate, status))
                   ∧ (length (top snd 3 (od_urls item.2)) ≤ 3)%nat
                   ∧ ∀ u n, (u, n) ∈ top snd 3 (od_urls item.2) →
                            urls (forget_order item.2) !! u = Some n)
              items rows.
Proof.
  destruct (pattern_report_rows_of (extend empty_analysis lines)
              (checkout_errors_extend lines)) as (rows & items & Hreport).
  exists (extend empty_analysis lines), rows, items.
  split; [apply analyze_logs_extend | exact Hreport].
Qed.

(** ** The date range of the file names *)

Lemma date_ltb_lt a b :
  date_ltb a b = true
  ↔ year a < year b
    ∨ (year a = year b
       ∧ (month a < month b ∨ (month a = month b ∧ day a < day b))).
Proof.
  unfold date_ltb.
  rewrite !orb_true_iff, !andb_true_iff, !orb_true_iff, !andb_true_iff,
    !Z.ltb_lt, !Z.eqb_eq. tauto.
Qed.

Lemma date_ltb_ge a b :
  date_ltb a b = false ↔ date_ltb b a = true ∨ a = b.
Proof.
  rewrite <- not_true_iff_false, !date_ltb_lt. split.
  - intros Hnot.
    destruct (Z.lt_total (year a) (year b)) as [?|[Hy|?]]; [tauto | | tauto].
    destruct (Z.lt_total (month a) (month b)) as [?|[Hm|?]];
      [tauto | | left; right; split; [done|]; by left].
    destruct (Z.lt_total (day a) (day b)) as [?|[Hd|?]];
      [tauto | | left; right; split; [done|]; right; by split].
    right. destruct a, b; cbn in *. congruence.
  - intros [Hlt| ->]; lia.
Qed.

Lemma days_before_year_succ y :
  days_before_year (y + 1)
  = days_before_year y + 365 + (if is_leap y then 1 else 0).
Proof.
  unfold days_before_year, is_leap. replace (y + 1 - 1) with y by lia.
  destruct (Z.eqb_spec (y mod 4) 0), (Z.eqb_spec (y mod 100) 0),
    (Z.eqb_spec (y mod 400) 0); cbn [negb andb orb];
    Z.div_mod_to_equations; lia.
Qed.

Lemma days_before_year_mono y1 y2 :
  y1 ≤ y2 → days_before_year y1 ≤ days_before_year y2.
Proof. unfold days_before_year. intros. Z.div_mod_to_equations. lia. Qed.

Lemma month_cases m :
  1 ≤ m → m ≤ 12 →
  m = 1 ∨ m = 2 ∨ m = 3 ∨ m = 4 ∨ m = 5 ∨ m = 6 ∨ m = 7 ∨ m = 8 ∨ m = 9
  ∨ m = 10 ∨ m = 11 ∨ m = 12.
Proof. lia. Qed.

Lemma day_of_year_bounds a :
  valid_date a →
  1 ≤ days_before_month (year a) (month a) + day a
  ∧ days_before_month (year a) (month a) + day a
    ≤ 365 + (if is_leap (year a) then 1 else 0).
Proof.
  destruct a as [y m d]. unfold valid_date; cbn [year month day].
  intros (_ & Hm1 & Hm12 & Hd1 & Hd).
  unfold days_before_month, days_in_month in *.
  destruct (month_cases m Hm1 Hm12) as [->|[->|[->|[->|[->|[->|[->|[->|[->|
    [->|[->| ->]]]]]]]]]]]; cbn in *; destruct (is_leap y); cbn in *; lia.
Qed.

Lemma day_of_year_mono y m1 d1 m2 d2 :
  valid_date {| year := y; month := m1; day := d1 |} →
  valid_date {| year := y; month := m2; day := d2 |} →
  m1 < m2 →
  days_before_month y m1 + d1 < days_before_month y m2 + d2.
Proof.
  unfold valid_date; cbn [year month day].
  intros (_ & Ha1 & Ha12 & Hd1 & Hd1') (_ & Hb1 & Hb12 & Hd2 & Hd2') Hlt.
  unfold days_before_month, days_in_month in *.
  destruct (month_cases m1 Ha1 Ha12) as [->|[->|[->|[->|[->|[->|[->|[->|[->|
    [->|[->| ->]]]]]]]]]]];
    destruct (month_cases m2 Hb1 Hb12) as [->|[->|[->|[->|[->|[->|[->|[->|
      [->|[->|[->| ->]]]]]]]]]]]; try lia;
    cbn in *; destruct (is_leap y); cbn in *; lia.
Qed.

(** The day number grows with the date. *)
Lemma ordinal_mono a b :
  valid_date a → valid_date b → date_ltb a b = true → ordinal a < ordinal b.
Proof.
  intros Ha Hb [Hy|[Hy [Hm|[Hm Hd]]]]%date_ltb_lt; unfold ordinal.
  - pose proof (day_of_year_bounds a Ha) as [_ Hlast].
    pose proof (day_of_year_bounds b Hb) as [Hfirst _].
    pose proof (days_before_year_succ (year a)) as Hsucc.
    pose proof (days_before_year_mono (year a + 1) (year b)) as Hmono.
    lia.
  - destruct a as [y m1 d1], b as [y' m2 d2]; cbn [year month day] in *.
    subst y'. pose proof (day_of_year_mono y m1 d1 m2 d2 Ha Hb Hm). lia.
  - rewrite Hy, Hm. lia.
Qed.

Lemma strptime_ymd_valid s a : strptime_ymd s = Ok a → valid_date a.
Proof.
  unfold strptime_ymd. cbv zeta.
  destruct (_ && _) eqn:Hok; [|discriminate]. intros [= <-].
  repeat match goal with
         | H : _ && _ = true |- _ => apply andb_true_iff in H as [H ?]
         end.
  unfold valid_date; cbn [year month day]. lia.
Qed.

Lemma stamps_spec files :
  match stamps files with
  | Ok dates =>
      Forall valid_date dates
      ∧ (dates = [] ↔
         ∀ f, f ∈ files →
              search_stamp (list_ascii_of_string (basename f)) = None)
  | Raise e =>
      e = ValueError
      ∧ ∃ f s, f ∈ files
          ∧ search_stamp (list_ascii_of_string (basename f)) = Some s
          ∧ strptime_ymd s = Raise ValueError
  end.
Proof.
  induction files as [|f files IH]; cbn [stamps].
  - split; [constructor|]. split; [by intros _ f Hf%elem_of_nil | done].
  - destruct (search_stamp _) as [s|] eqn:Hs.
    + destruct (strptime_ymd s) as [a|e] eqn:Ha; cbn.
      * destruct (stamps files) as [dates|e]; cbn.
        -- destruct IH as [Hvalid _]. split.
           ++ constructor; [by eapply strptime_ymd_valid | done].
           ++ split; [done|]. intros Hnone.
              specialize (Hnone f (list_elem_of_here _ _)). congruence.
        -- destruct IH as (-> & f' & s' & Hf' & Hs' & Hbad).
           split; [done|]. exists f', s'.
           split; [by apply list_elem_of_further | done].
      * assert (e = ValueError) as ->.
        { unfold strptime_ymd in Ha. cbv zeta in Ha.
          destruct (_ && _); congruence. }
        split; [done|]. exists f, s. split; [apply list_elem_of_here | done].
    + destruct (stamps files) as [dates|e].
      * destruct IH as [Hvalid Hnone]. split; [done|]. rewrite Hnone.
        split.
        -- intros Hall f' [->|Hf']%elem_of_cons; auto.
        -- intros Hall f' Hf'. by apply Hall, list_elem_of_further.
      * destruct IH as (-> & f' & s' & Hf' & Hs' & Hbad).
        split; [done|]. exists f', s'.
        split; [by apply list_elem_of_further | done].
Qed.

Lemma date_min_spec first rest :
  date_min first rest ∈ first :: rest
  ∧ ∀ a, a ∈ first :: rest → date_ltb a (date_min first rest) = false.
Proof.
  unfold date_min. revert first.
  induction rest as [|x rest IH]; intros first; cbn [foldl].
  - split; [apply list_elem_of_here|].
    intros a ->%list_elem_of_singleton. apply date_ltb_ge. by right.
  - destruct (date_ltb x first) eqn:Hx.
    + destruct (IH x) as [Hin Hall]. split.
      * apply list_elem_of_further, Hin.
      * intros a [->|Ha]%elem_of_cons; [|by apply Hall].
        pose proof (Hall x (list_elem_of_here _ _)) as Hxm.
        apply date_ltb_ge in Hxm. apply date_ltb_lt in Hx.
        apply date_ltb_ge.
        destruct Hxm as [Hmx%date_ltb_lt| <-]; left; apply date_ltb_lt; lia.
    + destruct (IH first) as [Hin Hall]. split.
      * apply elem_of_cons in Hin as [->|Hin]; [apply list_elem_of_here|].
        by do 2 apply list_elem_of_further.
      * intros a [->|[->|Ha]%elem_of_cons]%elem_of_cons.
        -- apply Hall, list_elem_of_here.
        -- pose proof (Hall first (list_elem_of_here _ _)) as Hfm.
           apply date_ltb_ge in Hfm, Hx. apply date_ltb_ge.
           destruct Hfm as [Hfm%date_ltb_lt| <-];
             destruct Hx as [Hx%date_ltb_lt| ->];
             try (left; apply date_ltb_lt; lia); by right.
        -- by apply Hall, list_elem_of_further.
Qed.

Lemma date_max_spec first rest :
  date_max first rest ∈ first :: rest
  ∧ ∀ a, a ∈ first :: rest → date_ltb (date_max first rest) a = false.
Proof.
  unfold date_max. revert first.
  induction rest as [|x rest IH]; intros first; cbn [foldl].
  - split; [apply list_elem_of_here|].
    intros a ->%list_elem_of_singleton. apply date_ltb_ge. by right.
  - destruct (date_ltb first x) eqn:Hx.
    + destruct (IH x) as [Hin Hall]. split.
      * apply list_elem_of_further, Hin.
      * intros a [->|Ha]%elem_of_cons; [|by apply Hall].
        pose proof (Hall x (list_elem_of_here _ _)) as Hxm.
        apply date_ltb_ge in Hxm. apply date_ltb_lt in Hx.
        apply date_ltb_ge.
        destruct Hxm as [Hmx%date_ltb_lt| ->]; left; apply date_ltb_lt; lia.
    + destruct (IH first) as [Hin Hall]. split.
      * apply elem_of_cons in Hin as [->|Hin]; [apply list_elem_of_here|].
        by do 2 apply list_elem_of_further.
      * intros a [->|[->|Ha]%elem_of_cons]%elem_of_cons.
        -- apply Hall, list_elem_of_here.
        -- pose proof (Hall first (list_elem_of_here _ _)) as Hfm.
           apply date_ltb_ge in Hfm, Hx. apply date_ltb_ge.
           destruct Hfm as [Hfm%date_ltb_lt| ->];
             destruct Hx as [Hx%date_ltb_lt| <-];
             try (left; apply date_ltb_lt; lia); by right.
        -- by apply Hall, list_elem_of_further.
Qed.

(** X18.  The date range is read from the file names alone.  A file name
    without the stamp pattern is passed over, and without any stamp
    there is no range.  The one failure is a stamp that is no calendar
    date: its [ValueError] is not caught by [show_data_range].
    Otherwise the first and the last day are dates of the file names,
    no date lies before the first or after the last, and the number of
    days is at least 1, and 1 exactly when first and last day are the
    same. *)
Theorem date_range_of_file_names (files : list string) :
  match show_data_range files with
  | Raise e =>
      e = ValueError
      ∧ ∃ f s, f ∈ files
          ∧ search_stamp (list_ascii_of_string (basename f)) = Some s
          ∧ strptime_ymd s = Raise ValueError
  | Ok None =>
      ∀ f, f ∈ files →
           search_stamp (list_ascii_of_string (basename f)) = None
  | Ok (Some (first_date, last_date, days)) =>
      ∃ dates, stamps files = Ok dates
        ∧ Forall valid_date dates
        ∧ first_date ∈ dates ∧ last_date ∈ dates
        ∧ (∀ a, a ∈ dates →
             date_ltb a first_date = false ∧ date_ltb last_date a = false)
        ∧ days = ordinal last_date - ordinal first_date + 1
        ∧ 1 ≤ days
        ∧ (days = 1 ↔ first_date = last_date)
  end.
Proof.
  unfold show_data_range, get_date_range.
  pose proof (stamps_spec files) as Hspec.
  destruct (stamps files) as [[|first rest]|e]; cbn.
  - by apply Hspec.
  - destruct Hspec as [Hvalid _].
    destruct (date_min_spec first rest) as [Hmin_in Hmin].
    destruct (date_max_spec first rest) as [Hmax_in Hmax].
    exists (first :: rest). split; [done|]. split; [done|].
    split; [done|]. split; [done|]. split; [by auto|]. split; [done|].
    pose proof (proj1 (Forall_forall _ _) Hvalid _ Hmin_in) as Hvmin.
    pose proof (proj1 (Forall_forall _ _) Hvalid _ Hmax_in) as Hvmax.
    pose proof (Hmin _ Hmax_in) as Hle. apply date_ltb_ge in Hle.
    destruct Hle as [Hlt|Heq].
    + pose proof (ordinal_mono _ _ Hvmin Hvmax Hlt) as Hord.
      split; [lia|]. split; [lia|]. intros Heq. rewrite Heq in Hord. lia.
    + rewrite <- Heq. split; [lia|]. split; [done | lia].
  - exact Hspec.
Qed.

(** ** The overall summary *)

Lemma times100_zero a b :
  (times100 (Qred (Z.of_nat a # Pos.of_nat (S b))) == 0)%Q ↔ a = 0%nat.
Proof.
  unfold times100. rewrite !Qred_correct. unfold Qeq, Qmult; cbn [Qnum Qden].
  lia.
Qed.

(** X19.  The overall summary of a run is computed without error.  Its three
    counts are nested, checkout errors within checkout requests within
    all requests within the lines read; the error rate and the share of
    checkout traffic lie between 0 and 100; the error rate is zero only
    without a checkout error and the share only without a checkout
    request. *)
Theorem overall_summary_bounds (lines : list string) :
  ∃ st s, analyze_logs lines = Ok st ∧ analyze_overall_summary st = Ok s
  ∧ total_requests s = parsed_lines st
  ∧ (total_checkout_errors s ≤ total_checkout_requests s)%nat
  ∧ (total_checkout_requests s ≤ total_requests s)%nat
  ∧ (total_requests s ≤ total_lines st)%nat
  ∧ (0 <= checkout_error_rate s <= 100)%Q
  ∧ (0 <= checkout_traffic_pct s <= 100)%Q
  ∧ ((checkout_error_rate s == 0)%Q ↔ total_checkout_errors s = 0%nat)
  ∧ ((checkout_traffic_pct s == 0)%Q ↔ total_checkout_requests s = 0%nat).
Proof.
  exists (extend empty_analysis lines).
  assert (length (checkout_errors (extend empty_analysis lines))
          ≤ length (checkout_requests (extend empty_analysis lines)))%nat
    as Hec by (rewrite checkout_errors_extend; apply length_filter_le).
  assert (length (checkout_requests (extend empty_analysis lines))
          ≤ length (all_requests (extend empty_analysis lines)))%nat
    as Hct by apply length_omap_le.
  assert (length (all_requests (extend empty_analysis lines))
          ≤ total_lines (extend empty_analysis lines))%nat
    as Htl by apply length_omap_le.
  assert (parsed_lines (extend empty_analysis lines)
          = length (all_requests (extend empty_analysis lines))) as Hp
    by reflexivity.
  pose proof (analyze_logs_extend lines) as Hrun.
  revert Hrun Hec Hct Htl Hp.
  generalize (extend empty_analysis lines). intros st Hrun Hec Hct Htl Hp.
  unfold analyze_overall_summary. cbv zeta.
  destruct (length (checkout_requests st)) as [|c] eqn:Hc.
  - cbn. eexists. split; [done|]. split; [reflexivity|]. cbn.
    rewrite Hp. repeat split; try done; try lia.
  - destruct (length (all_requests st)) as [|t] eqn:Ht; [lia|].
    destruct (guarded_rate_bounds _ _ Hec) as (q & Hq & Hq0 & Hq100).
    destruct (guarded_rate_bounds _ _ Hct) as (p & Hpct & Hp0 & Hp100).
    unfold guarded_rate in Hq, Hpct. cbn in Hq, Hpct |- *.
    injection Hq as <-. injection Hpct as <-.
    eexists. split; [done|]. split; [reflexivity|]. cbn.
    rewrite Hp. split; [done|]. split; [done|]. split; [done|].
    split; [done|]. split; [done|]. split; [done|]. split.
    + apply (times100_zero _ c).
    + rewrite (times100_zero (S c) t). done.
Qed.
